(** * Parquet Peek: SQL fragment construction and the paging session

    A shallow embedding of [parquet-ext/viewer-utils.js] (the escaping
    primitives and [buildFilterClauses]) and of the session logic of the
    viewer script (sorting, filtering, paging, error classification),
    together with the properties of them that the specification states
    and further properties of the code: round trips of the escaping
    primitives, failure and edge behaviour of the handlers, column
    classification, and the file name and size of the status line.

    Conventions of the embedding.
    - A JavaScript string is a [string]; its characters are the code
      units U+0000..U+00FF.  All the characters the source tests for are
      in that range.
    - A JavaScript Number is a binary64 value, written out as sign,
      integer significand and binary exponent ([JsNumber.number]);
      [parseFloat] rounds the decimal it reads to the nearest value, ties
      to even, and [String(x)] is the shortest decimal that reads back
      as [x].
    - A filter value is a string or an object [{ min, max }] of strings;
      a filter map is given by its [Object.entries] list; the column
      metadata object is a finite map from column names.
    - The query engine is a parameter of the session model; handlers run
      one at a time between their awaits. *)

From Stdlib Require Import ZArith List Ascii String Bool Lia DecimalString DecimalN.
From stdpp Require Import base option gmap strings list.
Import ListNotations.

Local Open Scope string_scope.
Local Open Scope Z_scope.

(** String concatenation computes under [simpl], as in the Standard
    Library. *)
#[local] Arguments String.append : simpl nomatch.

(** ** JavaScript strings *)

Module JsString.

(** [s.replace(/c/g, r)] for a single character [c] and a replacement
    text [r] without [$] patterns. *)
Fixpoint replaceAll (c : ascii) (r : string) (s : string) : string :=
  match s with
  | EmptyString => EmptyString
  | String a s' =>
      if Ascii.eqb a c then r ++ replaceAll c r s'
      else String a (replaceAll c r s')
  end.

(** WhiteSpace and LineTerminator code units below U+0100: TAB, LF, VT,
    FF, CR, SP and NBSP. *)
Definition isWhiteSpace (a : ascii) : bool :=
  let n := nat_of_ascii a in
  ((9 <=? n)%nat && (n <=? 13)%nat) || (n =? 32)%nat || (n =? 160)%nat.

Fixpoint trimStart (s : string) : string :=
  match s with
  | EmptyString => EmptyString
  | String a s' => if isWhiteSpace a then trimStart s' else s
  end.

(** [trimEnd] keeps a character when it is not white space or when
    something is kept after it. *)
Fixpoint trimEnd (s : string) : string :=
  match s with
  | EmptyString => EmptyString
  | String a s' =>
      match trimEnd s' with
      | EmptyString => if isWhiteSpace a then EmptyString else String a EmptyString
      | t => String a t
      end
  end.

Definition trim (s : string) : string := trimEnd (trimStart s).

(** A string is truthy when it is not empty. *)
Definition truthy (s : string) : bool := negb (String.eqb s "").

Fixpoint startsWith (p s : string) : bool :=
  match p, s with
  | EmptyString, _ => true
  | String a p', String b s' => Ascii.eqb a b && startsWith p' s'
  | String _ _, EmptyString => false
  end.

(** [hay.includes(needle)] *)
Fixpoint includes (needle hay : string) : bool :=
  startsWith needle hay ||
  match hay with
  | EmptyString => false
  | String _ hay' => includes needle hay'
  end.

Definition lowerChar (a : ascii) : ascii :=
  let n := nat_of_ascii a in
  if ((65 <=? n)%nat && (n <=? 90)%nat)
     || ((192 <=? n)%nat && (n <=? 222)%nat && negb (n =? 215)%nat)
  then ascii_of_nat (n + 32) else a.

Fixpoint toLowerCase (s : string) : string :=
  match s with
  | EmptyString => EmptyString
  | String a s' => String (lowerChar a) (toLowerCase s')
  end.

(** Canonicalisation of the [/i] flag, restricted to what can match an
    ASCII letter of a pattern: only [a]..[z] are mapped. *)
Definition upperAscii (a : ascii) : ascii :=
  let n := nat_of_ascii a in
  if ((97 <=? n)%nat && (n <=? 122)%nat) then ascii_of_nat (n - 32) else a.

Fixpoint startsWithIgnoreCase (p s : string) : bool :=
  match p, s with
  | EmptyString, _ => true
  | String a p', String b s' =>
      Ascii.eqb (upperAscii a) (upperAscii b) && startsWithIgnoreCase p' s'
  | String _ _, EmptyString => false
  end.

Definition isDigit (a : ascii) : bool :=
  let n := nat_of_ascii a in ((48 <=? n)%nat && (n <=? 57)%nat).

(** [parts.join(sep)] *)
Fixpoint join (sep : string) (parts : list string) : string :=
  match parts with
  | [] => ""
  | [p] => p
  | p :: ps => p ++ sep ++ join sep ps
  end.

Fixpoint repeatChar (a : ascii) (n : nat) : string :=
  match n with
  | O => EmptyString
  | S n' => String a (repeatChar a n')
  end.

Fixpoint takeS (n : nat) (s : string) : string :=
  match n, s with
  | S n', String a s' => String a (takeS n' s')
  | _, _ => EmptyString
  end.

Fixpoint dropS (n : nat) (s : string) : string :=
  match n, s with
  | S n', String _ s' => dropS n' s'
  | _, _ => s
  end.

(** Every character of [s] satisfies [p]. *)
Fixpoint allChars (p : ascii -> bool) (s : string) : bool :=
  match s with
  | EmptyString => true
  | String a s' => p a && allChars p s'
  end.

End JsString.

(** ** JavaScript Numbers *)

Module JsNumber.
Import JsString.

(** A binary64 value.  [Fin neg m e] is [(-1)^neg * m * 2^e] with
    [0 < m < 2^53]. *)
Inductive number : Type :=
| NaN
| Inf (neg : bool)
| Zero (neg : bool)
| Fin (neg : bool) (m : Z) (e : Z).

Definition isNaN (x : number) : bool :=
  match x with NaN => true | _ => false end.

Definition number_eqb (x y : number) : bool :=
  match x, y with
  | NaN, NaN => true
  | Inf a, Inf b => Bool.eqb a b
  | Zero a, Zero b => Bool.eqb a b
  | Fin a m e, Fin b m' e' => Bool.eqb a b && (m =? m') && (e =? e')
  | _, _ => false
  end.

(** [a / b] rounded to the nearest integer, ties to even
    ([0 <= a], [0 < b]). *)
Definition divRoundEven (a b : Z) : Z :=
  let q := a / b in
  let r := a mod b in
  match 2 * r ?= b with
  | Lt => q
  | Gt => q + 1
  | Eq => if Z.even q then q else q + 1
  end.

(** [num / (den * 2^q)] rounded to the nearest integer, ties to even. *)
Definition scaled (num den q : Z) : Z :=
  if 0 <=? q then divRoundEven num (den * 2 ^ q)
  else divRoundEven (num * 2 ^ (- q)) den.

(** [floor (log2 (num / den))] for positive [num], [den]. *)
Definition floorLog2 (num den : Z) : Z :=
  let b := Z.log2 num - Z.log2 den in
  let ge := if 0 <=? b then den * 2 ^ b <=? num else den <=? num * 2 ^ (- b) in
  if ge then b else b - 1.

(** The binary64 value nearest to [num / den], ties to even. *)
Definition roundRatio (neg : bool) (num den : Z) : number :=
  if num <=? 0 then Zero neg
  else
    let b := floorLog2 num den in
    let q := Z.max (b - 52) (-1074) in
    let m := scaled num den q in
    let '(m, q) := if m =? 2 ^ 53 then (2 ^ 52, q + 1) else (m, q) in
    if 971 <? q then Inf neg
    else if m =? 0 then Zero neg
    else Fin neg m q.

(** The binary64 value nearest to [m * 10^e]. *)
Definition roundDecimal (neg : bool) (m e : Z) : number :=
  if 0 <=? e then roundRatio neg (m * 10 ^ e) 1
  else roundRatio neg m (10 ^ (- e)).

(** *** parseFloat *)

Fixpoint spanDigits (s : string) : string * string :=
  match s with
  | EmptyString => (EmptyString, EmptyString)
  | String a s' =>
      if isDigit a then
        let '(d, r) := spanDigits s' in (String a d, r)
      else (EmptyString, s)
  end.

Fixpoint digitsValue (acc : Z) (s : string) : Z :=
  match s with
  | EmptyString => acc
  | String a s' => digitsValue (10 * acc + (Z.of_nat (nat_of_ascii a) - 48)) s'
  end.

Definition splitSign (s : string) : bool * string :=
  match s with
  | String "-" r => (true, r)
  | String "+" r => (false, r)
  | _ => (false, s)
  end.

(** The ExponentPart at the head of [s], when there is one. *)
Definition exponentPart (s : string) : Z :=
  match s with
  | String c r =>
      if Ascii.eqb c "e" || Ascii.eqb c "E" then
        let '(eneg, r') := splitSign r in
        let '(ed, _) := spanDigits r' in
        if String.eqb ed "" then 0
        else if eneg then - digitsValue 0 ed else digitsValue 0 ed
      else 0
  | EmptyString => 0
  end.

(** [parseFloat(s)]: the value of the longest prefix of the trimmed
    input that is a StrDecimalLiteral, [NaN] when there is none. *)
Definition parseFloat (s : string) : number :=
  let '(neg, u) := splitSign (trimStart s) in
  if startsWith "Infinity" u then Inf neg
  else
    let '(ip, r1) := spanDigits u in
    let '(fp, r2) :=
      match r1 with
      | String "." r => spanDigits r
      | _ => (EmptyString, r1)
      end in
    if String.eqb ip "" && String.eqb fp "" then NaN
    else
      roundDecimal neg (digitsValue 0 (ip ++ fp))
                   (exponentPart r2 - Z.of_nat (String.length fp)).

(** [parseFloat(v)] for a property read that may be [undefined]:
    [ToString(undefined)] is not a number. *)
Definition parseFloatOf (v : option string) : number :=
  match v with
  | Some s => parseFloat s
  | None => parseFloat "undefined"
  end.

(** *** Number::toString *)

Definition digitsOf (z : Z) : string :=
  NilZero.string_of_uint (N.to_uint (Z.to_N z)).

(** [n] with [10^(n-1) <= num/den < 10^n]. *)
Definition decimalPoint (num den : Z) : Z :=
  let ge10 (n : Z) := (* 10^n <= num/den *)
    if 0 <=? n then den * 10 ^ n <=? num else den <=? num * 10 ^ (- n) in
  let est := (floorLog2 num den * 30103) / 100000 in
  if ge10 (est + 1) then est + 2
  else if ge10 est then est + 1
  else est.

(** The candidates with [k] digits nearest to [x = num/den] from below
    and above, as (digits, decimal point). *)
Definition candidates (num den n0 k : Z) : (Z * Z) * (Z * Z) * bool :=
  let p := n0 - k in
  let '(tn, td) := if 0 <=? p then (num, den * 10 ^ p) else (num * 10 ^ (- p), den) in
  let lo := tn / td in
  let hi := lo + 1 in
  let hiNearer :=
    match 2 * tn ?= (2 * lo + 1) * td with
    | Lt => false
    | Gt => true
    | Eq => Z.odd lo
    end in
  let hic := if hi =? 10 ^ k then (10 ^ (k - 1), n0 + 1) else (hi, n0) in
  ((lo, n0), hic, hiNearer).

(** The shortest digits [s] and the decimal point [n] such that
    [s * 10^(n-k)] is [x], trying [k], [k + 1], ...; of two candidates
    the nearer to [x] is taken.  Seventeen digits always read back as
    [x], so the search from [k = 1] ends within [fuel = 16] steps. *)
Fixpoint shortestFrom (fuel : nat) (k : Z) (x : number) (num den n0 : Z) : Z * Z :=
  let '(lo, hi, hiNearer) := candidates num den n0 k in
  match fuel with
  | O => if hiNearer then hi else lo
  | S fuel' =>
      let ok (c : Z * Z) := number_eqb (roundDecimal false (fst c) (snd c - k)) x in
      match ok lo, ok hi with
      | true, true => if hiNearer then hi else lo
      | true, false => lo
      | false, true => hi
      | false, false => shortestFrom fuel' (k + 1) x num den n0
      end
  end.

Definition shortest (m e : Z) : Z * Z :=
  let '(num, den) := if 0 <=? e then (m * 2 ^ e, 1) else (m, 2 ^ (- e)) in
  shortestFrom 16 1 (Fin false m e) num den (decimalPoint num den).

Definition formatDigits (s n : Z) : string :=
  let ds := digitsOf s in
  let k := Z.of_nat (String.length ds) in
  if (k <=? n) && (n <=? 21) then ds ++ repeatChar "0" (Z.to_nat (n - k))
  else if (0 <? n) && (n <=? 21) then
    takeS (Z.to_nat n) ds ++ "." ++ dropS (Z.to_nat n) ds
  else if (-6 <? n) && (n <=? 0) then
    "0." ++ repeatChar "0" (Z.to_nat (- n)) ++ ds
  else
    let e := n - 1 in
    let es := (if e <? 0 then "-" else "+") ++ digitsOf (Z.abs e) in
    if k =? 1 then ds ++ "e" ++ es
    else takeS 1 ds ++ "." ++ dropS 1 ds ++ "e" ++ es.

(** [String(x)], as a template literal interpolates a Number. *)
Definition numberToString (x : number) : string :=
  match x with
  | NaN => "NaN"
  | Zero _ => "0"
  | Inf neg => (if neg then "-" else "") ++ "Infinity"
  | Fin neg m e =>
      let '(s, n) := shortest m e in
      (if neg then "-" else "") ++ formatDigits s n
  end.

End JsNumber.

(** ** Escaping primitives ([viewer-utils.js]) *)

Module Escape.
Import JsString.

Definition quote : ascii := "'"%char.
Definition dquote : ascii := "034"%char.
Definition backslash : ascii := "\"%char.

(** [source.replace(/'/g, "''")] *)
Definition escapeSource (source : string) : string :=
  replaceAll quote "''" source.

Definition escapeLikePattern (str : string) : string :=
  replaceAll "_" "\_" (replaceAll "%" "\%" (replaceAll backslash "\\" str)).

Definition escapeColumnName (name : string) : string :=
  String dquote (replaceAll dquote (String dquote (String dquote "")) name)
  ++ String dquote "".

End Escape.

(** ** Exceptions *)

(** A thrown JavaScript error, by its [message]. *)
Record exn : Type := Exn { message : string }.

Inductive result (A : Type) : Type :=
| Ok (a : A)
| Throw (e : exn).
Arguments Ok {A} a.
Arguments Throw {A} e.

Definition bind {A B : Type} (r : result A) (k : A -> result B) : result B :=
  match r with
  | Ok a => k a
  | Throw e => Throw e
  end.

Notation "'let*' x ':=' c1 'in' c2" := (bind c1 (fun x => c2))
  (at level 10, x name, c1 at level 100, c2 at level 200).

(** [xs.map(f)] for a callback that may throw: the first throw ends it. *)
Fixpoint mapThrow {A B : Type} (f : A -> result B) (xs : list A) : result (list B) :=
  match xs with
  | [] => Ok []
  | x :: xs' =>
      let* y := f x in
      let* ys := mapThrow f xs' in
      Ok (y :: ys)
  end.

(** ** The filter-clause builder ([buildFilterClauses]) *)

Module Filter.
Import JsString JsNumber Escape.

(** A filter value: a scalar string, or an object with string
    properties [min] and [max]. *)
Inductive FilterValue : Type :=
| Scalar (s : string)
| MinMax (min max : string).

(** Column metadata [{ filterType, type }]; a property that is not set
    is [None]. *)
Record ColMeta : Type := { filterType : option string; type : option string }.

(** [{}] *)
Definition noMeta : ColMeta := {| filterType := None; type := None |}.

(** [val.min], [val.max]: [undefined] on a string. *)
Definition minOf (val : FilterValue) : option string :=
  match val with MinMax a _ => Some a | Scalar _ => None end.
Definition maxOf (val : FilterValue) : option string :=
  match val with MinMax _ b => Some b | Scalar _ => None end.

(** The callback of the first [.filter]: [typeof val === 'object'] picks
    the [min]/[max] test, otherwise [val && val.trim()]. *)
Definition hasValue (val : FilterValue) : bool :=
  match val with
  | MinMax a b => negb (String.eqb a "") || negb (String.eqb b "")
  | Scalar s => truthy s && truthy (trim s)
  end.

(** [meta.filterType === t] *)
Definition filterTypeIs (meta : ColMeta) (t : string) : bool :=
  match filterType meta with
  | Some s => String.eqb s t
  | None => false
  end.

(** [/^\d{4}-\d{2}-\d{2}$/.test(s)] *)
Definition isDateString (s : string) : bool :=
  match s with
  | String y1 (String y2 (String y3 (String y4 (String "-"
    (String m1 (String m2 (String "-" (String d1 (String d2 EmptyString))))))))) =>
      isDigit y1 && isDigit y2 && isDigit y3 && isDigit y4
      && isDigit m1 && isDigit m2 && isDigit d1 && isDigit d2
  | _ => false
  end.

(** [x && /^\d{4}-\d{2}-\d{2}$/.test(x)] for a property read [x]. *)
Definition isDateBound (x : option string) : bool :=
  match x with
  | Some s => truthy s && isDateString s
  | None => false
  end.

(** [/^TIMESTAMP/i.test(meta.type || '')] *)
Definition isTimestamp (meta : ColMeta) : bool :=
  startsWithIgnoreCase "TIMESTAMP" (default "" (type meta)).

(** [`(${parts.join(' AND ')})`], or [null] when there is no part. *)
Definition wrapParts (parts : list string) : option string :=
  match parts with
  | [] => None
  | _ => Some ("(" ++ join " AND " parts ++ ")")
  end.

Definition rangeParts (col : string) (val : FilterValue) : list string :=
  let minNum := parseFloatOf (minOf val) in
  let maxNum := parseFloatOf (maxOf val) in
  (if negb (isNaN minNum)
   then [escapeColumnName col ++ " >= " ++ numberToString minNum] else [])
  ++
  (if negb (isNaN maxNum)
   then [escapeColumnName col ++ " <= " ++ numberToString maxNum] else []).

Definition dateParts (meta : ColMeta) (col : string) (val : FilterValue) : list string :=
  (if isDateBound (minOf val)
   then [escapeColumnName col ++ " >= '" ++ default "" (minOf val) ++ "'"] else [])
  ++
  (if isDateBound (maxOf val)
   then
     if isTimestamp meta
     then [escapeColumnName col ++ " < '" ++ default "" (maxOf val)
           ++ "'::DATE + INTERVAL '1 day'"]
     else [escapeColumnName col ++ " <= '" ++ default "" (maxOf val) ++ "'"]
   else []).

(** [val.replace] on an object value. *)
Definition notAFunction : exn := Exn "val.replace is not a function".

(** The callback of [.map]: the clause of one entry, [None] for [null]. *)
Definition clauseOf (colMeta : gmap string ColMeta) (entry : string * FilterValue)
  : result (option string) :=
  let '(col, val) := entry in
  let meta := default noMeta (colMeta !! col) in
  if filterTypeIs meta "range" then Ok (wrapParts (rangeParts col val))
  else if filterTypeIs meta "date" then Ok (wrapParts (dateParts meta col val))
  else if filterTypeIs meta "select" then
    match val with
    | Scalar s =>
        if String.eqb s "" then Ok None
        else Ok (Some (escapeColumnName col ++ " = '" ++ replaceAll quote "''" s ++ "'"))
    | MinMax _ _ => Throw notAFunction
    end
  else
    match val with
    | Scalar s =>
        Ok (Some ("CAST(" ++ escapeColumnName col ++ " AS VARCHAR) ILIKE '%"
                  ++ escapeLikePattern (replaceAll quote "''" s) ++ "%' ESCAPE '\'"))
    | MinMax _ _ => Throw notAFunction
    end.

(** The callback of the last [.filter(Boolean)]. *)
Definition keepClause (c : option string) : option string :=
  match c with
  | Some s => if truthy s then Some s else None
  | None => None
  end.

(** [buildFilterClauses(filterMap, colMeta)], on the entries of
    [filterMap]. *)
Definition buildFilterClauses (filterMap : list (string * FilterValue))
    (colMeta : gmap string ColMeta) : result (list string) :=
  let* cs := mapThrow (clauseOf colMeta)
                      (List.filter (fun e => hasValue (snd e)) filterMap) in
  Ok (omap keepClause cs).

End Filter.

(** ** The query composer ([getRows], [getFilteredRowCount]) *)

Module Query.
Import JsString JsNumber Escape Filter.

(** A column descriptor [{ name, type }]. *)
Record Column : Type := { name : string; ctype : string }.

Inductive Direction : Type := ASC | DESC.

(** [`${sortDir}`] *)
Definition directionText (d : option Direction) : string :=
  match d with
  | Some ASC => "ASC"
  | Some DESC => "DESC"
  | None => "null"
  end.

(** [`${n}`] for an integer below [10^21]. *)
Definition intText (n : Z) : string :=
  (if n <? 0 then "-" else "") ++ digitsOf (Z.abs n).

(** [` WHERE ${clauses.join(' AND ')}`] when there is a clause. *)
Definition whereText (clauses : list string) : string :=
  match clauses with
  | [] => ""
  | _ => " WHERE " ++ join " AND " clauses
  end.

(** The statement of [getRows] up to its ORDER BY clause; [LIMIT] and
    [OFFSET] are kept apart as numbers. *)
Definition rowsSql (source : string) (cols : list Column)
    (sortCol : option string) (sortDir : option Direction)
    (filterMap : list (string * FilterValue)) (colMeta : gmap string ColMeta)
  : result string :=
  let colList := join ", " (List.map (fun c => escapeColumnName (name c)) cols) in
  let query := "SELECT " ++ colList ++ " FROM read_parquet('" ++ escapeSource source ++ "')" in
  let* clauses := buildFilterClauses filterMap colMeta in
  let query := query ++ whereText clauses in
  Ok (match sortCol with
      | Some c =>
          if truthy c
          then query ++ " ORDER BY " ++ escapeColumnName c ++ " " ++ directionText sortDir
          else query
      | None => query
      end).

Definition limitText (limit off : Z) : string :=
  " LIMIT " ++ intText limit ++ " OFFSET " ++ intText off.

(** The statement of [getFilteredRowCount]. *)
Definition countSql (source : string)
    (filterMap : list (string * FilterValue)) (colMeta : gmap string ColMeta)
  : result string :=
  let query := "SELECT COUNT(*) as cnt FROM read_parquet('" ++ escapeSource source ++ "')" in
  let* clauses := buildFilterClauses filterMap colMeta in
  Ok (query ++ whereText clauses).

(** The statements of [getSchema] and [getRowCount]. *)
Definition describeSql (source : string) : string :=
  "DESCRIBE SELECT * FROM read_parquet('" ++ escapeSource source ++ "')".

Definition rowCountSql (source : string) : string :=
  "SELECT COUNT(*) as cnt FROM read_parquet('" ++ escapeSource source ++ "')".

(** The two statements of the categorical probe of [getColumnMeta]. *)
Definition distinctCountSql (source col : string) : string :=
  "SELECT COUNT(DISTINCT " ++ escapeColumnName col ++ ") as cnt FROM read_parquet('"
  ++ escapeSource source ++ "')".

Definition distinctValuesSql (source col : string) (threshold : Z) : string :=
  "SELECT DISTINCT " ++ escapeColumnName col ++ " as val FROM read_parquet('"
  ++ escapeSource source ++ "') ORDER BY val LIMIT " ++ intText threshold.

(** The engine behind [conn.query]: what each shape of statement
    returns, or the error it fails with.  A count is the [cnt] of the
    single row of a [... as cnt] statement. *)
Record Engine (Row : Type) : Type := {
  runDescribe : string -> result (list Column);
  runCount : string -> result Z;
  runValues : string -> result (list string);
  runRows : string -> Z -> Z -> result (list Row)
}.
Arguments runDescribe {Row} _ _.
Arguments runCount {Row} _ _.
Arguments runValues {Row} _ _.
Arguments runRows {Row} _ _ _ _.

End Query.

(** ** The SQL operators the text clause relies on

    Reference semantics of the engine's string literals and of
    [LIKE ... ESCAPE], as the SQL standard defines them. *)

Module SqlLike.
Import JsString Escape.


Inductive item : Type :=
| Lit (a : ascii)
| AnyOne
| AnySeq.

(** The items of a pattern under the escape character [esc]; an escape
    character at the end of the pattern is an error. *)
Fixpoint patternItems (esc : ascii) (pat : string) : option (list item) :=
  match pat with
  | EmptyString => Some []
  | String a rest =>
      if Ascii.eqb a esc then
        match rest with
        | String b rest' => option_map (cons (Lit b)) (patternItems esc rest')
        | EmptyString => None
        end
      else if Ascii.eqb a "%" then option_map (cons AnySeq) (patternItems esc rest)
      else if Ascii.eqb a "_" then option_map (cons AnyOne) (patternItems esc rest)
      else option_map (cons (Lit a)) (patternItems esc rest)
  end.

(** Some suffix of [s] satisfies [p]. *)
Fixpoint someSuffix (p : string -> bool) (s : string) : bool :=
  p s || match s with
         | EmptyString => false
         | String _ s' => someSuffix p s'
         end.

Fixpoint matchItems (items : list item) (s : string) : bool :=
  match items with
  | [] => String.eqb s ""
  | Lit a :: items' =>
      match s with
      | String b s' => Ascii.eqb a b && matchItems items' s'
      | EmptyString => false
      end
  | AnyOne :: items' =>
      match s with
      | String _ s' => matchItems items' s'
      | EmptyString => false
      end
  | AnySeq :: items' => someSuffix (matchItems items') s
  end.

(** [s LIKE pat ESCAPE esc]; [None] when the pattern is malformed. *)
Definition like (esc : ascii) (pat s : string) : option bool :=
  option_map (fun items => matchItems items s) (patternItems esc pat).


End SqlLike.

(** ** Error classification ([isCorsError], [isNetworkError],
       [isInvalidParquet], [handleError]) *)

Module Errors.
Import JsString.

(** [fileUrl?.startsWith('http')] *)
Definition urlIsHttp (fileUrl : option string) : bool :=
  match fileUrl with
  | Some u => startsWith "http" u
  | None => false
  end.

Definition isCorsError (fileUrl : option string) (error : exn) : bool :=
  let msg := toLowerCase (message error) in
  includes "cors" msg
  || includes "cross-origin" msg
  || includes "network error" msg
  || (includes "failed to fetch" msg && urlIsHttp fileUrl).

Definition isNetworkError (error : exn) : bool :=
  let msg := toLowerCase (message error) in
  includes "failed to fetch" msg
  || includes "networkerror" msg
  || includes "network request failed" msg
  || includes "net::" msg.

Definition isInvalidParquet (error : exn) : bool :=
  let msg := toLowerCase (message error) in
  includes "parquet" msg
  || includes "invalid" msg
  || includes "not a valid" msg
  || includes "magic number" msg
  || includes "corrupted" msg.

(** The four branches of [handleError], each with its static
    suggestion. *)
Inductive ErrorKind : Type :=
| CorsKind
| NetworkKind
| InvalidParquetKind
| UnexpectedKind.

(** What [showError] puts into the status element: the title, the
    details and the suggestion of the branch taken. *)
Record ErrorDisplay : Type := {
  kind : ErrorKind;
  title : string;
  details : string
}.

Definition handleError (fileUrl : option string) (error : exn) : ErrorDisplay :=
  if isCorsError fileUrl error then
    {| kind := CorsKind; title := "CORS Error - Cannot access this file";
       details := message error |}
  else if isNetworkError error then
    {| kind := NetworkKind; title := "Network Error"; details := message error |}
  else if isInvalidParquet error then
    {| kind := InvalidParquetKind; title := "Invalid Parquet File";
       details := message error |}
  else
    {| kind := UnexpectedKind; title := "Error"; details := message error |}.

(** [TIMEOUT_MS] *)
Definition TIMEOUT_MS : Z := 30000.

(** The error [timeoutPromise] rejects with. *)
Definition timeoutError : exn :=
  Exn "Request timed out - the server took too long to respond".

(** [Promise.race([loadParquet(fileUrl, true), timeoutPromise])]: the
    load's own outcome when it settles within [TIMEOUT_MS], the
    rejection of [timeoutPromise] when it is still pending then
    ([None]). *)
Definition raceWithTimeout {A : Type} (settled : option (result A)) : result A :=
  match settled with
  | Some r => r
  | None => Throw timeoutError
  end.

(** The [try]/[catch] around the race in the main script: the error
    display it leaves, if any. *)
Definition loadFromUrl {A : Type} (fileUrl : string) (settled : option (result A))
  : option ErrorDisplay :=
  match raceWithTimeout settled with
  | Ok _ => None
  | Throw e => Some (handleError (Some fileUrl) e)
  end.

End Errors.

(** ** The viewer session (the state and the handlers of the viewer
       script) *)

Module Viewer.
Import JsString JsNumber Filter Query Errors.

(** *** Property writes on the [filters] object

    [Object.entries] lists the array-index keys first, in increasing
    order, then the other keys in the order they were created. *)

(** The array index a key denotes: a canonical decimal numeral below
    [2^32 - 1]. *)
Definition arrayIndex (k : string) : option Z :=
  match k with
  | EmptyString => None
  | String a rest =>
      if allChars isDigit k && (negb (Ascii.eqb a "0") || String.eqb rest "")
      then
        let v := digitsValue 0 k in
        if v <? 2 ^ 32 - 1 then Some v else None
      else None
  end.

Fixpoint insertIndexKey {V : Type} (i : Z) (k : string) (v : V)
    (l : list (string * V)) : list (string * V) :=
  match l with
  | [] => [(k, v)]
  | (k', v') :: l' =>
      match arrayIndex k' with
      | Some j => if i <? j then (k, v) :: l else (k', v') :: insertIndexKey i k v l'
      | None => (k, v) :: l
      end
  end.

(** [obj[k]] *)
Fixpoint jsGet {V : Type} (k : string) (l : list (string * V)) : option V :=
  match l with
  | [] => None
  | (k', v') :: l' => if String.eqb k' k then Some v' else jsGet k l'
  end.

Fixpoint replaceKey {V : Type} (k : string) (v : V) (l : list (string * V))
  : list (string * V) :=
  match l with
  | [] => []
  | (k', v') :: l' =>
      if String.eqb k' k then (k', v) :: l' else (k', v') :: replaceKey k v l'
  end.

(** [obj[k] = v] *)
Definition jsSet {V : Type} (k : string) (v : V) (l : list (string * V))
  : list (string * V) :=
  match jsGet k l with
  | Some _ => replaceKey k v l
  | None =>
      match arrayIndex k with
      | Some i => insertIndexKey i k v l
      | None => l ++ [(k, v)]
      end
  end.

(** *** State *)

(** [moreBtn.textContent] *)
Inductive MoreLabel : Type :=
| LoadNext (chunk remaining : Z)   (* `Load next ${CHUNK} (${remaining} remaining)` *)
| LoadingLabel                     (* 'Loading...' *)
| AllRowsLoaded                    (* 'All rows loaded' *)
| NoLabel.

(** The content of the status element. *)
Inductive Status : Type :=
| StatusIdle
| StatusLoading
| StatusNoColumns
| StatusEmptyFile
| StatusSummary (filtered : option Z)   (* rows x cols, with the filtered count *)
| StatusError (d : ErrorDisplay).

(** A row or count statement handed to [conn.query] by [loadParquet],
    [reloadData], [loadMore] or [loadAll]. *)
Inductive Issued : Type :=
| IssuedRows (sql : string) (limit off : Z)
| IssuedCount (sql : string).

(** The module-level variables of the viewer script, the parts of the
    page they drive, and the row and count statements issued so far
    (the probes of [getSchema] and [getColumnMeta] are not recorded).
    Counts and offsets are integers below [2^53]. *)
Record Session (Row : Type) : Type := {
  currentSource : string;
  columns : list Column;
  totalRows : Z;
  columnMeta : gmap string ColMeta;
  offset : Z;
  sortColumn : option string;
  sortDirection : option Direction;
  filters : list (string * FilterValue);
  tableRows : list Row;          (* the rows of [tbody] *)
  moreLabel : MoreLabel;
  moreDisabled : bool;           (* [moreBtn.disabled] *)
  loadAllDisabled : bool;        (* [loadAllBtn.disabled] *)
  status : Status;
  issued : list Issued           (* oldest first *)
}.
Arguments currentSource {Row} _.
Arguments columns {Row} _.
Arguments totalRows {Row} _.
Arguments columnMeta {Row} _.
Arguments offset {Row} _.
Arguments sortColumn {Row} _.
Arguments sortDirection {Row} _.
Arguments filters {Row} _.
Arguments tableRows {Row} _.
Arguments moreLabel {Row} _.
Arguments moreDisabled {Row} _.
Arguments loadAllDisabled {Row} _.
Arguments status {Row} _.
Arguments issued {Row} _.

Section Updates.
Context {Row : Type}.
Implicit Type s : Session Row.

Definition setOffset (v : Z) s : Session Row :=
  {| currentSource := currentSource s; columns := columns s; totalRows := totalRows s;
     columnMeta := columnMeta s; offset := v; sortColumn := sortColumn s;
     sortDirection := sortDirection s; filters := filters s; tableRows := tableRows s;
     moreLabel := moreLabel s; moreDisabled := moreDisabled s;
     loadAllDisabled := loadAllDisabled s; status := status s; issued := issued s |}.

Definition setSort (c : option string) (d : option Direction) s : Session Row :=
  {| currentSource := currentSource s; columns := columns s; totalRows := totalRows s;
     columnMeta := columnMeta s; offset := offset s; sortColumn := c;
     sortDirection := d; filters := filters s; tableRows := tableRows s;
     moreLabel := moreLabel s; moreDisabled := moreDisabled s;
     loadAllDisabled := loadAllDisabled s; status := status s; issued := issued s |}.

Definition setFilters (f : list (string * FilterValue)) s : Session Row :=
  {| currentSource := currentSource s; columns := columns s; totalRows := totalRows s;
     columnMeta := columnMeta s; offset := offset s; sortColumn := sortColumn s;
     sortDirection := sortDirection s; filters := f; tableRows := tableRows s;
     moreLabel := moreLabel s; moreDisabled := moreDisabled s;
     loadAllDisabled := loadAllDisabled s; status := status s; issued := issued s |}.

Definition setTable (rows : list Row) s : Session Row :=
  {| currentSource := currentSource s; columns := columns s; totalRows := totalRows s;
     columnMeta := columnMeta s; offset := offset s; sortColumn := sortColumn s;
     sortDirection := sortDirection s; filters := filters s; tableRows := rows;
     moreLabel := moreLabel s; moreDisabled := moreDisabled s;
     loadAllDisabled := loadAllDisabled s; status := status s; issued := issued s |}.

Definition setMore (l : MoreLabel) (disabled : bool) s : Session Row :=
  {| currentSource := currentSource s; columns := columns s; totalRows := totalRows s;
     columnMeta := columnMeta s; offset := offset s; sortColumn := sortColumn s;
     sortDirection := sortDirection s; filters := filters s; tableRows := tableRows s;
     moreLabel := l; moreDisabled := disabled;
     loadAllDisabled := loadAllDisabled s; status := status s; issued := issued s |}.

Definition setLoadAllDisabled (disabled : bool) s : Session Row :=
  {| currentSource := currentSource s; columns := columns s; totalRows := totalRows s;
     columnMeta := columnMeta s; offset := offset s; sortColumn := sortColumn s;
     sortDirection := sortDirection s; filters := filters s; tableRows := tableRows s;
     moreLabel := moreLabel s; moreDisabled := moreDisabled s;
     loadAllDisabled := disabled; status := status s; issued := issued s |}.

Definition setStatus (st : Status) s : Session Row :=
  {| currentSource := currentSource s; columns := columns s; totalRows := totalRows s;
     columnMeta := columnMeta s; offset := offset s; sortColumn := sortColumn s;
     sortDirection := sortDirection s; filters := filters s; tableRows := tableRows s;
     moreLabel := moreLabel s; moreDisabled := moreDisabled s;
     loadAllDisabled := loadAllDisabled s; status := st; issued := issued s |}.

Definition logIssued (q : Issued) s : Session Row :=
  {| currentSource := currentSource s; columns := columns s; totalRows := totalRows s;
     columnMeta := columnMeta s; offset := offset s; sortColumn := sortColumn s;
     sortDirection := sortDirection s; filters := filters s; tableRows := tableRows s;
     moreLabel := moreLabel s; moreDisabled := moreDisabled s;
     loadAllDisabled := loadAllDisabled s; status := status s;
     issued := issued s ++ [q] |}.

End Updates.

(** *** Handlers *)

Inductive RangeField : Type := FieldMin | FieldMax.

(** [filters[colName][rangeType] = value] on the object
    [{ min: a, max: b }]. *)
Definition setField (f : RangeField) (value : string) (a b : string) : FilterValue :=
  match f with
  | FieldMin => MinMax value b
  | FieldMax => MinMax a value
  end.

(** [Object.values(filters).some(...)] *)
Definition hasFilters (fs : list (string * FilterValue)) : bool :=
  existsb (fun e => hasValue (snd e)) fs.

(** A continuation of a handler suspended at an [await] of a query. *)
Inductive Task (Row : Type) : Type :=
| ReloadRows (sql : string)                     (* [reloadData] at [getRows] *)
| ReloadCount (rows : list Row) (sql : string)  (* [reloadData] at [getFilteredRowCount] *)
| MoreRows (sql : string) (off : Z)             (* [loadMore] at [getRows] *)
| MoreCount (sql : string).                     (* [loadMore] at [getFilteredRowCount] *)
Arguments ReloadRows {Row} sql.
Arguments ReloadCount {Row} rows sql.
Arguments MoreRows {Row} sql off.
Arguments MoreCount {Row} sql.

(** What happens on the page: the user acts, or the engine completes
    the query of the [i]-th suspended handler. *)
Inductive Event : Type :=
| SortClick (colName : string)
| FilterInput (colName value : string)
| RangeInput (colName : string) (rangeType : RangeField) (value : string)
| MoreClick
| Complete (i : nat).

Section Handlers.
Context {Row : Type}.
Variable engine : Engine Row.
(** The page size [CHUNK] and the [BATCH] of [loadAll] (100 and 1000
    in the source, see below), and the [url] parameter of the page. *)
Variable chunk : Z.
Variable batch : Z.
Variable fileUrl : option string.
Implicit Type s : Session Row.

(** [renderRows(rows, columns, append)]: nothing is shown without
    columns. *)
Definition renderRows (rows : list Row) (append : bool) s : Session Row :=
  match columns s with
  | [] => setTable [] s
  | _ => if append then setTable (tableRows s ++ rows) s else setTable rows s
  end.

(** A [catch (e) { handleError(e) }]. *)
Definition caught (e : exn) s : Session Row :=
  setStatus (StatusError (handleError fileUrl e)) s.

(** The button update at the end of [reloadData] and [loadMore]. *)
Definition showRemaining (filteredCount : Z) s : Session Row :=
  let remaining := filteredCount - offset s in
  setMore (LoadNext chunk remaining) (remaining <=? 0) s.

(** [getRows(currentSource, columns, limit, off, sortColumn,
    sortDirection, filters, columnMeta)] up to the query it issues. *)
Definition currentRowsSql s : result string :=
  rowsSql (currentSource s) (columns s) (sortColumn s) (sortDirection s)
          (filters s) (columnMeta s).

Definition currentCountSql s : result string :=
  countSql (currentSource s) (filters s) (columnMeta s).

(** **** [reloadData] *)

Definition reloadStart s : Session Row * option (Task Row) :=
  let s := setStatus StatusLoading s in
  match currentRowsSql s with
  | Throw e => (caught e s, None)
  | Ok sql => (logIssued (IssuedRows sql chunk 0) s, Some (ReloadRows sql))
  end.

Definition reloadFinish (rows : list Row) (filtered : option Z) s : Session Row :=
  let filteredCount := default (totalRows s) filtered in
  let s := renderRows rows false s in
  let s := setStatus (StatusSummary filtered) s in
  showRemaining filteredCount s.

Definition reloadOnRows (r : result (list Row)) s : Session Row * option (Task Row) :=
  match r with
  | Throw e => (caught e s, None)
  | Ok rows =>
      let s := setOffset (Z.of_nat (length rows)) s in
      if hasFilters (filters s) then
        match currentCountSql s with
        | Throw e => (caught e s, None)
        | Ok sql => (logIssued (IssuedCount sql) s, Some (ReloadCount rows sql))
        end
      else (reloadFinish rows None s, None)
  end.

Definition reloadOnCount (rows : list Row) (r : result Z) s : Session Row :=
  match r with
  | Throw e => caught e s
  | Ok n => reloadFinish rows (Some n) s
  end.

(** **** [loadMore] *)

Definition moreStart s : Session Row * option (Task Row) :=
  let s := setMore LoadingLabel true s in
  match currentRowsSql s with
  | Throw e => (caught e s, None)
  | Ok sql => (logIssued (IssuedRows sql chunk (offset s)) s, Some (MoreRows sql (offset s)))
  end.

Definition moreOnRows (r : result (list Row)) s : Session Row * option (Task Row) :=
  match r with
  | Throw e => (caught e s, None)
  | Ok rows =>
      let s := setOffset (offset s + Z.of_nat (length rows)) s in
      let s := renderRows rows true s in
      if hasFilters (filters s) then
        match currentCountSql s with
        | Throw e => (caught e s, None)
        | Ok sql => (logIssued (IssuedCount sql) s, Some (MoreCount sql))
        end
      else (showRemaining (totalRows s) s, None)
  end.

Definition moreOnCount (r : result Z) s : Session Row :=
  match r with
  | Throw e => caught e s
  | Ok n => showRemaining n s
  end.

(** The engine answers the query a task waits for and the handler
    runs on to its next [await] or to its end. *)
Definition resume (t : Task Row) s : Session Row * option (Task Row) :=
  match t with
  | ReloadRows sql => reloadOnRows (runRows engine sql chunk 0) s
  | ReloadCount rows sql => (reloadOnCount rows (runCount engine sql) s, None)
  | MoreRows sql off => moreOnRows (runRows engine sql chunk off) s
  | MoreCount sql => (moreOnCount (runCount engine sql) s, None)
  end.

(** A handler that runs alone: each query is answered before
    anything else happens.  No handler has more than two awaits. *)
Definition settle (st : Session Row * option (Task Row)) : Session Row :=
  match st with
  | (s, None) => s
  | (s, Some t) =>
      match resume t s with
      | (s', None) => s'
      | (s', Some t') => fst (resume t' s')
      end
  end.

Definition reloadData s : Session Row := settle (reloadStart s).

Definition loadMore s : Session Row := settle (moreStart s).

(** **** [handleSort], [handleFilter], [handleRangeFilter] *)

(** [handleSort] up to its call of [reloadData]. *)
Definition sortClick (colName : string) s : Session Row :=
  let s :=
    match sortColumn s with
    | Some c =>
        if String.eqb c colName then
          setSort (sortColumn s)
                  (match sortDirection s with
                   | Some ASC => Some DESC
                   | _ => Some ASC
                   end) s
        else setSort (Some colName) (Some ASC) s
    | None => setSort (Some colName) (Some ASC) s
    end in
  setOffset 0 s.

(** [handleFilter] up to its call of [reloadData]. *)
Definition filterInput (colName value : string) s : Session Row :=
  setOffset 0 (setFilters (jsSet colName (Scalar value) (filters s)) s).

(** [handleRangeFilter] up to its call of [reloadData]: a missing or
    scalar entry is first replaced by [{ min: '', max: '' }]. *)
Definition rangeInput (colName : string) (rangeType : RangeField) (value : string) s
  : Session Row :=
  let v :=
    match jsGet colName (filters s) with
    | Some (MinMax a b) => setField rangeType value a b
    | _ => setField rangeType value "" ""
    end in
  setOffset 0 (setFilters (jsSet colName v (filters s)) s).

Definition handleSort (colName : string) s : Session Row :=
  reloadData (sortClick colName s).

Definition handleFilter (colName value : string) s : Session Row :=
  reloadData (filterInput colName value s).

Definition handleRangeFilter (colName : string) (rangeType : RangeField)
    (value : string) s : Session Row :=
  reloadData (rangeInput colName rangeType value s).

(** **** [loadAll] *)

Definition WARN_THRESHOLD : Z := 10000.

(** The [while (offset < filteredCount)] loop, with the error that
    ends it, if any; every round that goes on adds at least one row
    to [offset], so [filteredCount - offset] rounds are enough. *)
Fixpoint loadAllLoop (rounds : nat) (filteredCount : Z) s : Session Row * option exn :=
  match rounds with
  | O => (s, None)
  | S rounds' =>
      if offset s <? filteredCount then
        match currentRowsSql s with
        | Throw e => (s, Some e)
        | Ok sql =>
            let s := logIssued (IssuedRows sql batch (offset s)) s in
            match runRows engine sql batch (offset s) with
            | Throw e => (s, Some e)
            | Ok [] => (s, None)
            | Ok rows =>
                let s := setOffset (offset s + Z.of_nat (length rows)) s in
                let s := renderRows rows true s in
                loadAllLoop rounds' filteredCount s
            end
        end
      else (s, None)
  end.

(** The count at the head of [loadAll]: a fresh filtered count when a
    filter is active, the cached total otherwise. *)
Definition currentCount s : Session Row * result Z :=
  if hasFilters (filters s) then
    match currentCountSql s with
    | Throw e => (s, Throw e)
    | Ok sql => (logIssued (IssuedCount sql) s, runCount engine sql)
    end
  else (s, Ok (totalRows s)).

(** [loadAll()]; [confirmed] is the answer to the [confirm] dialog.
    A failure of the first count leaves the handler (it is outside
    the [try]). *)
Definition loadAll (confirmed : bool) s : Session Row :=
  match currentCount s with
  | (s, Throw _) => s
  | (s, Ok filteredCount) =>
      let remaining := filteredCount - offset s in
      if remaining <=? 0 then s
      else if (WARN_THRESHOLD <? remaining) && negb confirmed then s
      else
        let s := setLoadAllDisabled true s in
        let s := setMore (moreLabel s) true s in
        match loadAllLoop (Z.to_nat remaining) filteredCount s with
        | (s, Some e) => caught e s
        | (s, None) => setLoadAllDisabled true (setMore AllRowsLoaded true s)
        end
  end.

(** **** [getColumnMeta], [loadParquet] *)

Definition MAX_COLS : nat := 100.
Definition CATEGORICAL_THRESHOLD : Z := 20.

(** [/^(INTEGER|BIGINT|DOUBLE|FLOAT|DECIMAL|NUMERIC|REAL|SMALLINT|TINYINT)/i] *)
Definition isNumericType (t : string) : bool :=
  existsb (fun p => startsWithIgnoreCase p t)
          ["INTEGER"; "BIGINT"; "DOUBLE"; "FLOAT"; "DECIMAL"; "NUMERIC"; "REAL";
           "SMALLINT"; "TINYINT"].

(** [/^(DATE|TIMESTAMP|TIME)/i] *)
Definition isDateType (t : string) : bool :=
  existsb (fun p => startsWithIgnoreCase p t) ["DATE"; "TIMESTAMP"; "TIME"].

(** The classification of one column; the distinct values of a
    [select] column feed only the drop-down and are not kept. *)
Definition classify (source : string) (col : Column) : ColMeta :=
  let meta (ft : string) := {| filterType := Some ft; type := Some (ctype col) |} in
  if isNumericType (ctype col) then meta "range"
  else if negb (isDateType (ctype col)) then
    match runCount engine (distinctCountSql source (name col)) with
    | Ok distinctCount =>
        if (distinctCount <=? CATEGORICAL_THRESHOLD) && (0 <? distinctCount) then
          match runValues engine
                  (distinctValuesSql source (name col) CATEGORICAL_THRESHOLD) with
          | Ok _ => meta "select"
          | Throw _ => meta "text"
          end
        else meta "text"
    | Throw _ => meta "text"
    end
  else meta "date".

(** [meta[col.name] = ...] for each column in turn. *)
Definition getColumnMeta (source : string) (cols : list Column) : gmap string ColMeta :=
  fold_left (fun meta col => <[name col := classify source col]> meta) cols ∅.

(** [updateButtons()] *)
Definition updateButtons s : Session Row :=
  let remaining := totalRows s - offset s in
  setMore (LoadNext chunk remaining) (remaining <=? 0) s.

(** [loadParquet(source, isUrl)], with the error it throws to its
    caller, if any.  The file-size probe only adds to the status
    text and is left out. *)
Definition loadParquet (source : string) s : Session Row * option exn :=
  let s :=
    {| currentSource := source; columns := columns s; totalRows := totalRows s;
       columnMeta := columnMeta s; offset := offset s; sortColumn := None;
       sortDirection := None; filters := []; tableRows := tableRows s;
       moreLabel := moreLabel s; moreDisabled := moreDisabled s;
       loadAllDisabled := loadAllDisabled s; status := StatusLoading;
       issued := issued s |} in
  match runDescribe engine (describeSql source) with
  | Throw e => (s, Some e)
  | Ok allCols =>
      let withFile (cols : list Column) (total : Z) (meta : gmap string ColMeta) s :=
        {| currentSource := currentSource s; columns := cols; totalRows := total;
           columnMeta := meta; offset := offset s; sortColumn := sortColumn s;
           sortDirection := sortDirection s; filters := filters s;
           tableRows := tableRows s; moreLabel := moreLabel s;
           moreDisabled := moreDisabled s; loadAllDisabled := loadAllDisabled s;
           status := status s; issued := issued s |} in
      let cols := firstn MAX_COLS allCols in
      let s := withFile cols (totalRows s) (columnMeta s) s in
      match allCols with
      | [] => (setStatus StatusNoColumns s, None)
      | _ =>
          let s := logIssued (IssuedCount (rowCountSql source)) s in
          match runCount engine (rowCountSql source) with
          | Throw e => (s, Some e)
          | Ok total =>
              let s := withFile cols total (columnMeta s) s in
              if total =? 0 then
                (renderRows [] false (setStatus StatusEmptyFile s), None)
              else
                let s := withFile cols total (getColumnMeta source cols) s in
                match currentRowsSql s with
                | Throw e => (s, Some e)
                | Ok sql =>
                    let s := logIssued (IssuedRows sql chunk 0) s in
                    match runRows engine sql chunk 0 with
                    | Throw e => (s, Some e)
                    | Ok rows =>
                        let s := setOffset (Z.of_nat (length rows)) s in
                        let s := renderRows rows false s in
                        let s := setStatus (StatusSummary None) s in
                        (updateButtons s, None)
                    end
                end
          end
      end
  end.

(** **** Overlapping handlers

    Handlers run one at a time between their awaits; the state is
    the session and the handlers suspended at a query, oldest
    first.  A disabled button takes no click. *)
Definition step (st : Session Row * list (Task Row)) (ev : Event)
  : Session Row * list (Task Row) :=
  let '(s, pending) := st in
  let started (r : Session Row * option (Task Row)) :=
    (fst r, (pending ++ option_list (snd r))%list) in
  match ev with
  | SortClick c => started (reloadStart (sortClick c s))
  | FilterInput c v => started (reloadStart (filterInput c v s))
  | RangeInput c f v => started (reloadStart (rangeInput c f v s))
  | MoreClick => if moreDisabled s then st else started (moreStart s)
  | Complete i =>
      match pending !! i with
      | None => st
      | Some t =>
          let '(s', next) := resume t s in
          (s', (delete i pending ++ option_list next)%list)
      end
  end.

Definition run (evs : list Event) (st : Session Row * list (Task Row))
  : Session Row * list (Task Row) :=
  fold_left step evs st.

End Handlers.

(** The constants of the source. *)
Definition CHUNK : Z := 100.
Definition BATCH : Z := 1000.

(** The session before any file is loaded. *)
Definition initial (Row : Type) : Session Row :=
  {| currentSource := ""; columns := []; totalRows := 0; columnMeta := ∅;
     offset := 0; sortColumn := None; sortDirection := None; filters := [];
     tableRows := []; moreLabel := NoLabel; moreDisabled := false;
     loadAllDisabled := false; status := StatusIdle; issued := [] |}.

End Viewer.

(** ** HTML escaping and name truncation ([escapeHtml],
       [truncateColumnName]) *)

Module Html.
Import JsString JsNumber Escape.

(** What [escapeHtml] is given: [null] or [undefined], a string, or a
    Number. *)
Inductive HtmlArg : Type :=
| Nullish
| Text (s : string)
| Num (x : number).

(** The five [.replace] calls, in the order of the source. *)
Definition escapeText (s : string) : string :=
  replaceAll quote "&#x27;"
    (replaceAll dquote "&quot;"
       (replaceAll ">" "&gt;"
          (replaceAll "<" "&lt;"
             (replaceAll "&" "&amp;" s)))).

Definition escapeHtml (str : HtmlArg) : string :=
  match str with
  | Nullish => ""
  | Text s => escapeText s
  | Num x => escapeText (numberToString x)
  end.

(** [s.slice(0, end)] for an integer [end]: a negative [end] counts
    from the end of [s]. *)
Definition sliceFromStart (s : string) (end_ : Z) : string :=
  let len := Z.of_nat (String.length s) in
  let stop := if end_ <? 0 then Z.max (len + end_) 0 else Z.min end_ len in
  takeS (Z.to_nat stop) s.

(** [truncateColumnName(name, maxLen)] for an integer [maxLen]: the
    text kept, and whether the ellipsis U+2026, which is not a
    character of the model, follows it. *)
Definition truncateColumnName (name : string) (maxLen : Z) : string * bool :=
  if Z.of_nat (String.length name) <=? maxLen then (name, false)
  else (sliceFromStart name (maxLen - 1), true).

(** [maxLen = 30] *)
Definition defaultMaxLen : Z := 30.

(** The [.length] of the result. *)
Definition shownLength (r : string * bool) : Z :=
  Z.of_nat (String.length (fst r)) + (if snd r then 1 else 0).

End Html.

(** ** Reading SQL and HTML text back

    Reference readers for what the escaping primitives write: the body
    of a single-quoted literal and of a double-quoted identifier, up to
    the closing quote, and the five character references of
    [escapeHtml]. *)

Module Readers.
Import JsString Escape.

(** Read text delimited by [q], from just after the opening [q]: a
    doubled [q] stands for one, a single [q] closes.  The result is
    the value and what follows the closing [q]; [None] when nothing
    closes. *)
Fixpoint readDelimited (q : ascii) (s : string) : option (string * string) :=
  match s with
  | EmptyString => None
  | String a rest =>
      if Ascii.eqb a q then
        match rest with
        | String b rest' =>
            if Ascii.eqb b q
            then option_map (fun r => (String q (fst r), snd r)) (readDelimited q rest')
            else Some (EmptyString, rest)
        | EmptyString => Some (EmptyString, EmptyString)
        end
      else option_map (fun r => (String a (fst r), snd r)) (readDelimited q rest)
  end.

Definition readLiteral : string -> option (string * string) := readDelimited quote.
Definition readIdentifier : string -> option (string * string) := readDelimited dquote.

(** Replace the character references [&amp;], [&lt;], [&gt;],
    [&quot;] and [&#x27;] by their characters; [skip] characters of a
    reference just read are passed over. *)
Fixpoint unescapeFrom (skip : nat) (s : string) : string :=
  match s with
  | EmptyString => EmptyString
  | String a rest =>
      match skip with
      | S k => unescapeFrom k rest
      | O =>
          if startsWith "&amp;" s then String "&" (unescapeFrom 4 rest)
          else if startsWith "&lt;" s then String "<" (unescapeFrom 3 rest)
          else if startsWith "&gt;" s then String ">" (unescapeFrom 3 rest)
          else if startsWith "&quot;" s then String dquote (unescapeFrom 5 rest)
          else if startsWith "&#x27;" s then String quote (unescapeFrom 5 rest)
          else String a (unescapeFrom 0 rest)
      end
  end.

Definition unescapeHtml (s : string) : string := unescapeFrom 0 s.

End Readers.

(** ** The file name and the file size of the status line
       ([loadParquet], [reloadData], [getFileSize]) *)

Module FileInfo.
Import JsString JsNumber.

(** [s.split(sep)] for a one-character separator: never empty. *)
Fixpoint split (sep : ascii) (s : string) : list string :=
  match s with
  | EmptyString => [EmptyString]
  | String a s' =>
      if Ascii.eqb a sep then EmptyString :: split sep s'
      else
        match split sep s' with
        | seg :: rest => String a seg :: rest
        | [] => [String a EmptyString]
        end
  end.

(** [source.split('/').pop().split('?')[0]] *)
Definition fileName (source : string) : string :=
  hd "" (split "?" (List.last (split "/" source) "")).

(** The name in the status line of [loadParquet]. *)
Definition loadedName (isUrl : bool) (source : string) : string :=
  if isUrl then fileName source else source.

(** The name in the status line of [reloadData]. *)
Definition reloadedName (currentSource : string) : string := fileName currentSource.

(** [parseInt(s, 10)]: the integer at the head of the trimmed input,
    rounded to the nearest value; [NaN] without a digit there.  (Past
    twenty significant digits an implementation may round
    otherwise.) *)
Definition parseInt10 (s : string) : number :=
  let '(neg, u) := splitSign (trimStart s) in
  let '(ds, _) := spanDigits u in
  if String.eqb ds "" then NaN else roundRatio neg (digitsValue 0 ds) 1.

(** [x < c] for a positive integer constant [c]. *)
Definition lessThan (x : number) (c : Z) : bool :=
  match x with
  | NaN => false
  | Inf neg => neg
  | Zero _ => true
  | Fin true _ _ => true
  | Fin false m e => if 0 <=? e then m * 2 ^ e <? c else m <? c * 2 ^ (- e)
  end.

(** [x / d] for a positive integer constant [d] that is a binary64
    value: the quotient rounded to the nearest value. *)
Definition dividedBy (x : number) (d : Z) : number :=
  match x with
  | Fin neg m e =>
      if 0 <=? e then roundRatio neg (m * 2 ^ e) d else roundRatio neg m (d * 2 ^ (- e))
  | _ => x
  end.

(** The digits [m] of [toFixed(1)] with the point put in: [m] is
    first padded to two digits. *)
Definition pointBeforeLast (ds : string) : string :=
  let ds := if (String.length ds <=? 1)%nat then "0" ++ ds else ds in
  let k := String.length ds in
  takeS (k - 1) ds ++ "." ++ dropS (k - 1) ds.

(** [x.toFixed(1)]: the tenths nearest to [x], the larger of two
    equally near; from [10^21] on, and for [NaN] and the infinities,
    it is [String(x)].  ([getFileSize] applies it to quotients that
    are [NaN], infinite or at least 1.) *)
Definition toFixed1 (x : number) : string :=
  match x with
  | NaN | Inf _ => numberToString x
  | Zero _ => "0.0"
  | Fin neg m e =>
      let '(num, den) := if 0 <=? e then (m * 2 ^ e, 1) else (m, 2 ^ (- e)) in
      (if neg then "-" else "")
      ++ (if 10 ^ 21 * den <=? num then numberToString (Fin false m e)
          else
            let n := (20 * num + den) / (2 * den) in
            pointBeforeLast (digitsOf n))
  end.

(** [getFileSize(url)], given how the [HEAD] request went: it failed,
    or it gave a response whose [content-length] header is absent
    ([None]) or has a value. *)
Definition getFileSize (response : result (option string)) : option string :=
  match response with
  | Ok (Some size) =>
      if truthy size then
        let bytes := parseInt10 size in
        if lessThan bytes 1024 then Some (numberToString bytes ++ " B")
        else if lessThan bytes (1024 * 1024) then
          Some (toFixed1 (dividedBy bytes 1024) ++ " KB")
        else Some (toFixed1 (dividedBy bytes (1024 * 1024)) ++ " MB")
      else None
  | Ok None => None
  | Throw _ => None
  end.

End FileInfo.

(** * Properties *)

(** ** Strings *)

Module StringFacts.
Import JsString.

Lemma append_nil_r (s : string) : s ++ "" = s.
Proof. induction s as [|a s IH]; simpl; [reflexivity | now rewrite IH]. Qed.

Lemma append_assoc (a b c : string) : (a ++ b) ++ c = a ++ (b ++ c).
Proof. induction a as [|x a IH]; simpl; [reflexivity | now rewrite IH]. Qed.

Lemma append_inv_head (p a b : string) : p ++ a = p ++ b -> a = b.
Proof.
  induction p as [|x p IH]; simpl; intros H; [exact H |].
  injection H as H. auto.
Qed.

Lemma replaceAll_app (c : ascii) (r a b : string) :
  replaceAll c r (a ++ b) = replaceAll c r a ++ replaceAll c r b.
Proof.
  induction a as [|x a IH]; simpl; [reflexivity |].
  destruct (Ascii.eqb x c); rewrite IH; simpl;
    [now rewrite append_assoc | reflexivity].
Qed.

Lemma allChars_app (p : ascii -> bool) (a b : string) :
  allChars p (a ++ b) = allChars p a && allChars p b.
Proof.
  induction a as [|x a IH]; simpl; [reflexivity |].
  rewrite IH. now rewrite andb_assoc.
Qed.

Lemma allChars_weaken (p q : ascii -> bool) (s : string) :
  (forall a, p a = true -> q a = true) ->
  allChars p s = true -> allChars q s = true.
Proof.
  intros Hpq. induction s as [|x s IH]; simpl; [reflexivity |].
  intros H. apply andb_true_iff in H as [Hx Hs].
  rewrite (Hpq _ Hx), (IH Hs). reflexivity.
Qed.

Lemma allChars_repeat (p : ascii -> bool) (a : ascii) (n : nat) :
  p a = true -> allChars p (repeatChar a n) = true.
Proof. intros Ha. induction n as [|n IH]; simpl; [reflexivity | now rewrite Ha]. Qed.

Lemma allChars_take (p : ascii -> bool) (n : nat) (s : string) :
  allChars p s = true -> allChars p (takeS n s) = true.
Proof.
  revert s. induction n as [|n IH]; intros [|x s]; simpl; try reflexivity.
  intros H. apply andb_true_iff in H as [Hx Hs]. now rewrite Hx, (IH _ Hs).
Qed.

Lemma allChars_drop (p : ascii -> bool) (n : nat) (s : string) :
  allChars p s = true -> allChars p (dropS n s) = true.
Proof.
  revert s. induction n as [|n IH]; intros [|x s]; simpl; try tauto.
  intros H. apply andb_true_iff in H as [_ Hs]. auto.
Qed.

Lemma truthy_true (s : string) : truthy s = true <-> s <> "".
Proof.
  unfold truthy. destruct (String.eqb_spec s ""); simpl; split; congruence.
Qed.

Lemma truthy_app_l (a b : string) : truthy a = true -> truthy (a ++ b) = true.
Proof. destruct a; simpl; [discriminate | reflexivity]. Qed.

Lemma trim_empty : trim "" = "".
Proof. reflexivity. Qed.

Lemma trim_nonempty (s : string) : trim s <> "" -> s <> "".
Proof. intros H ->. now apply H. Qed.

(** [someSuffix]-style reading of [includes]. *)
Lemma includes_nil (s : string) : includes "" s = true.
Proof. destruct s; reflexivity. Qed.

End StringFacts.

(** ** The filter-clause builder *)

Module FilterFacts.
Import JsString JsNumber Escape Filter StringFacts.

Lemma mapThrow_app {A B : Type} (f : A -> result B) (l1 l2 : list A) :
  mapThrow f (l1 ++ l2)%list =
  (let* a := mapThrow f l1 in
   let* b := mapThrow f l2 in
   Ok (a ++ b)%list).
Proof.
  induction l1 as [|x l1 IH]; simpl.
  - destruct (mapThrow f l2); reflexivity.
  - destruct (f x); simpl; [| reflexivity].
    rewrite IH. destruct (mapThrow f l1); simpl; [| reflexivity].
    destruct (mapThrow f l2); reflexivity.
Qed.

(** The clauses of a filter map are those of its parts, in order. *)
Lemma buildFilterClauses_app (fm1 fm2 : list (string * FilterValue))
    (cm : gmap string ColMeta) :
  buildFilterClauses (fm1 ++ fm2)%list cm =
  (let* a := buildFilterClauses fm1 cm in
   let* b := buildFilterClauses fm2 cm in
   Ok (a ++ b)%list).
Proof.
  unfold buildFilterClauses. rewrite List.filter_app, mapThrow_app.
  destruct (mapThrow _ (List.filter _ fm1)); simpl; [| reflexivity].
  destruct (mapThrow _ (List.filter _ fm2)); simpl; [| reflexivity].
  now rewrite omap_app.
Qed.

Lemma buildFilterClauses_one (col : string) (val : FilterValue)
    (cm : gmap string ColMeta) :
  buildFilterClauses [(col, val)] cm =
  if hasValue val
  then let* c := clauseOf cm (col, val) in Ok (option_list (keepClause c))
  else Ok [].
Proof.
  unfold buildFilterClauses. cbn [List.filter snd].
  destruct (hasValue val); [| reflexivity].
  cbn [mapThrow]. destruct (clauseOf cm (col, val)) as [c|e]; [| reflexivity].
  simpl. destruct (keepClause c); reflexivity.
Qed.

(** An entry without a value adds nothing, whatever surrounds it. *)
Lemma buildFilterClauses_skip (before after : list (string * FilterValue))
    (col : string) (val : FilterValue) (cm : gmap string ColMeta) :
  hasValue val = false ->
  buildFilterClauses (before ++ (col, val) :: after)%list cm =
  buildFilterClauses (before ++ after)%list cm.
Proof.
  intros H. unfold buildFilterClauses.
  rewrite !List.filter_app. cbn [List.filter snd]. now rewrite H.
Qed.

(** An entry with a clause adds exactly that clause, in its place. *)
Lemma buildFilterClauses_entry (before after : list (string * FilterValue))
    (col : string) (val : FilterValue) (cm : gmap string ColMeta) (c : string) :
  hasValue val = true ->
  clauseOf cm (col, val) = Ok (Some c) ->
  c <> "" ->
  buildFilterClauses (before ++ (col, val) :: after)%list cm =
  (let* a := buildFilterClauses before cm in
   let* b := buildFilterClauses after cm in
   Ok (a ++ [c] ++ b)%list).
Proof.
  intros Hv Hc Hne.
  change ((col, val) :: after) with ([(col, val)] ++ after)%list.
  rewrite !buildFilterClauses_app, buildFilterClauses_one, Hv, Hc.
  destruct (buildFilterClauses before cm); [| reflexivity].
  cbn [bind keepClause]. apply truthy_true in Hne. rewrite Hne.
  cbn [option_list bind]. destruct (buildFilterClauses after cm); reflexivity.
Qed.

(** An entry whose clause is [null] adds nothing. *)
Lemma buildFilterClauses_null (before after : list (string * FilterValue))
    (col : string) (val : FilterValue) (cm : gmap string ColMeta) :
  clauseOf cm (col, val) = Ok None ->
  buildFilterClauses (before ++ (col, val) :: after)%list cm =
  buildFilterClauses (before ++ after)%list cm.
Proof.
  intros Hc.
  change ((col, val) :: after) with ([(col, val)] ++ after)%list.
  rewrite !buildFilterClauses_app, buildFilterClauses_one, Hc.
  destruct (buildFilterClauses before cm); [| reflexivity].
  destruct (hasValue val); cbn [bind keepClause option_list];
    destruct (buildFilterClauses after cm); reflexivity.
Qed.

(** The metadata [buildFilterClauses] reads for a column. *)
Definition metaOf (cm : gmap string ColMeta) (col : string) : ColMeta :=
  default noMeta (cm !! col).



Lemma clauseOf_range (cm : gmap string ColMeta) (col : string) (val : FilterValue) :
  filterType (metaOf cm col) = Some "range" ->
  clauseOf cm (col, val) = Ok (wrapParts (rangeParts col val)).
Proof.
  intros H. unfold clauseOf, filterTypeIs. fold (metaOf cm col). now rewrite H.
Qed.

Lemma clauseOf_date (cm : gmap string ColMeta) (col : string) (val : FilterValue) :
  filterType (metaOf cm col) = Some "date" ->
  clauseOf cm (col, val) = Ok (wrapParts (dateParts (metaOf cm col) col val)).
Proof.
  intros H. unfold clauseOf, filterTypeIs. fold (metaOf cm col). now rewrite H.
Qed.

Lemma wrapParts_nonempty (parts : list string) (c : string) :
  wrapParts parts = Some c -> c <> "".
Proof. destruct parts; simpl; intros [= <-]; discriminate. Qed.

End FilterFacts.

(** ** What the text pattern matches *)

Module LikeFacts.
Import JsString Escape SqlLike StringFacts.

(** The effect of [escapeLikePattern] on one character. *)
Definition escapeLikeChar (a : ascii) : string :=
  if Ascii.eqb a backslash then "\\"
  else if Ascii.eqb a "%" then "\%"
  else if Ascii.eqb a "_" then "\_"
  else String a "".

Lemma escapeLikePattern_app (a b : string) :
  escapeLikePattern (a ++ b) = escapeLikePattern a ++ escapeLikePattern b.
Proof. unfold escapeLikePattern. now rewrite !replaceAll_app. Qed.

Lemma escapeLikePattern_cons (a : ascii) (s : string) :
  escapeLikePattern (String a s) = escapeLikeChar a ++ escapeLikePattern s.
Proof.
  change (String a s) with (String a "" ++ s).
  rewrite escapeLikePattern_app. f_equal.
  unfold escapeLikePattern, escapeLikeChar, backslash. simpl.
  destruct (Ascii.eqb_spec a "\"); [subst; reflexivity |].
  simpl. destruct (Ascii.eqb_spec a "%"); [subst; reflexivity |].
  simpl. destruct (Ascii.eqb_spec a "_"); [subst; reflexivity |].
  reflexivity.
Qed.

Fixpoint literals (s : string) : list item :=
  match s with
  | EmptyString => []
  | String a s' => Lit a :: literals s'
  end.

(** An escaped value is read back as the literal characters of the
    value. *)
Lemma patternItems_escaped (v rest : string) :
  patternItems backslash (escapeLikePattern v ++ rest) =
  option_map (fun items => (literals v ++ items)%list) (patternItems backslash rest).
Proof.
  induction v as [|a v IH].
  - simpl. destruct (patternItems backslash rest); reflexivity.
  - rewrite escapeLikePattern_cons, append_assoc. unfold escapeLikeChar, backslash in *.
    destruct (Ascii.eqb_spec a "\") as [->|Hb].
    { simpl. rewrite IH. destruct (patternItems _ rest); reflexivity. }
    destruct (Ascii.eqb_spec a "%") as [->|Hp].
    { simpl. rewrite IH. destruct (patternItems _ rest); reflexivity. }
    destruct (Ascii.eqb_spec a "_") as [->|Hu].
    { simpl. rewrite IH. destruct (patternItems _ rest); reflexivity. }
    cbn [String.append patternItems].
    apply Ascii.eqb_neq in Hb, Hp, Hu. rewrite Hb, Hp, Hu, IH.
    destruct (patternItems _ rest); reflexivity.
Qed.






(** Lower-casing leaves the pattern metacharacters alone. *)
Lemma toLowerCase_app (a b : string) :
  toLowerCase (a ++ b) = toLowerCase a ++ toLowerCase b.
Proof. induction a as [|x a IH]; simpl; [reflexivity | now rewrite IH]. Qed.






End LikeFacts.

(** ** Numbers in clauses *)

Module NumberFacts.
Import JsString JsNumber StringFacts.

(** The characters a rendered Number is made of. *)
Definition isNumberChar (a : ascii) : bool :=
  isDigit a || includes (String a "") ".e+-Infinity".

Lemma isDigit_isNumberChar (a : ascii) : isDigit a = true -> isNumberChar a = true.
Proof. unfold isNumberChar. now intros ->. Qed.

Lemma string_of_uint_digits (d : Decimal.uint) :
  allChars isDigit (NilEmpty.string_of_uint d) = true.
Proof. induction d; simpl; auto. Qed.

Lemma digitsOf_digits (z : Z) : allChars isDigit (digitsOf z) = true.
Proof.
  unfold digitsOf, NilZero.string_of_uint.
  destruct (N.to_uint (Z.to_N z)) eqn:E; try reflexivity;
    rewrite <- E; apply string_of_uint_digits.
Qed.

Lemma digitsOf_chars (z : Z) : allChars isNumberChar (digitsOf z) = true.
Proof.
  apply allChars_weaken with (p := isDigit);
    [exact isDigit_isNumberChar | apply digitsOf_digits].
Qed.

Lemma formatDigits_chars (s n : Z) : allChars isNumberChar (formatDigits s n) = true.
Proof.
  pose proof (digitsOf_chars s) as Hs.
  unfold formatDigits.
  repeat match goal with
         | |- context [if ?b then _ else _] => destruct b
         end;
    rewrite ?allChars_app, ?andb_true_iff; repeat split;
    try apply digitsOf_chars;
    try (apply allChars_repeat; reflexivity);
    try (apply allChars_take; exact Hs);
    try (apply allChars_drop; exact Hs);
    reflexivity.
Qed.

(** A Number that is not [NaN] renders over digits, [.], [e], the
    signs and the letters of [Infinity]. *)
Lemma numberToString_chars (x : number) :
  isNaN x = false -> allChars isNumberChar (numberToString x) = true.
Proof.
  destruct x as [| neg | neg | neg m e]; simpl; intros H; try discriminate.
  - destruct neg; reflexivity.
  - reflexivity.
  - destruct (shortest m e) as [s n].
    rewrite allChars_app, formatDigits_chars. destruct neg; reflexivity.
Qed.

Lemma parseFloat_empty : parseFloat "" = NaN.
Proof. reflexivity. Qed.

Lemma parseFloatOf_undefined : parseFloatOf None = NaN.
Proof. reflexivity. Qed.

End NumberFacts.

(** ** Claims on [buildFilterClauses] *)

Module FilterClaims.
Import JsString JsNumber Escape Filter SqlLike.
Import StringFacts FilterFacts LikeFacts NumberFacts.


Definition textMeta : ColMeta := {| filterType := Some "text"; type := None |}.



(** C3: an entry whose value is the empty string, or whose [min] and
    [max] are both empty, adds no clause: the clauses are those of the
    filter map without the entry, whatever the classification of its
    column. *)
Theorem empty_filter_value_excluded
    (before after : list (string * FilterValue)) (cm : gmap string ColMeta)
    (col : string) :
  buildFilterClauses (before ++ (col, Scalar "") :: after)%list cm
  = buildFilterClauses (before ++ after)%list cm
  /\ buildFilterClauses (before ++ (col, MinMax "" "") :: after)%list cm
     = buildFilterClauses (before ++ after)%list cm
  /\ buildFilterClauses [(col, Scalar "")] cm = Ok []
  /\ buildFilterClauses [(col, MinMax "" "")] cm = Ok [].
Proof.
  repeat split; try (apply buildFilterClauses_skip; reflexivity); reflexivity.
Qed.

(** The comparison a [date] filter emits for its upper bound. *)
Definition strictUpper (col max : string) : string :=
  escapeColumnName col ++ " < '" ++ max ++ "'::DATE + INTERVAL '1 day'".
Definition inclusiveUpper (col max : string) : string :=
  escapeColumnName col ++ " <= '" ++ max ++ "'".
Definition dateLower (col min : string) : list string :=
  if isDateBound (Some min) then [escapeColumnName col ++ " >= '" ++ min ++ "'"] else [].

Lemma isDateString_nonempty (s : string) : isDateString s = true -> truthy s = true.
Proof. destruct s; [discriminate | reflexivity]. Qed.

Lemma dateParts_upper (meta : ColMeta) (col min max : string) :
  isDateString max = true ->
  dateParts meta col (MinMax min max) =
  (dateLower col min
   ++ [if isTimestamp meta then strictUpper col max else inclusiveUpper col max])%list.
Proof.
  intros Hmax. unfold dateParts, dateLower. cbn [minOf maxOf default].
  f_equal. unfold isDateBound. rewrite (isDateString_nonempty _ Hmax), Hmax.
  cbn [andb]. destruct (isTimestamp meta); reflexivity.
Qed.

Lemma wrapParts_snoc (parts : list string) (p : string) :
  wrapParts (parts ++ [p])%list = Some ("(" ++ join " AND " (parts ++ [p])%list ++ ")").
Proof. destruct parts; reflexivity. Qed.

Lemma inclusive_not_emitted (col min max : string) :
  ~ In (inclusiveUpper col max) (dateLower col min ++ [strictUpper col max])%list.
Proof.
  intros H. apply in_app_or in H as [H | [H | []]].
  - unfold dateLower in H. destruct (isDateBound (Some min)); [| exact H].
    destruct H as [H | []]. apply append_inv_head in H. discriminate.
  - apply append_inv_head in H. discriminate.
Qed.

(** C2: for a [date] column and a [max] that is a [YYYY-MM-DD] string,
    the entry adds one clause whose last comparison is
    [col < 'max'::DATE + INTERVAL '1 day'] when the type tag starts with
    TIMESTAMP, and then [col <= 'max'] is not among its comparisons;
    otherwise the last comparison is [col <= 'max']. *)
Theorem date_upper_bound
    (before after : list (string * FilterValue)) (cm : gmap string ColMeta)
    (col min max : string) :
  filterType (metaOf cm col) = Some "date" ->
  isDateString max = true ->
  (isTimestamp (metaOf cm col) = true ->
     buildFilterClauses (before ++ (col, MinMax min max) :: after)%list cm =
       (let* a := buildFilterClauses before cm in
        let* b := buildFilterClauses after cm in
        Ok (a ++ [("(" ++ join " AND " (dateLower col min ++ [strictUpper col max])%list
                   ++ ")")%string]
              ++ b)%list)
     /\ ~ In (inclusiveUpper col max) (dateParts (metaOf cm col) col (MinMax min max)))
  /\ (isTimestamp (metaOf cm col) = false ->
     buildFilterClauses (before ++ (col, MinMax min max) :: after)%list cm =
       (let* a := buildFilterClauses before cm in
        let* b := buildFilterClauses after cm in
        Ok (a ++ [("(" ++ join " AND " (dateLower col min ++ [inclusiveUpper col max])%list
                   ++ ")")%string]
              ++ b)%list)).
Proof.
  intros Hdate Hmax.
  assert (Hv : hasValue (MinMax min max) = true).
  { simpl. apply isDateString_nonempty in Hmax. unfold truthy in Hmax.
    rewrite Hmax. apply orb_true_r. }
  pose proof (dateParts_upper (metaOf cm col) col min max Hmax) as Hparts.
  split; intros Hts; rewrite Hts in Hparts.
  - split.
    + apply buildFilterClauses_entry; [exact Hv | | discriminate].
      rewrite (clauseOf_date _ _ _ Hdate), Hparts. now rewrite wrapParts_snoc.
    + rewrite Hparts. apply inclusive_not_emitted.
  - apply buildFilterClauses_entry; [exact Hv | | discriminate].
    rewrite (clauseOf_date _ _ _ Hdate), Hparts. now rewrite wrapParts_snoc.
Qed.

Definition timestampMeta : ColMeta :=
  {| filterType := Some "date"; type := Some "TIMESTAMP" |}.

Lemma date_upper_bound_witness :
  filterType (metaOf {[ "created" := timestampMeta ]} "created") = Some "date"
  /\ isDateString "2024-01-31" = true
  /\ isTimestamp (metaOf {[ "created" := timestampMeta ]} "created") = true
  /\ buildFilterClauses [("created", MinMax "2024-01-01" "2024-01-31")]
                        {[ "created" := timestampMeta ]}
     = Ok ["(" ++ escapeColumnName "created" ++ " >= '2024-01-01' AND "
           ++ escapeColumnName "created" ++ " < '2024-01-31'::DATE + INTERVAL '1 day')"]
  /\ ~ In (inclusiveUpper "created" "2024-01-31")
          (dateParts (metaOf {[ "created" := timestampMeta ]} "created") "created"
                     (MinMax "2024-01-01" "2024-01-31")).
Proof.
  assert (Hd : filterType (metaOf {[ "created" := timestampMeta ]} "created") = Some "date")
    by reflexivity.
  assert (Hm : isDateString "2024-01-31" = true) by reflexivity.
  assert (Ht : isTimestamp (metaOf {[ "created" := timestampMeta ]} "created") = true)
    by reflexivity.
  split; [exact Hd |]. split; [exact Hm |]. split; [exact Ht |].
  exact (proj1 (date_upper_bound [] [] {[ "created" := timestampMeta ]}
                  "created" "2024-01-01" "2024-01-31" Hd Hm) Ht).
Defined.

(** The two comparisons of a [range] filter, for parsed bounds. *)
Definition lowerComparison (col : string) (n : number) : string :=
  escapeColumnName col ++ " >= " ++ numberToString n.
Definition upperComparison (col : string) (n : number) : string :=
  escapeColumnName col ++ " <= " ++ numberToString n.

(** The clause of a [range] filter, by which bounds parsed. *)
Definition rangeClause (col : string) (lower upper : number) : option string :=
  match isNaN lower, isNaN upper with
  | false, false =>
      Some ("(" ++ lowerComparison col lower ++ " AND " ++ upperComparison col upper ++ ")")
  | false, true => Some ("(" ++ lowerComparison col lower ++ ")")
  | true, false => Some ("(" ++ upperComparison col upper ++ ")")
  | true, true => None
  end.

Lemma wrap_two (p q : string) :
  wrapParts [p; q] = Some ("(" ++ p ++ " AND " ++ q ++ ")").
Proof. cbn [wrapParts join]. now rewrite !append_assoc. Qed.

Lemma wrap_rangeParts (col : string) (val : FilterValue) :
  wrapParts (rangeParts col val)
  = rangeClause col (parseFloatOf (minOf val)) (parseFloatOf (maxOf val)).
Proof.
  unfold rangeParts, rangeClause.
  fold (lowerComparison col (parseFloatOf (minOf val))).
  fold (upperComparison col (parseFloatOf (maxOf val))).
  destruct (isNaN (parseFloatOf (minOf val))), (isNaN (parseFloatOf (maxOf val)));
    cbn [negb List.app]; [reflexivity | reflexivity | reflexivity | apply wrap_two].
Qed.

Lemma rangeClause_nonempty (col : string) (lower upper : number) (c : string) :
  rangeClause col lower upper = Some c -> c <> "".
Proof.
  unfold rangeClause. destruct (isNaN lower), (isNaN upper); intros [= <-]; discriminate.
Qed.

Lemma range_without_value (col : string) (val : FilterValue) :
  hasValue val = false ->
  rangeClause col (parseFloatOf (minOf val)) (parseFloatOf (maxOf val)) = None.
Proof.
  destruct val as [s | a b]; [reflexivity |].
  simpl. intros H. apply orb_false_iff in H as [Ha Hb].
  apply negb_false_iff in Ha, Hb.
  apply String.eqb_eq in Ha, Hb. subst. reflexivity.
Qed.

Lemma range_entry (before after : list (string * FilterValue))
    (cm : gmap string ColMeta) (col : string) (val : FilterValue) :
  filterType (metaOf cm col) = Some "range" ->
  buildFilterClauses (before ++ (col, val) :: after)%list cm =
    (let* a := buildFilterClauses before cm in
     let* b := buildFilterClauses after cm in
     Ok (a ++ option_list (rangeClause col (parseFloatOf (minOf val))
                                       (parseFloatOf (maxOf val)))
           ++ b)%list).
Proof.
  intros Hr.
  pose proof (clauseOf_range cm col val Hr) as Hc. rewrite wrap_rangeParts in Hc.
  destruct (rangeClause col _ _) as [c|] eqn:E.
  - destruct (hasValue val) eqn:Hv.
    + apply buildFilterClauses_entry; [exact Hv | exact Hc |].
      now apply rangeClause_nonempty in E.
    + now rewrite range_without_value in E.
  - rewrite (buildFilterClauses_null _ _ _ _ _ Hc), buildFilterClauses_app.
    reflexivity.
Qed.

(** C4: for a [range] column the builder does not fail; the entry adds
    [col >= min] and [col <= max] for the bounds [parseFloat] parses,
    joined by AND in one clause, and no clause when neither parses; an
    empty bound does not parse, so a filter with only [min] set adds
    exactly one comparison. *)
Theorem range_filter_clause
    (before after : list (string * FilterValue)) (cm : gmap string ColMeta)
    (col : string) (val : FilterValue) :
  filterType (metaOf cm col) = Some "range" ->
  clauseOf cm (col, val)
  = Ok (rangeClause col (parseFloatOf (minOf val)) (parseFloatOf (maxOf val)))
  /\ buildFilterClauses (before ++ (col, val) :: after)%list cm =
     (let* a := buildFilterClauses before cm in
      let* b := buildFilterClauses after cm in
      Ok (a ++ option_list (rangeClause col (parseFloatOf (minOf val))
                                        (parseFloatOf (maxOf val)))
            ++ b)%list)
  /\ parseFloat "" = NaN
  /\ forall min,
      isNaN (parseFloat min) = false ->
      buildFilterClauses [(col, MinMax min "")] cm
      = Ok [("(" ++ (escapeColumnName col ++ " >= " ++ numberToString (parseFloat min))
             ++ ")")%string].
Proof.
  intros Hr. split; [| split; [| split]].
  - rewrite (clauseOf_range _ _ _ Hr). f_equal. apply wrap_rangeParts.
  - now apply range_entry.
  - reflexivity.
  - intros min Hmin.
    pose proof (range_entry [] [] cm col (MinMax min "") Hr) as H.
    cbn [List.app] in H. rewrite H.
    cbn [minOf maxOf parseFloatOf]. unfold rangeClause. rewrite Hmin.
    change (parseFloat "") with NaN. reflexivity.
Qed.

Definition rangeMeta : ColMeta := {| filterType := Some "range"; type := None |}.

Lemma range_filter_clause_witness :
  filterType (metaOf {[ "age" := rangeMeta ]} "age") = Some "range"
  /\ clauseOf {[ "age" := rangeMeta ]} ("age", MinMax "18" "sixty")
     = Ok (Some ("(" ++ escapeColumnName "age" ++ " >= 18)"))
  /\ buildFilterClauses [("age", MinMax "18" "65"); ("age", MinMax "" "x")]
                        {[ "age" := rangeMeta ]}
     = Ok [("(" ++ escapeColumnName "age" ++ " >= 18 AND "
            ++ escapeColumnName "age" ++ " <= 65)")%string].
Proof.
  assert (Hr : filterType (metaOf {[ "age" := rangeMeta ]} "age") = Some "range")
    by reflexivity.
  split; [exact Hr |]. split.
  - exact (proj1 (range_filter_clause [] [] {[ "age" := rangeMeta ]} "age"
                    (MinMax "18" "sixty") Hr)).
  - exact (proj1 (proj2 (range_filter_clause [] [("age", MinMax "" "x")]
                           {[ "age" := rangeMeta ]} "age" (MinMax "18" "65") Hr))).
Defined.

(** C10: the clause of a [range] entry is made from the column name
    and the Numbers [parseFloat] gives for [min] and [max] alone: two
    entries with the same parsed bounds have the same clause, and each
    comparison is the escaped column name, [>=] or [<=], and the
    rendering of the parsed Number, which consists of digits, [.],
    [e], signs and the letters of [Infinity]. *)
Theorem range_clause_from_parsed_numbers
    (cm : gmap string ColMeta) (col min max min' max' : string) :
  filterType (metaOf cm col) = Some "range" ->
  parseFloat min = parseFloat min' ->
  parseFloat max = parseFloat max' ->
  clauseOf cm (col, MinMax min max) = clauseOf cm (col, MinMax min' max')
  /\ forall part,
      In part (rangeParts col (MinMax min max)) ->
      exists op n,
        part = (escapeColumnName col ++ op ++ numberToString n)%string
        /\ (op = " >= " /\ n = parseFloat min \/ op = " <= " /\ n = parseFloat max)
        /\ isNaN n = false
        /\ allChars isNumberChar (numberToString n) = true.
Proof.
  intros Hr Hmin Hmax. split.
  - rewrite !(clauseOf_range _ _ _ Hr). unfold rangeParts.
    cbn [minOf maxOf parseFloatOf]. now rewrite Hmin, Hmax.
  - intros part Hin. unfold rangeParts in Hin. cbn [minOf maxOf parseFloatOf] in Hin.
    apply in_app_or in Hin as [Hin | Hin].
    + destruct (isNaN (parseFloat min)) eqn:E; [destruct Hin |].
      destruct Hin as [<- | []].
      exists " >= ", (parseFloat min). repeat split; auto.
      now apply numberToString_chars.
    + destruct (isNaN (parseFloat max)) eqn:E; [destruct Hin |].
      destruct Hin as [<- | []].
      exists " <= ", (parseFloat max). repeat split; auto.
      now apply numberToString_chars.
Qed.

Lemma range_clause_from_parsed_numbers_witness :
  filterType (metaOf {[ "age" := rangeMeta ]} "age") = Some "range"
  /\ parseFloat "1e3" = parseFloat "1000.0 OR 1=1"
  /\ parseFloat "" = parseFloat "; DROP TABLE t"
  /\ clauseOf {[ "age" := rangeMeta ]} ("age", MinMax "1e3" "")
     = clauseOf {[ "age" := rangeMeta ]} ("age", MinMax "1000.0 OR 1=1" "; DROP TABLE t")
  /\ clauseOf {[ "age" := rangeMeta ]} ("age", MinMax "1000.0 OR 1=1" "; DROP TABLE t")
     = Ok (Some ("(" ++ escapeColumnName "age" ++ " >= 1000)")).
Proof.
  assert (Hr : filterType (metaOf {[ "age" := rangeMeta ]} "age") = Some "range")
    by reflexivity.
  assert (H1 : parseFloat "1e3" = parseFloat "1000.0 OR 1=1") by (vm_compute; reflexivity).
  assert (H2 : parseFloat "" = parseFloat "; DROP TABLE t") by (vm_compute; reflexivity).
  split; [exact Hr |]. split; [exact H1 |]. split; [exact H2 |]. split.
  - exact (proj1 (range_clause_from_parsed_numbers {[ "age" := rangeMeta ]} "age"
                    "1e3" "" "1000.0 OR 1=1" "; DROP TABLE t" Hr H1 H2)).
  - vm_compute. reflexivity.
Defined.

End FilterClaims.

(** ** Claims on the error display *)

Module ErrorClaims.
Import JsString Errors.

(** C8, as the code has it: when the load is still pending after
    [TIMEOUT_MS] (30000 ms) the race ends with the timeout error, the
    main script stops waiting and shows that error at once; its
    message has none of the substrings of the cross-origin, network or
    malformed-file branches, so it is shown by the last branch of
    [handleError], under the title [Error], for every URL. *)
Theorem timeout_shown_as_unexpected_error (A : Type) (fileUrl : string) :
  TIMEOUT_MS = 30000
  /\ raceWithTimeout (None : option (result A)) = Throw timeoutError
  /\ isCorsError (Some fileUrl) timeoutError = false
  /\ isNetworkError timeoutError = false
  /\ isInvalidParquet timeoutError = false
  /\ loadFromUrl fileUrl (None : option (result A))
     = Some {| kind := UnexpectedKind; title := "Error";
               details := "Request timed out - the server took too long to respond" |}.
Proof. repeat split; vm_compute; reflexivity. Qed.

(** C8 as stated fails: the timeout of a remote load is not shown as a
    network error. *)
Lemma timeout_not_network_error :
  isNetworkError timeoutError = false
  /\ option_map kind
       (loadFromUrl "https://example.com/data.parquet" (None : option (result unit)))
     = Some UnexpectedKind
  /\ UnexpectedKind <> NetworkKind.
Proof. repeat split; try (vm_compute; reflexivity). discriminate. Qed.

End ErrorClaims.

(** ** The session *)

Module SessionFacts.
Import JsString Filter Query Errors Viewer.

(** Evaluate the record updates of a handler, leaving the statements
    and the arithmetic alone. *)
Ltac eval_handler :=
  cbn -[rowsSql countSql hasFilters Z.add Z.sub Z.leb Z.ltb Z.of_nat Z.to_nat
        firstn skipn List.app].

Section Facts.
Context {Row : Type}.
Variable engine : Engine Row.
Variable chunk batch : Z.
Variable fileUrl : option string.
Implicit Type s : Session Row.

(** The variables the statements are built from. *)
Definition queryState s :=
  (currentSource s, columns s, totalRows s, columnMeta s,
   sortColumn s, sortDirection s, filters s).

Lemma queryState_rowsSql s s' :
  queryState s = queryState s' -> currentRowsSql s = currentRowsSql s'.
Proof. unfold queryState, currentRowsSql. intros [= -> -> _ -> -> -> ->]. reflexivity. Qed.

Lemma queryState_countSql s s' :
  queryState s = queryState s' -> currentCountSql s = currentCountSql s'.
Proof. unfold queryState, currentCountSql. intros [= -> _ _ -> _ _ ->]. reflexivity. Qed.

(** Both statements are built from the same clauses: when the row
    statement can be built, so can the count statement. *)
Lemma countSql_of_rowsSql s sql :
  currentRowsSql s = Ok sql -> exists csql, currentCountSql s = Ok csql.
Proof.
  unfold currentRowsSql, currentCountSql, rowsSql, countSql.
  destruct (buildFilterClauses (filters s) (columnMeta s)); simpl; [eauto | discriminate].
Qed.

(** The count [reloadData], [loadMore] and [loadAll] take: [fc] is
    the answer to a count statement built from the current filters
    when a filter is active, and the cached total otherwise. *)
Definition countsAs s (fc : Z) : Prop :=
  if hasFilters (filters s)
  then exists csql, currentCountSql s = Ok csql /\ runCount engine csql = Ok fc
  else fc = totalRows s.

(** The count statement such a count issues. *)
Definition countIssued s : list Issued :=
  if hasFilters (filters s)
  then match currentCountSql s with
       | Ok csql => [IssuedCount csql]
       | Throw _ => []
       end
  else [].

(** What [renderRows] leaves in the table. *)
Definition shown s (rows : list Row) : list Row :=
  match columns s with
  | [] => []
  | _ => rows
  end.

Lemma loadMore_ok s sql rows fc :
  currentRowsSql s = Ok sql ->
  runRows engine sql chunk (offset s) = Ok rows ->
  countsAs s fc ->
  let s' := loadMore engine chunk fileUrl s in
  offset s' = offset s + Z.of_nat (length rows)
  /\ tableRows s' = shown s (tableRows s ++ rows)
  /\ moreLabel s' = LoadNext chunk (fc - offset s')
  /\ moreDisabled s' = (fc - offset s' <=? 0)
  /\ queryState s' = queryState s
  /\ status s' = status s
  /\ issued s' = (issued s ++ IssuedRows sql chunk (offset s) :: countIssued s)%list.
Proof.
  destruct s as [src cols total meta off sc sd fs tbl lbl dis lad st iss].
  unfold countsAs, countIssued, shown, queryState, currentRowsSql, currentCountSql.
  eval_handler.
  intros Hsql Hrows Hfc.
  unfold loadMore, settle, moreStart, currentRowsSql.
  eval_handler. rewrite Hsql.
  eval_handler. rewrite Hrows.
  unfold moreOnRows, renderRows, currentCountSql.
  destruct cols; eval_handler;
    (destruct (hasFilters fs);
     [ destruct Hfc as (csql & Hc & Hn); rewrite Hc;
       eval_handler; rewrite Hn;
       eval_handler;
       rewrite <- ?app_assoc; repeat split; reflexivity
     | subst fc; eval_handler;
       repeat split; reflexivity ]).
Qed.


Lemma reloadData_ok s sql rows fc :
  currentRowsSql s = Ok sql ->
  runRows engine sql chunk 0 = Ok rows ->
  countsAs s fc ->
  let s' := reloadData engine chunk fileUrl s in
  offset s' = Z.of_nat (length rows)
  /\ tableRows s' = shown s rows
  /\ moreLabel s' = LoadNext chunk (fc - offset s')
  /\ moreDisabled s' = (fc - offset s' <=? 0)
  /\ queryState s' = queryState s
  /\ status s' = StatusSummary (if hasFilters (filters s) then Some fc else None)
  /\ issued s' = (issued s ++ IssuedRows sql chunk 0 :: countIssued s)%list.
Proof.
  destruct s as [src cols total meta off sc sd fs tbl lbl dis lad st iss].
  unfold countsAs, countIssued, shown, queryState, currentRowsSql, currentCountSql.
  eval_handler.
  intros Hsql Hrows Hfc.
  unfold reloadData, settle, reloadStart, currentRowsSql.
  eval_handler. rewrite Hsql.
  eval_handler. rewrite Hrows.
  unfold reloadOnRows, reloadFinish, renderRows, currentCountSql.
  eval_handler.
  destruct (hasFilters fs).
  - destruct Hfc as (csql & Hc & Hn). rewrite Hc.
    eval_handler. rewrite Hn.
    unfold reloadOnCount, reloadFinish, renderRows.
    destruct cols; eval_handler; rewrite <- ?app_assoc; repeat split; reflexivity.
  - subst fc. destruct cols; eval_handler; repeat split; reflexivity.
Qed.

(** *** Paging over a fixed result *)

(** The engine serves [data] for the statements of [s]: a row
    statement returns the rows of [data] that LIMIT and OFFSET cut
    out, and the count [s] takes is the length of [data]. *)
Definition serves (data : list Row) s : Prop :=
  columns s <> []
  /\ (exists sql,
        currentRowsSql s = Ok sql
        /\ forall limit off,
            runRows engine sql limit off
            = Ok (firstn (Z.to_nat limit) (skipn (Z.to_nat off) data)))
  /\ countsAs s (Z.of_nat (length data)).

(** The table shows the first [offset] rows of [data], and the
    button is disabled exactly when nothing remains. *)
Definition paged (data : list Row) s : Prop :=
  tableRows s = firstn (Z.to_nat (offset s)) data
  /\ 0 <= offset s <= Z.of_nat (length data)
  /\ moreDisabled s = (Z.of_nat (length data) - offset s <=? 0).

(** Clicking the button again and again, as long as it is enabled. *)
Fixpoint pressMore (presses : nat) s : Session Row :=
  match presses with
  | O => s
  | S k => if moreDisabled s then s else pressMore k (loadMore engine chunk fileUrl s)
  end.

Lemma serves_queryState (data : list Row) s s' :
  queryState s' = queryState s -> serves data s -> serves data s'.
Proof.
  intros Hq (Hcols & (sql & Hsql & Hrun) & Hcount). unfold serves, countsAs in *.
  rewrite (queryState_rowsSql _ _ Hq), (queryState_countSql _ _ Hq).
  unfold queryState in Hq. injection Hq as _ Hc Ht _ _ _ Hf.
  rewrite Hc, Ht, Hf. eauto.
Qed.

Lemma shown_with_columns s (rows : list Row) : columns s <> [] -> shown s rows = rows.
Proof. unfold shown. destruct (columns s); congruence. Qed.

Lemma length_page (data : list Row) (limit off : Z) :
  0 <= limit -> 0 <= off ->
  Z.of_nat (length (firstn (Z.to_nat limit) (skipn (Z.to_nat off) data)))
  = Z.max 0 (Z.min limit (Z.of_nat (length data) - off)).
Proof. intros Hl Ho. rewrite length_take, length_drop. lia. Qed.

Lemma reloadData_paged (data : list Row) s :
  0 < chunk -> serves data s ->
  let s' := reloadData engine chunk fileUrl s in
  paged data s' /\ serves data s'
  /\ offset s' = Z.min chunk (Z.of_nat (length data)).
Proof.
  intros Hchunk Hs. pose proof Hs as (Hcols & (sql & Hsql & Hrun) & Hcount).
  destruct (reloadData_ok s sql _ _ Hsql (Hrun chunk 0) Hcount)
    as (Hoff & Htab & _ & Hdis & Hq & _).
  cbn zeta. rewrite length_page in Hoff by lia.
  assert (Ho : offset (reloadData engine chunk fileUrl s)
               = Z.min chunk (Z.of_nat (length data))) by lia.
  split; [| split; [exact (serves_queryState data s _ Hq Hs) | exact Ho]].
  unfold paged. rewrite Hdis, Htab, shown_with_columns by assumption.
  repeat split; try lia.
  rewrite Ho. change (Z.to_nat 0) with 0%nat. rewrite drop_0.
  destruct (Z.min_spec chunk (Z.of_nat (length data))) as [[? ->] | [? ->]];
    [reflexivity |].
  rewrite Nat2Z.id, !take_ge by lia. reflexivity.
Qed.

Lemma loadMore_paged (data : list Row) s :
  0 < chunk -> serves data s -> paged data s ->
  let s' := loadMore engine chunk fileUrl s in
  paged data s' /\ serves data s'
  /\ offset s' = Z.min (offset s + chunk) (Z.of_nat (length data)).
Proof.
  intros Hchunk Hs (Htab0 & Hrange & _).
  pose proof Hs as (Hcols & (sql & Hsql & Hrun) & Hcount).
  destruct (loadMore_ok s sql _ _ Hsql (Hrun chunk (offset s)) Hcount)
    as (Hoff & Htab & _ & Hdis & Hq & _).
  cbn zeta. rewrite length_page in Hoff by lia.
  assert (Ho : offset (loadMore engine chunk fileUrl s)
               = Z.min (offset s + chunk) (Z.of_nat (length data))) by lia.
  split; [| split; [exact (serves_queryState data s _ Hq Hs) | exact Ho]].
  unfold paged. rewrite Hdis, Htab, shown_with_columns by assumption.
  repeat split; try lia.
  rewrite Htab0, take_take_drop. rewrite Ho.
  destruct (Z.min_spec (offset s + chunk) (Z.of_nat (length data))) as [[? ->] | [? ->]].
  - f_equal. lia.
  - rewrite Nat2Z.id, !take_ge by lia. reflexivity.
Qed.

Lemma pressMore_paged (data : list Row) (presses : nat) s :
  0 < chunk -> serves data s -> paged data s ->
  let s' := pressMore presses s in
  paged data s'
  /\ offset s' = Z.min (offset s + Z.of_nat presses * chunk) (Z.of_nat (length data)).
Proof.
  intros Hchunk. revert s. induction presses as [|k IH]; intros s Hs Hp.
  - cbn [pressMore]. split; [exact Hp |]. destruct Hp as (_ & ? & _). lia.
  - cbn [pressMore]. destruct (moreDisabled s) eqn:Hdis.
    + split; [exact Hp |]. destruct Hp as (_ & ? & Hd).
      rewrite Hdis in Hd. assert (0 <= Z.of_nat k * chunk) by lia. lia.
    + destruct (loadMore_paged data s Hchunk Hs Hp) as (Hp' & Hs' & Ho).
      destruct (IH _ Hs' Hp') as (Hp'' & Ho'').
      split; [exact Hp'' |]. cbn zeta in Ho''. rewrite Ho'', Ho.
      assert (0 <= Z.of_nat k * chunk) by lia.
      replace (Z.of_nat (S k) * chunk) with (Z.of_nat k * chunk + chunk) by lia.
      lia.
Qed.

(** The rounds [loadAll] allows are never what ends the loop: once
    [filteredCount - offset] rounds are allowed, allowing more
    changes nothing. *)
Lemma loadAllLoop_enough (rounds extra : nat) (filteredCount : Z) s :
  filteredCount - offset s <= Z.of_nat rounds ->
  loadAllLoop engine batch (rounds + extra) filteredCount s
  = loadAllLoop engine batch rounds filteredCount s.
Proof.
  revert s. induction rounds as [|k IH]; intros s Hk.
  - cbn [Nat.add loadAllLoop]. destruct extra as [|extra]; [reflexivity |].
    cbn [loadAllLoop].
    destruct (Z.ltb_spec (offset s) filteredCount); [lia | reflexivity].
  - cbn [Nat.add loadAllLoop].
    destruct (offset s <? filteredCount); [| reflexivity].
    destruct (currentRowsSql s) as [sql|e]; [| reflexivity].
    destruct (runRows engine sql batch _) as [[|r rows]|e]; try reflexivity.
    apply IH. unfold renderRows.
    destruct s as [? cols ? ? ? ? ? ? ? ? ? ? ? ?]; cbn in *.
    destruct cols; cbn; lia.
Qed.

Lemma loadAllLoop_all (data : list Row) (rounds : nat) s :
  0 < batch -> serves data s ->
  tableRows s = firstn (Z.to_nat (offset s)) data ->
  0 <= offset s <= Z.of_nat (length data) ->
  Z.of_nat (length data) - offset s <= Z.of_nat rounds ->
  exists s',
    loadAllLoop engine batch rounds (Z.of_nat (length data)) s = (s', None)
    /\ tableRows s' = data
    /\ offset s' = Z.of_nat (length data).
Proof.
  intros Hbatch. revert s. induction rounds as [|k IH]; intros s Hs Htab Hrange Hk.
  - exists s. cbn [loadAllLoop]. repeat split; [| lia].
    rewrite Htab, take_ge by lia. reflexivity.
  - cbn [loadAllLoop]. destruct (Z.ltb_spec (offset s) (Z.of_nat (length data))) as [Hlt|Hge].
    2:{ exists s. repeat split; [| lia]. rewrite Htab, take_ge by lia. reflexivity. }
    pose proof Hs as (Hcols & (sql & Hsql & Hrun) & Hcount).
    rewrite Hsql.
    change (offset (logIssued (IssuedRows sql batch (offset s)) s)) with (offset s).
    rewrite Hrun.
    pose proof (length_page data batch (offset s) ltac:(lia) ltac:(lia)) as Hlen.
    destruct (take (Z.to_nat batch) (drop (Z.to_nat (offset s)) data))
      as [|r rows] eqn:Hpage; [cbn [length] in Hlen; exfalso; lia |].
    rewrite <- Hpage in *. clear Hpage.
    set (page := take (Z.to_nat batch) (drop (Z.to_nat (offset s)) data)) in *.
    match goal with
    | |- context [loadAllLoop _ _ k _ ?t] => set (s1 := t)
    end.
    assert (Hq : queryState s1 = queryState s).
    { subst s1. unfold renderRows. destruct s; cbn. destruct columns0; reflexivity. }
    assert (Ho : offset s1 = offset s + Z.of_nat (length page)).
    { subst s1. unfold renderRows. destruct s; cbn. destruct columns0; reflexivity. }
    assert (Ht : tableRows s1 = (tableRows s ++ page)%list).
    { subst s1. unfold renderRows. destruct s; cbn in *. destruct columns0;
        [congruence | reflexivity]. }
    apply IH.
    + exact (serves_queryState data s s1 Hq Hs).
    + rewrite Ht, Ho, Htab. unfold page at 1. rewrite take_take_drop.
      rewrite Hlen.
      destruct (Z.min_spec batch (Z.of_nat (length data) - offset s))
        as [[? ->] | [? ->]].
      * f_equal. lia.
      * rewrite !take_ge by lia. reflexivity.
    + lia.
    + lia.
Qed.

Lemma loadAll_all (data : list Row) s :
  0 < batch -> serves data s -> paged data s ->
  let s' := loadAll engine batch fileUrl true s in
  tableRows s' = data /\ offset s' = Z.of_nat (length data).
Proof.
  intros Hbatch Hs (Htab & Hrange & _).
  pose proof Hs as (Hcols & (sql & Hsql & Hrun) & Hcount).
  cbn zeta. unfold loadAll, currentCount.
  assert (Hcur : exists s0,
             (if hasFilters (filters s)
              then match currentCountSql s with
                   | Ok sql0 => (logIssued (IssuedCount sql0) s, runCount engine sql0)
                   | Throw e => (s, Throw e)
                   end
              else (s, Ok (totalRows s)))
             = (s0, Ok (Z.of_nat (length data)))
             /\ queryState s0 = queryState s /\ tableRows s0 = tableRows s
             /\ offset s0 = offset s).
  { unfold countsAs in Hcount. destruct (hasFilters (filters s)).
    - destruct Hcount as (csql & -> & ->). eexists. split; [reflexivity |].
      destruct s; repeat split; reflexivity.
    - rewrite <- Hcount. exists s. repeat split; reflexivity. }
  destruct Hcur as (s0 & -> & Hq0 & Ht0 & Ho0). rewrite Ho0.
  destruct (Z.leb_spec (Z.of_nat (length data) - offset s) 0) as [Hle|Hgt].
  { rewrite Ht0, Ho0, Htab. rewrite take_ge by lia. split; [reflexivity | lia]. }
  rewrite andb_false_r.
  match goal with
  | |- context [loadAllLoop _ _ _ _ ?t] => set (s1 := t)
  end.
  assert (Hq1 : queryState s1 = queryState s).
  { rewrite <- Hq0. subst s1. destruct s0; reflexivity. }
  destruct (loadAllLoop_all data (Z.to_nat (Z.of_nat (length data) - offset s)) s1)
    as (s2 & -> & Ht2 & Ho2).
  - exact Hbatch.
  - exact (serves_queryState data s s1 Hq1 Hs).
  - subst s1. destruct s0; cbn in *. congruence.
  - subst s1. destruct s0; cbn in *. lia.
  - subst s1. destruct s0; cbn in *. lia.
  - destruct s2; cbn in *. split; assumption.
Qed.

End Facts.
End SessionFacts.

(** ** Claims on the session *)

Module SessionClaims.
Import JsString Filter Query Errors Viewer SessionFacts.

(** What the user can do with a loaded table. *)
Inductive Action : Type :=
| ActSort (colName : string)
| ActFilter (colName value : string)
| ActRange (colName : string) (rangeType : RangeField) (value : string)
| ActMore.

Definition eventOf (a : Action) : Event :=
  match a with
  | ActSort c => SortClick c
  | ActFilter c v => FilterInput c v
  | ActRange c f v => RangeInput c f v
  | ActMore => MoreClick
  end.

Ltac eval_load H :=
  cbn -[rowsSql countSql describeSql rowCountSql hasFilters getColumnMeta
        Z.sub Z.leb Z.eqb Z.of_nat firstn] in H.

Section Claims.
Context {Row : Type}.
Variable engine : Engine Row.
Variable chunk batch : Z.
Variable fileUrl : option string.
Implicit Type s : Session Row.

(** What a handler does to the variables before its first query. *)
Definition prepare (a : Action) s : Session Row :=
  match a with
  | ActSort c => sortClick c s
  | ActFilter c v => filterInput c v s
  | ActRange c f v => rangeInput c f v s
  | ActMore => s
  end.

(** The handler of an action, run alone. *)
Definition perform (a : Action) s : Session Row :=
  match a with
  | ActSort c => handleSort engine chunk fileUrl c s
  | ActFilter c v => handleFilter engine chunk fileUrl c v s
  | ActRange c f v => handleRangeFilter engine chunk fileUrl c f v s
  | ActMore => loadMore engine chunk fileUrl s
  end.


Lemma prepare_issued (a : Action) s : issued (prepare a s) = issued s.
Proof.
  destruct a; cbn [prepare]; unfold sortClick, filterInput, rangeInput;
    try reflexivity.
  destruct (sortColumn s) as [c|]; [destruct (String.eqb c colName) |]; reflexivity.
Qed.

Lemma prepare_offset (a : Action) s :
  offset (prepare a s) = match a with ActMore => offset s | _ => 0 end.
Proof. destruct a; reflexivity. Qed.

(** C5: each [loadMore] adds to [offset] the number of rows the
    query returned; over a result [data] that the engine serves by
    LIMIT and OFFSET, [presses] clicks from a paged table leave
    [offset] at [min (offset + presses * chunk) (length data)] with
    the table showing that many first rows; once that reaches the
    length of [data] the table is [data] itself, row for row, and the
    button is disabled; a round of [loadAll] adds the number of rows
    of its batch, and [loadAll] ends the same way.  A reload starts
    such a paged table.  This holds for every positive page size. *)
Theorem paging_retrieves_all_rows (data : list Row) s (presses : nat) :
  0 < chunk -> 0 < batch ->
  serves engine data s ->
  paged data s ->
  (forall sql rows,
      currentRowsSql s = Ok sql ->
      runRows engine sql chunk (offset s) = Ok rows ->
      offset (loadMore engine chunk fileUrl s) = offset s + Z.of_nat (length rows))
  /\ (let s' := pressMore engine chunk fileUrl presses s in
      offset s' = Z.min (offset s + Z.of_nat presses * chunk) (Z.of_nat (length data))
      /\ tableRows s' = firstn (Z.to_nat (offset s')) data)
  /\ (Z.of_nat (length data) <= offset s + Z.of_nat presses * chunk ->
      let s' := pressMore engine chunk fileUrl presses s in
      tableRows s' = data
      /\ offset s' = Z.of_nat (length data)
      /\ moreDisabled s' = true)
  /\ (forall sql r rows fc,
        currentRowsSql s = Ok sql ->
        offset s < fc ->
        runRows engine sql batch (offset s) = Ok (r :: rows) ->
        offset (fst (loadAllLoop engine batch 1 fc s))
        = offset s + Z.of_nat (length (r :: rows)))
  /\ (let s' := loadAll engine batch fileUrl true s in
      tableRows s' = data /\ offset s' = Z.of_nat (length data))
  /\ paged data (reloadData engine chunk fileUrl s).
Proof.
  intros Hchunk Hbatch Hs Hp.
  destruct (pressMore_paged engine chunk fileUrl data presses s Hchunk Hs Hp)
    as ((Htab & Hrange & Hdis) & Hoff).
  split; [| split; [| split; [| split; [| split]]]].
  - intros sql rows Hsql Hrows.
    destruct Hs as (_ & _ & Hcount).
    now destruct (loadMore_ok engine chunk fileUrl s sql rows _ Hsql Hrows Hcount).
  - split; assumption.
  - intros Hall. cbn zeta in *.
    assert (Hend : offset (pressMore engine chunk fileUrl presses s)
                   = Z.of_nat (length data)) by lia.
    rewrite Hdis, Htab, Hend. rewrite Nat2Z.id, take_ge by lia.
    repeat split. apply Z.leb_le. lia.
  - intros sql r rows fc Hsql Hlt Hrows. cbn [loadAllLoop].
    apply Z.ltb_lt in Hlt. rewrite Hlt, Hsql.
    change (offset (logIssued (IssuedRows sql batch (offset s)) s)) with (offset s).
    rewrite Hrows. unfold renderRows.
    destruct s as [? cols ? ? ? ? ? ? ? ? ? ? ? ?]. destruct cols; reflexivity.
  - now apply loadAll_all.
  - now apply reloadData_paged.
Qed.

(** Whatever the engine answers, [reloadData] leaves the variables
    the statements are built from alone, and its first statement is
    the page at offset 0. *)
Lemma reloadData_frame s :
  queryState (reloadData engine chunk fileUrl s) = queryState s
  /\ forall sql,
      currentRowsSql s = Ok sql ->
      exists rest,
        issued (reloadData engine chunk fileUrl s)
        = (issued s ++ IssuedRows sql chunk 0 :: rest)%list.
Proof.
  destruct s as [src cols total meta off sc sd fs tbl lbl dis lad st iss].
  unfold queryState, reloadData, settle, reloadStart, currentRowsSql. eval_handler.
  destruct (rowsSql src cols sc sd fs meta) as [sql|e] eqn:Hsql; eval_handler.
  2:{ split; [reflexivity | discriminate]. }
  destruct (runRows engine sql chunk 0) as [rows|e]; eval_handler.
  2:{ split; [reflexivity |]. intros ? [= <-]. now exists []. }
  unfold reloadOnRows, reloadFinish, renderRows, currentCountSql. eval_handler.
  destruct (hasFilters fs).
  - destruct (countSql src fs meta) as [csql|e]; eval_handler.
    2:{ split; [reflexivity |]. intros ? [= <-]. now exists []. }
    unfold reloadOnCount, reloadFinish, renderRows.
    destruct (runCount engine csql), cols; eval_handler;
      (split; [reflexivity |]; intros ? [= <-]; rewrite <- app_assoc; eauto).
  - destruct cols; eval_handler;
      (split; [reflexivity |]; intros ? [= <-]; now exists []).
Qed.

Lemma sortClick_same (colName : string) s :
  sortColumn s = Some colName ->
  sortColumn (sortClick colName s) = Some colName
  /\ sortDirection (sortClick colName s)
     = match sortDirection s with
       | Some ASC => Some DESC
       | _ => Some ASC
       end.
Proof.
  intros H. unfold sortClick. rewrite H, String.eqb_refl. now split.
Qed.

Lemma sortClick_other (colName : string) s :
  sortColumn s <> Some colName ->
  sortColumn (sortClick colName s) = Some colName
  /\ sortDirection (sortClick colName s) = Some ASC.
Proof.
  intros H. unfold sortClick. destruct (sortColumn s) as [c|]; [| now split].
  destruct (String.eqb_spec c colName); [congruence | now split].
Qed.

Lemma sortClick_issued (colName : string) s :
  issued (sortClick colName s) = issued s.
Proof. exact (prepare_issued (ActSort colName) s). Qed.

(** C7: sorting by the current sort column turns ASC into DESC and
    DESC into ASC; sorting by any other column makes it the sort
    column, ascending; either way [offset] is set to 0 before the
    reload, whose first statement fetches the page at offset 0. *)
Theorem sort_toggles_direction (colName : string) s :
  let s' := handleSort engine chunk fileUrl colName s in
  (sortColumn s = Some colName -> sortDirection s = Some ASC ->
   sortColumn s' = Some colName /\ sortDirection s' = Some DESC)
  /\ (sortColumn s = Some colName -> sortDirection s = Some DESC ->
      sortColumn s' = Some colName /\ sortDirection s' = Some ASC)
  /\ (sortColumn s <> Some colName ->
      sortColumn s' = Some colName /\ sortDirection s' = Some ASC)
  /\ offset (sortClick colName s) = 0
  /\ (forall sql,
        currentRowsSql (sortClick colName s) = Ok sql ->
        exists rest, issued s' = (issued s ++ IssuedRows sql chunk 0 :: rest)%list).
Proof.
  cbn zeta. unfold handleSort.
  destruct (reloadData_frame (sortClick colName s)) as (Hq & Hlog).
  assert (Hc : sortColumn (reloadData engine chunk fileUrl (sortClick colName s))
               = sortColumn (sortClick colName s))
    by exact (f_equal (fun q => snd (fst (fst q))) Hq).
  assert (Hd : sortDirection (reloadData engine chunk fileUrl (sortClick colName s))
               = sortDirection (sortClick colName s))
    by exact (f_equal (fun q => snd (fst q)) Hq).
  rewrite Hc, Hd. rewrite sortClick_issued in Hlog.
  split; [| split; [| split; [| split]]].
  - intros Hcol Hdir. destruct (sortClick_same colName s Hcol) as (-> & ->).
    now rewrite Hdir.
  - intros Hcol Hdir. destruct (sortClick_same colName s Hcol) as (-> & ->).
    now rewrite Hdir.
  - intros Hcol. exact (sortClick_other colName s Hcol).
  - reflexivity.
  - exact Hlog.
Qed.


Lemma complete_single s (t : Task Row) :
  step engine chunk fileUrl (s, [t]) (Complete 0)
  = (fst (resume engine chunk fileUrl t s),
     option_list (snd (resume engine chunk fileUrl t s))).
Proof.
  unfold step. change ([t] !! 0%nat) with (Some t). cbv beta iota.
  destruct (resume engine chunk fileUrl t s) as [s' next]. reflexivity.
Qed.

Lemma complete_none s : step engine chunk fileUrl (s, []) (Complete 0) = (s, []).
Proof. reflexivity. Qed.

(** After its first query a handler waits for a count at most, and
    after the count for nothing. *)
Lemma resume_twice (t : Task Row) s :
  (exists sql, t = ReloadRows sql) \/ (exists sql off, t = MoreRows sql off) ->
  match snd (resume engine chunk fileUrl t s) with
  | Some t' =>
      snd (resume engine chunk fileUrl t' (fst (resume engine chunk fileUrl t s))) = None
  | None => True
  end.
Proof.
  intros [(sql & ->) | (sql & off & ->)]; cbn [resume];
    [unfold reloadOnRows | unfold moreOnRows];
    destruct (runRows engine sql chunk _); cbn [snd]; try exact I;
    destruct (hasFilters _); cbn [snd]; try exact I;
    destruct (currentCountSql _); cbn [snd]; try exact I; reflexivity.
Qed.

Lemma started_alone (st : Session Row * option (Task Row)) :
  match snd st with
  | Some t => (exists sql, t = ReloadRows sql) \/ (exists sql off, t = MoreRows sql off)
  | None => True
  end ->
  fold_left (step engine chunk fileUrl) [Complete 0; Complete 0]
            (fst st, ([] ++ option_list (snd st))%list)
  = (settle engine chunk fileUrl st, []).
Proof.
  destruct st as [s [t|]]; cbn -[step resume].
  - intros Ht. rewrite complete_single.
    pose proof (resume_twice t s Ht) as H2.
    destruct (resume engine chunk fileUrl t s) as [s1 [t1|]]; cbn -[step resume] in *.
    + rewrite complete_single. rewrite H2. reflexivity.
    + now rewrite complete_none.
  - intros _. now rewrite !complete_none.
Qed.

(** A handler that runs alone behaves as its sequential reading. *)
Lemma alone_is_sequential (a : Action) s :
  (a = ActMore -> moreDisabled s = false) ->
  run engine chunk fileUrl [eventOf a; Complete 0; Complete 0] (s, [])
  = (perform a s, []).
Proof.
  intros Hmore.
  assert (Hreload : forall p : Session Row,
             match snd (reloadStart chunk fileUrl p) with
             | Some t => (exists sql, t = ReloadRows sql)
                         \/ (exists sql off, t = @MoreRows Row sql off)
             | None => True
             end).
  { intros p. unfold reloadStart. destruct (currentRowsSql _); cbn [snd]; eauto. }
  destruct a; unfold run; cbn [eventOf perform];
    unfold handleSort, handleFilter, handleRangeFilter, reloadData, loadMore;
    cbn [fold_left]; cbn [step];
    try (apply started_alone; apply Hreload).
  rewrite (Hmore eq_refl). apply started_alone.
  unfold moreStart. destruct (currentRowsSql _); cbn [snd]; eauto.
Qed.

(** C9, as the code has it: queries carry no generation tag.  When
    the row query of a suspended [reloadData] completes, [offset]
    becomes the number of rows it returned, and when its count
    completes, those rows replace the table and the button shows the
    count minus the current [offset], whatever handlers have started
    or completed in between; results are thus applied in completion
    order.  A handler whose queries complete before anything else
    happens leaves the state of running it alone. *)
Theorem results_applied_on_completion s (pending : list (Task Row)) (i : nat) :
  (forall sql rows,
      pending !! i = Some (ReloadRows sql) ->
      runRows engine sql chunk 0 = Ok rows ->
      offset (fst (step engine chunk fileUrl (s, pending) (Complete i)))
      = Z.of_nat (length rows))
  /\ (forall sql rows n,
        pending !! i = Some (ReloadCount rows sql) ->
        runCount engine sql = Ok n ->
        let s' := fst (step engine chunk fileUrl (s, pending) (Complete i)) in
        tableRows s' = shown s rows
        /\ moreLabel s' = LoadNext chunk (n - offset s))
  /\ (forall a,
        (a = ActMore -> moreDisabled s = false) ->
        run engine chunk fileUrl [eventOf a; Complete 0; Complete 0] (s, [])
        = (perform a s, [])).
Proof.
  split; [| split].
  - intros sql rows Hi Hrows. unfold step. rewrite Hi. cbn [resume]. rewrite Hrows.
    unfold reloadOnRows.
    destruct (hasFilters _); [destruct (currentCountSql _) |]; try reflexivity.
    unfold reloadFinish, renderRows. destruct s as [? cols ? ? ? ? ? ? ? ? ? ? ? ?].
    destruct cols; reflexivity.
  - intros sql rows n Hi Hn. unfold step. rewrite Hi. cbn [resume]. rewrite Hn.
    unfold reloadOnCount, reloadFinish, renderRows, shown.
    destruct s as [? cols ? ? ? ? ? ? ? ? ? ? ? ?].
    destruct cols; split; reflexivity.
  - intros a. apply alone_is_sequential.
Qed.

End Claims.

(** *** A file of 250 rows

    The scenario of a file with columns [id], [name] and [created]
    and 250 rows, served by pages of [CHUNK] rows. *)

Definition demoData : list nat := seq 0 250.

Definition demoColumns : list Column :=
  [ {| name := "id"; ctype := "INTEGER" |};
    {| name := "name"; ctype := "VARCHAR" |};
    {| name := "created"; ctype := "TIMESTAMP" |} ].

Definition demoEngine : Engine nat :=
  {| runDescribe := fun _ => Ok demoColumns;
     runCount := fun _ => Ok 250;
     runValues := fun _ => Ok [];
     runRows := fun _ limit off =>
                  Ok (firstn (Z.to_nat limit) (skipn (Z.to_nat off) demoData)) |}.

(** The session after the first load. *)
Definition demoSession : Session nat :=
  fst (loadParquet demoEngine CHUNK "data.parquet" (initial nat)).

Lemma demo_serves : serves demoEngine demoData demoSession.
Proof.
  split; [vm_compute; discriminate |]. split.
  - eexists. split; [vm_compute; reflexivity | intros; reflexivity].
  - vm_compute. reflexivity.
Qed.

Lemma demo_paged : paged demoData demoSession.
Proof. repeat split; vm_compute; try reflexivity; discriminate. Qed.

Lemma paging_retrieves_all_rows_witness :
  0 < CHUNK /\ 0 < BATCH
  /\ serves demoEngine demoData demoSession
  /\ paged demoData demoSession
  /\ (let s' := pressMore demoEngine CHUNK None 2 demoSession in
      tableRows s' = demoData /\ offset s' = 250 /\ moreDisabled s' = true)
  /\ (let s' := loadAll demoEngine BATCH None true demoSession in
      tableRows s' = demoData /\ offset s' = 250).
Proof.
  assert (Hc : 0 < CHUNK) by reflexivity.
  assert (Hb : 0 < BATCH) by reflexivity.
  assert (Hfull : Z.of_nat (length demoData) <= offset demoSession + Z.of_nat 2 * CHUNK)
    by (vm_compute; discriminate).
  destruct (paging_retrieves_all_rows demoEngine CHUNK BATCH None demoData demoSession 2
              Hc Hb demo_serves demo_paged) as (_ & _ & Hall & _ & Hla & _).
  split; [exact Hc |]. split; [exact Hb |].
  split; [exact demo_serves |]. split; [exact demo_paged |].
  split; [exact (Hall Hfull) | exact Hla].
Defined.

(** Sorting the demo file by [id] once. *)
Definition sortedOnce : Session nat := handleSort demoEngine CHUNK None "id" demoSession.

Lemma sort_toggles_direction_witness :
  sortColumn sortedOnce = Some "id"
  /\ sortDirection sortedOnce = Some ASC
  /\ sortColumn (handleSort demoEngine CHUNK None "id" sortedOnce) = Some "id"
  /\ sortDirection (handleSort demoEngine CHUNK None "id" sortedOnce) = Some DESC.
Proof.
  assert (Hcol : sortColumn sortedOnce = Some "id") by (vm_compute; reflexivity).
  assert (Hdir : sortDirection sortedOnce = Some ASC) by (vm_compute; reflexivity).
  split; [exact Hcol |]. split; [exact Hdir |].
  exact (proj1 (sort_toggles_direction demoEngine CHUNK None "id" sortedOnce) Hcol Hdir).
Defined.


(** *** Two filter edits in a row

    An engine whose rows depend on the filter: three rows match [a],
    one row matches [b]. *)

Definition rowsFor (sql : string) : list nat :=
  if includes "%a%" sql then [1; 2; 3]%nat
  else if includes "%b%" sql then [7]%nat
  else seq 0 10.

Definition filterEngine : Engine nat :=
  {| runDescribe := fun _ => Ok [ {| name := "name"; ctype := "VARCHAR" |} ];
     runCount := fun sql =>
                   if includes "DISTINCT" sql then Ok 500
                   else Ok (Z.of_nat (length (rowsFor sql)));
     runValues := fun _ => Ok [];
     runRows := fun sql limit off =>
                  Ok (firstn (Z.to_nat limit) (skipn (Z.to_nat off) (rowsFor sql))) |}.

Definition filterSession : Session nat :=
  fst (loadParquet filterEngine CHUNK "data.parquet" (initial nat)).

(** C9 as stated fails.  The user types [a], then [b].  With the
    queries completing in the order they were issued: when the row
    query issued under [a] completes, after the edit to [b] has started
    its own query, its row count is written to [offset]; two
    completions later its rows are in the table, while the filter is
    [b], whose own rows are different.  With the queries of [b]
    completing first, the rows of [a] are what the table shows once
    nothing is pending any more. *)
Lemma stale_result_written_after_newer_filter :
  let st1 := run filterEngine CHUNK None
                 [FilterInput "name" "a"; FilterInput "name" "b"; Complete 0]
                 (filterSession, []) in
  let st2 := run filterEngine CHUNK None [Complete 0; Complete 0] st1 in
  let st3 := run filterEngine CHUNK None
                 [FilterInput "name" "a"; FilterInput "name" "b";
                  Complete 1; Complete 1; Complete 0; Complete 0]
                 (filterSession, []) in
  filters (fst st1) = [("name", Scalar "b")]
  /\ offset (fst st1) = 3
  /\ filters (fst st2) = [("name", Scalar "b")]
  /\ tableRows (fst st2) = [1; 2; 3]%nat
  /\ (exists sql,
        currentRowsSql (fst st2) = Ok sql
        /\ runRows filterEngine sql CHUNK 0 = Ok [7]%nat)
  /\ snd st3 = []
  /\ filters (fst st3) = [("name", Scalar "b")]
  /\ tableRows (fst st3) = [1; 2; 3]%nat.
Proof.
  cbv zeta. repeat split; try (vm_compute; reflexivity).
  eexists. split; vm_compute; reflexivity.
Qed.

Lemma results_applied_on_completion_witness :
  moreDisabled demoSession = false
  /\ run demoEngine CHUNK None [MoreClick; Complete 0; Complete 0] (demoSession, [])
     = (loadMore demoEngine CHUNK None demoSession, []).
Proof.
  assert (H : moreDisabled demoSession = false) by (vm_compute; reflexivity).
  split; [exact H |].
  exact (proj2 (proj2 (results_applied_on_completion demoEngine CHUNK None
                         demoSession [] 0))
               ActMore (fun _ => H)).
Defined.

End SessionClaims.

(** ** The tests of the repository, replayed on the embedding *)

Module SourceTests.
Import JsString JsNumber Escape Filter Query Viewer.
Import FilterFacts FilterClaims SessionClaims.

Definition dq : string := String dquote "".

Example escapeSource_quotes :
  escapeSource "file'; DROP TABLE--" = "file''; DROP TABLE--"
  /\ escapeSource "https://example.com/data.parquet" = "https://example.com/data.parquet"
  /\ escapeSource "a'b'c" = "a''b''c"
  /\ escapeSource "" = "".
Proof. repeat split; reflexivity. Qed.

Example escapeLikePattern_wildcards :
  escapeLikePattern "100%" = "100\%"
  /\ escapeLikePattern "a_b" = "a\_b"
  /\ escapeLikePattern "path\file" = "path\\file"
  /\ escapeLikePattern "50%_off\sale" = "50\%\_off\\sale"
  /\ escapeLikePattern "hello" = "hello"
  /\ escapeLikePattern "" = "".
Proof. repeat split; reflexivity. Qed.

Example escapeColumnName_quotes :
  escapeColumnName "name" = dq ++ "name" ++ dq
  /\ escapeColumnName ("col" ++ dq ++ "umn") = dq ++ "col" ++ dq ++ dq ++ "umn" ++ dq
  /\ escapeColumnName "my column" = dq ++ "my column" ++ dq
  /\ escapeColumnName "col'umn" = dq ++ "col'umn" ++ dq.
Proof. repeat split; reflexivity. Qed.

(** The clauses of a one-entry filter map, as a list. *)
Definition clausesOf (col : string) (val : FilterValue) (meta : ColMeta) : list string :=
  match buildFilterClauses [(col, val)] {[ col := meta ]} with
  | Ok cs => cs
  | Throw _ => []
  end.

Definition selectMeta : ColMeta := {| filterType := Some "select"; type := None |}.
Definition dateMeta : ColMeta := {| filterType := Some "date"; type := Some "DATE" |}.

Example buildFilterClauses_tests :
  clausesOf "name" (Scalar "john") textMeta
  = [("CAST(" ++ dq ++ "name" ++ dq ++ " AS VARCHAR) ILIKE '%john%' ESCAPE '\'")%string]%list
  /\ clausesOf "name" (Scalar "O'Brien") textMeta
     = [("CAST(" ++ dq ++ "name" ++ dq ++ " AS VARCHAR) ILIKE '%O''Brien%' ESCAPE '\'")%string]%list
  /\ clausesOf "age" (MinMax "18" "65") rangeMeta
     = [("(" ++ dq ++ "age" ++ dq ++ " >= 18 AND " ++ dq ++ "age" ++ dq ++ " <= 65)")%string]%list
  /\ clausesOf "created" (MinMax "2024-01-01" "2024-01-31") timestampMeta
     = [("(" ++ dq ++ "created" ++ dq ++ " >= '2024-01-01' AND " ++ dq ++ "created" ++ dq
        ++ " < '2024-01-31'::DATE + INTERVAL '1 day')")%string]%list
  /\ includes "<= '2024-01-31'"
       (join "" (clausesOf "created" (MinMax "2024-01-01" "2024-01-31") timestampMeta))
     = false
  /\ clausesOf "created" (MinMax "2024-01-01" "2024-01-31") dateMeta
     = [("(" ++ dq ++ "created" ++ dq ++ " >= '2024-01-01' AND " ++ dq ++ "created" ++ dq
        ++ " <= '2024-01-31')")%string]%list
  /\ clausesOf "status" (Scalar "it's done") selectMeta
     = [(dq ++ "status" ++ dq ++ " = 'it''s done'")%string]%list
  /\ buildFilterClauses [("name", Scalar ""); ("age", MinMax "" "")]
       (<["name" := textMeta]> {[ "age" := rangeMeta ]})
     = Ok []
  /\ clausesOf "name" (Scalar "100%") textMeta
     = [("CAST(" ++ dq ++ "name" ++ dq ++ " AS VARCHAR) ILIKE '%100\%%' ESCAPE '\'")%string]%list.
Proof. repeat split; vm_compute; reflexivity. Qed.

(** The paging scenario of the specification: 250 rows by pages of
    100. *)
Example paging_scenario :
  let more := loadMore demoEngine CHUNK None in
  (offset demoSession, moreLabel demoSession, moreDisabled demoSession)
  = (100, LoadNext 100 150, false)
  /\ (offset (more demoSession), moreLabel (more demoSession),
      moreDisabled (more demoSession))
     = (200, LoadNext 100 50, false)
  /\ (offset (more (more demoSession)), moreLabel (more (more demoSession)),
      moreDisabled (more (more demoSession)))
     = (250, LoadNext 100 0, true).
Proof. repeat split; vm_compute; reflexivity. Qed.

(** Numbers as [parseFloat] reads them and a template literal prints
    them. *)
Example number_texts :
  List.map (fun s => numberToString (parseFloat s))
           ["18"; "65.50"; "1e3"; "-0"; ".5"; "5."; " 42"; "18abc"; "0x10"; "1e21";
            "0.1"; "0.0000001"; "9007199254740993"; "1e400"; "-Infinity"; "abc"; ""]
  = ["18"; "65.5"; "1000"; "0"; "0.5"; "5"; "42"; "18"; "0"; "1e+21";
     "0.1"; "1e-7"; "9007199254740992"; "Infinity"; "-Infinity"; "NaN"; "NaN"].
Proof. vm_compute. reflexivity. Qed.

End SourceTests.

(** ** Further properties: escaping *)

Module EscapeProps.
Import JsString JsNumber Escape Html Readers Query SqlLike.
Import StringFacts LikeFacts NumberFacts.

Lemma readDelimited_doubled (q : ascii) (s rest : string) :
  startsWith (String q "") rest = false ->
  readDelimited q (replaceAll q (String q (String q "")) s ++ String q rest)
  = Some (s, rest).
Proof.
  intros Hrest. induction s as [|a s IH].
  - cbn [replaceAll String.append readDelimited]. rewrite Ascii.eqb_refl.
    destruct rest as [|b rest']; [reflexivity |].
    cbn [startsWith] in Hrest. rewrite andb_true_r in Hrest.
    rewrite Ascii.eqb_sym, Hrest. reflexivity.
  - cbn [replaceAll]. destruct (Ascii.eqb a q) eqn:E.
    + apply Ascii.eqb_eq in E. subst a.
      cbn [String.append readDelimited]. rewrite Ascii.eqb_refl, IH. reflexivity.
    + cbn [String.append readDelimited]. rewrite E, IH. reflexivity.
Qed.

(** X1: in the statements of [getSchema] and [getRowCount] the text
    after [read_parquet('] reads back, as a SQL literal, as the
    source itself, and what follows the literal is the closing
    parenthesis of the statement, whatever characters the source
    has. *)
Theorem source_literal_reads_back (source : string) :
  (exists body,
      describeSql source = "DESCRIBE SELECT * FROM read_parquet('" ++ body
      /\ readLiteral body = Some (source, ")"))
  /\ (exists body,
        rowCountSql source = "SELECT COUNT(*) as cnt FROM read_parquet('" ++ body
        /\ readLiteral body = Some (source, ")")).
Proof.
  split; exists (escapeSource source ++ "')");
    (split; [reflexivity | now apply readDelimited_doubled]).
Qed.

(** X2: an escaped column name, followed by any text that does not
    begin with a double quote, is an opening double quote and a body
    that reads back, as a delimited identifier, as the name itself and
    leaves that text. *)
Theorem column_name_reads_back (name rest : string) :
  startsWith (String dquote "") rest = false ->
  exists body,
    escapeColumnName name ++ rest = String dquote body
    /\ readIdentifier body = Some (name, rest).
Proof.
  intros Hrest.
  exists (replaceAll dquote (String dquote (String dquote "")) name ++ String dquote rest).
  split.
  - unfold escapeColumnName. cbn [String.append]. f_equal.
    now rewrite append_assoc.
  - now apply readDelimited_doubled.
Qed.

Lemma column_name_reads_back_witness :
  startsWith (String dquote "") " >= 18" = false
  /\ exists body,
      escapeColumnName ("a" ++ String dquote "b") ++ " >= 18" = String dquote body
      /\ readIdentifier body = Some ("a" ++ String dquote "b", " >= 18").
Proof.
  assert (H : startsWith (String dquote "") " >= 18" = false) by reflexivity.
  split; [exact H |].
  exact (column_name_reads_back ("a" ++ String dquote "b") " >= 18" H).
Defined.

Lemma match_literals (v s : string) : matchItems (literals v) s = String.eqb v s.
Proof.
  revert s. induction v as [|a v IH]; intros [|b s]; cbn; try reflexivity.
  rewrite IH. reflexivity.
Qed.

(** X3: an escaped value is always a well-formed LIKE pattern under the
    backslash escape, and as a whole pattern it matches the value
    itself and nothing else. *)
Theorem escaped_pattern_matches_only_itself (v s : string) :
  like backslash (escapeLikePattern v) s = Some (String.eqb v s).
Proof.
  unfold like. rewrite <- (append_nil_r (escapeLikePattern v)).
  rewrite patternItems_escaped. cbn [patternItems option_map].
  rewrite app_nil_r. now rewrite match_literals.
Qed.

(** The effect of [escapeHtml] on one character. *)
Definition escapeHtmlChar (a : ascii) : string :=
  if Ascii.eqb a "&" then "&amp;"
  else if Ascii.eqb a "<" then "&lt;"
  else if Ascii.eqb a ">" then "&gt;"
  else if Ascii.eqb a dquote then "&quot;"
  else if Ascii.eqb a quote then "&#x27;"
  else String a "".

Lemma escapeText_app (a b : string) : escapeText (a ++ b) = escapeText a ++ escapeText b.
Proof. unfold escapeText. now rewrite !replaceAll_app. Qed.

Lemma escapeText_char (a : ascii) : escapeText (String a "") = escapeHtmlChar a.
Proof. destruct a as [[] [] [] [] [] [] [] []]; vm_compute; reflexivity. Qed.

Lemma escapeText_cons (a : ascii) (s : string) :
  escapeText (String a s) = escapeHtmlChar a ++ escapeText s.
Proof.
  change (String a s) with (String a "" ++ s).
  now rewrite escapeText_app, escapeText_char.
Qed.

Lemma unescape_char (a : ascii) (t : string) :
  unescapeFrom 0 (escapeHtmlChar a ++ t) = String a (unescapeFrom 0 t).
Proof. destruct a as [[] [] [] [] [] [] [] []]; reflexivity. Qed.

(** X4: [escapeHtml] loses nothing: replacing the five character
    references in its result by their characters gives back the text
    (for a Number, its decimal rendering); [null] gives the empty
    string. *)
Theorem escapeHtml_reads_back (s : string) (x : number) :
  unescapeHtml (escapeHtml (Text s)) = s
  /\ unescapeHtml (escapeHtml (Num x)) = numberToString x
  /\ escapeHtml Nullish = "".
Proof.
  assert (H : forall t, unescapeHtml (escapeText t) = t).
  { unfold unescapeHtml. induction t as [|a t IH]; [reflexivity |].
    now rewrite escapeText_cons, unescape_char, IH. }
  repeat split; apply H.
Qed.

(** The characters with a meaning in HTML text and attribute values,
    the ampersand aside. *)
Definition isMarkupChar (a : ascii) : bool :=
  Ascii.eqb a "<" || Ascii.eqb a ">" || Ascii.eqb a dquote || Ascii.eqb a quote.

Lemma escapeHtmlChar_safe (a : ascii) :
  allChars (fun c => negb (isMarkupChar c)) (escapeHtmlChar a) = true.
Proof. destruct a as [[] [] [] [] [] [] [] []]; reflexivity. Qed.

(** The text after each ampersand of [s] begins one of the five
    references, without their ampersand. *)
Fixpoint ampersandsAreReferences (s : string) : bool :=
  match s with
  | EmptyString => true
  | String a rest =>
      (if Ascii.eqb a "&"
       then startsWith "amp;" rest || startsWith "lt;" rest || startsWith "gt;" rest
            || startsWith "quot;" rest || startsWith "#x27;" rest
       else true)
      && ampersandsAreReferences rest
  end.

Lemma ampersands_char (a : ascii) (t : string) :
  ampersandsAreReferences (escapeHtmlChar a ++ t) = ampersandsAreReferences t.
Proof. destruct a as [[] [] [] [] [] [] [] []]; reflexivity. Qed.

(** X5: the result of [escapeHtml] has no [<], [>], double quote or
    single quote, and each of its ampersands begins one of the five
    character references. *)
Theorem escapeHtml_has_no_markup (str : HtmlArg) :
  allChars (fun c => negb (isMarkupChar c)) (escapeHtml str) = true
  /\ ampersandsAreReferences (escapeHtml str) = true.
Proof.
  assert (H : forall t, allChars (fun c => negb (isMarkupChar c)) (escapeText t) = true
                        /\ ampersandsAreReferences (escapeText t) = true).
  { induction t as [|a t [IH1 IH2]]; [split; reflexivity |].
    rewrite escapeText_cons, allChars_app, escapeHtmlChar_safe, ampersands_char.
    now split. }
  destruct str; cbn [escapeHtml]; [split; reflexivity | apply H | apply H].
Qed.

Lemma length_takeS (n : nat) (s : string) :
  String.length (takeS n s) = Nat.min n (String.length s).
Proof.
  revert s. induction n as [|n IH]; intros [|a s]; cbn; try reflexivity.
  now rewrite IH.
Qed.

Lemma takeS_prefix (n : nat) (s : string) : startsWith (takeS n s) s = true.
Proof.
  revert s. induction n as [|n IH]; intros [|a s]; cbn; try reflexivity.
  now rewrite Ascii.eqb_refl, IH.
Qed.

Lemma startsWith_refl (s : string) : startsWith s s = true.
Proof. induction s as [|a s IH]; cbn; [reflexivity | now rewrite Ascii.eqb_refl]. Qed.

(** X6: [truncateColumnName] returns the name unchanged when it has at
    most [maxLen] characters; otherwise it keeps a prefix of the name
    and appends the ellipsis, and the result has exactly [maxLen]
    characters when [maxLen >= 1], but [max (length + maxLen) 1]
    characters, more than [maxLen], when [maxLen <= 0]. *)
Theorem truncateColumnName_length (name : string) (maxLen : Z) :
  let len := Z.of_nat (String.length name) in
  let r := truncateColumnName name maxLen in
  startsWith (fst r) name = true
  /\ (len <= maxLen -> r = (name, false))
  /\ (maxLen < len -> snd r = true)
  /\ (maxLen < len -> 1 <= maxLen -> shownLength r = maxLen)
  /\ (maxLen < len -> maxLen <= 0 -> shownLength r = Z.max (len + maxLen) 1).
Proof.
  cbn zeta. unfold truncateColumnName, shownLength, sliceFromStart.
  destruct (Z.leb_spec (Z.of_nat (String.length name)) maxLen) as [Hle|Hgt];
    cbn [fst snd].
  - split; [apply startsWith_refl |]. repeat split; intros; try reflexivity; lia.
  - split; [apply takeS_prefix |]. split; [lia |]. split; [reflexivity |].
    rewrite length_takeS.
    split; intros _ Hm; destruct (Z.ltb_spec (maxLen - 1) 0); lia.
Qed.

Lemma truncateColumnName_length_witness :
  let name := "a_rather_long_column_name_of_forty_chars" in
  defaultMaxLen < Z.of_nat (String.length name)
  /\ 1 <= defaultMaxLen
  /\ truncateColumnName name defaultMaxLen = ("a_rather_long_column_name_of_", true)
  /\ shownLength (truncateColumnName name defaultMaxLen) = 30.
Proof.
  cbn zeta.
  assert (H1 : defaultMaxLen
               < Z.of_nat (String.length "a_rather_long_column_name_of_forty_chars"))
    by reflexivity.
  assert (H2 : 1 <= defaultMaxLen) by (vm_compute; discriminate).
  split; [exact H1 |]. split; [exact H2 |]. split; [reflexivity |].
  exact (proj1 (proj2 (proj2 (proj2
           (truncateColumnName_length "a_rather_long_column_name_of_forty_chars"
                                      defaultMaxLen)))) H1 H2).
Defined.

End EscapeProps.

(** ** Further properties: the filter-clause builder and the
       statements *)

Module FilterProps.
Import JsString JsNumber Escape Filter Query Readers Viewer.
Import StringFacts FilterFacts FilterClaims EscapeProps.

(** The entries [buildFilterClauses] cannot handle: an object with a
    value, on a column that is neither [range] nor [date]. *)
Definition objectOnScalarColumn (cm : gmap string ColMeta) (e : string * FilterValue)
  : bool :=
  hasValue (snd e)
  && match snd e with MinMax _ _ => true | Scalar _ => false end
  && negb (filterTypeIs (metaOf cm (fst e)) "range")
  && negb (filterTypeIs (metaOf cm (fst e)) "date").

Lemma clauseOf_outcome (cm : gmap string ColMeta) (col : string) (val : FilterValue) :
  match clauseOf cm (col, val) with
  | Ok _ =>
      match val with MinMax _ _ => true | Scalar _ => false end
      && negb (filterTypeIs (metaOf cm col) "range")
      && negb (filterTypeIs (metaOf cm col) "date") = false
  | Throw e =>
      e = notAFunction
      /\ match val with MinMax _ _ => true | Scalar _ => false end
         && negb (filterTypeIs (metaOf cm col) "range")
         && negb (filterTypeIs (metaOf cm col) "date") = true
  end.
Proof.
  unfold clauseOf. fold (metaOf cm col).
  destruct (filterTypeIs (metaOf cm col) "range");
    [now rewrite andb_false_r |].
  destruct (filterTypeIs (metaOf cm col) "date");
    [now rewrite andb_false_r |].
  destruct (filterTypeIs (metaOf cm col) "select"), val as [s | a b];
    try destruct (String.eqb s ""); cbn; auto.
Qed.

(** X7: [buildFilterClauses] throws exactly when some entry with a
    value is an object on a column that is neither [range] nor
    [date], and what it throws is the TypeError of calling [replace]
    on the object; on every other input it returns clauses. *)
Theorem buildFilterClauses_throws_only_on_objects
    (fm : list (string * FilterValue)) (cm : gmap string ColMeta) :
  match buildFilterClauses fm cm with
  | Ok _ => existsb (objectOnScalarColumn cm) fm = false
  | Throw e => e = notAFunction /\ existsb (objectOnScalarColumn cm) fm = true
  end.
Proof.
  induction fm as [|[col val] fm IH]; [reflexivity |].
  change ((col, val) :: fm) with ([(col, val)] ++ fm)%list.
  rewrite buildFilterClauses_app, buildFilterClauses_one.
  cbn [existsb List.app]. unfold objectOnScalarColumn at 1 3. cbn [fst snd].
  pose proof (clauseOf_outcome cm col val) as Hc.
  destruct (hasValue val); cbn [andb bind].
  - destruct (clauseOf cm (col, val)) as [c|e]; cbn [bind].
    + rewrite <- !andb_assoc in *. rewrite Hc. cbn [orb].
      destruct (buildFilterClauses fm cm); exact IH.
    + destruct Hc as [-> Hc]. rewrite <- !andb_assoc in *. rewrite Hc. now split.
  - destruct (buildFilterClauses fm cm); exact IH.
Qed.

Lemma filter_inactive (fm : list (string * FilterValue)) :
  hasFilters fm = false -> List.filter (fun e => hasValue (snd e)) fm = [].
Proof.
  unfold hasFilters. induction fm as [|e fm IH]; [reflexivity |].
  cbn [existsb List.filter]. intros H. apply orb_false_iff in H as [He Hfm].
  rewrite He. auto.
Qed.

(** X8: when no filter has a value ([hasFilters] is false, as
    [reloadData], [loadMore] and [loadAll] test it), there are no
    clauses: the row statement is the one for an empty filter map and
    the statement of [getFilteredRowCount] is the statement of
    [getRowCount], whose cached answer the handlers use instead. *)
Theorem inactive_filters_leave_statements_unfiltered
    (source : string) (cols : list Column) (sortCol : option string)
    (sortDir : option Direction) (fm : list (string * FilterValue))
    (cm : gmap string ColMeta) :
  hasFilters fm = false ->
  buildFilterClauses fm cm = Ok []
  /\ rowsSql source cols sortCol sortDir fm cm = rowsSql source cols sortCol sortDir [] cm
  /\ countSql source fm cm = Ok (rowCountSql source).
Proof.
  intros H.
  assert (Hb : buildFilterClauses fm cm = Ok []).
  { unfold buildFilterClauses. now rewrite (filter_inactive fm H). }
  split; [exact Hb |]. unfold rowsSql, countSql, rowCountSql. rewrite Hb.
  split; [reflexivity |]. cbn [bind whereText]. now rewrite append_nil_r.
Qed.

Lemma inactive_filters_leave_statements_unfiltered_witness :
  hasFilters [("name", Scalar "  "); ("age", MinMax "" "")] = false
  /\ countSql "data.parquet" [("name", Scalar "  "); ("age", MinMax "" "")] ∅
     = Ok (rowCountSql "data.parquet").
Proof.
  assert (H : hasFilters [("name", Scalar "  "); ("age", MinMax "" "")] = false)
    by reflexivity.
  split; [exact H |].
  exact (proj2 (proj2 (inactive_filters_leave_statements_unfiltered
                         "data.parquet" [] None None _ ∅ H))).
Defined.

(** X9: for a [select] column a scalar value that is not blank adds,
    in its place, the clause [col = 'v'] with the quotes of the value
    doubled, and the literal of that clause reads back as the value
    itself. *)
Theorem select_filter_clause
    (before after : list (string * FilterValue)) (cm : gmap string ColMeta)
    (col v : string) :
  filterType (metaOf cm col) = Some "select" ->
  trim v <> "" ->
  buildFilterClauses (before ++ (col, Scalar v) :: after)%list cm =
    (let* a := buildFilterClauses before cm in
     let* b := buildFilterClauses after cm in
     Ok (a ++ [(escapeColumnName col ++ " = '" ++ escapeSource v ++ "'")%string]
           ++ b)%list)
  /\ readLiteral (escapeSource v ++ "'") = Some (v, "").
Proof.
  intros Hsel Hv. split; [| now apply readDelimited_doubled].
  apply trim_nonempty in Hv as Hne.
  apply buildFilterClauses_entry.
  - simpl. apply truthy_true in Hne, Hv. now rewrite Hne, Hv.
  - unfold clauseOf, filterTypeIs. fold (metaOf cm col). rewrite Hsel. cbn.
    apply String.eqb_neq in Hne. now rewrite Hne.
  - unfold escapeColumnName. discriminate.
Qed.

Definition statusMeta : ColMeta := {| filterType := Some "select"; type := None |}.

Lemma select_filter_clause_witness :
  filterType (metaOf {[ "status" := statusMeta ]} "status") = Some "select"
  /\ trim "it's done" <> ""
  /\ buildFilterClauses [("status", Scalar "it's done")] {[ "status" := statusMeta ]}
     = Ok [(escapeColumnName "status" ++ " = 'it''s done'")%string]
  /\ readLiteral "it''s done'" = Some ("it's done", "").
Proof.
  assert (H1 : filterType (metaOf {[ "status" := statusMeta ]} "status") = Some "select")
    by reflexivity.
  assert (H2 : trim "it's done" <> "") by (vm_compute; discriminate).
  split; [exact H1 |]. split; [exact H2 |].
  exact (select_filter_clause [] [] {[ "status" := statusMeta ]} "status" "it's done"
           H1 H2).
Defined.

(** A bound as the [date] branch uses it: itself when it is a
    [YYYY-MM-DD] string, nothing otherwise. *)
Definition validDate (bound : string) : string :=
  if isDateString bound then bound else "".

Lemma isDateBound_valid (bound : string) :
  isDateBound (Some (validDate bound)) = isDateBound (Some bound)
  /\ (isDateBound (Some bound) = true -> validDate bound = bound).
Proof.
  unfold validDate, isDateBound.
  destruct (isDateString bound) eqn:E; [now rewrite E |].
  cbn. rewrite andb_false_r. split; [reflexivity | discriminate].
Qed.

Lemma dateParts_valid (meta : ColMeta) (col min max : string) :
  dateParts meta col (MinMax min max)
  = dateParts meta col (MinMax (validDate min) (validDate max)).
Proof.
  unfold dateParts. cbn [minOf maxOf default].
  destruct (isDateBound_valid min) as [-> Hmin], (isDateBound_valid max) as [-> Hmax].
  destruct (isDateBound (Some min)), (isDateBound (Some max));
    rewrite ?Hmin, ?Hmax by reflexivity; reflexivity.
Qed.

Lemma date_entry (before after : list (string * FilterValue))
    (cm : gmap string ColMeta) (col : string) (val : FilterValue) :
  filterType (metaOf cm col) = Some "date" ->
  buildFilterClauses (before ++ (col, val) :: after)%list cm =
    (let* a := buildFilterClauses before cm in
     let* b := buildFilterClauses after cm in
     Ok (a ++ option_list (wrapParts (dateParts (metaOf cm col) col val)) ++ b)%list).
Proof.
  intros Hd. pose proof (clauseOf_date cm col val Hd) as Hc.
  destruct (wrapParts _) as [c|] eqn:E.
  - destruct (hasValue val) eqn:Hv.
    + apply buildFilterClauses_entry; [exact Hv | exact Hc |].
      now apply wrapParts_nonempty in E.
    + destruct val as [s | a b]; [discriminate E |].
      simpl in Hv. apply orb_false_iff in Hv as [Ha Hb].
      apply negb_false_iff in Ha, Hb. apply String.eqb_eq in Ha, Hb. subst.
      discriminate E.
  - rewrite (buildFilterClauses_null _ _ _ _ _ Hc), buildFilterClauses_app.
    reflexivity.
Qed.

(** X10: on a [date] column a bound that is not a [YYYY-MM-DD] string
    counts for nothing: the clauses are those of the same filter map
    with such a bound emptied, and a scalar value adds no clause and
    no error.  So only ten characters of digits and dashes are ever
    put between the quotes of a date comparison. *)
Theorem date_bounds_are_validated
    (before after : list (string * FilterValue)) (cm : gmap string ColMeta)
    (col min max v : string) :
  filterType (metaOf cm col) = Some "date" ->
  buildFilterClauses (before ++ (col, MinMax min max) :: after)%list cm
  = buildFilterClauses
      (before ++ (col, MinMax (validDate min) (validDate max)) :: after)%list cm
  /\ buildFilterClauses (before ++ (col, Scalar v) :: after)%list cm
     = buildFilterClauses (before ++ after)%list cm.
Proof.
  intros Hd. split.
  - rewrite !(date_entry _ _ _ _ _ Hd). now rewrite dateParts_valid.
  - rewrite (date_entry _ _ _ _ _ Hd), buildFilterClauses_app. reflexivity.
Qed.

Definition dayMeta : ColMeta := {| filterType := Some "date"; type := Some "DATE" |}.

Lemma date_bounds_are_validated_witness :
  filterType (metaOf {[ "day" := dayMeta ]} "day") = Some "date"
  /\ buildFilterClauses [("day", MinMax "2024-1-31' OR '1'='1" "2024-02-29")]
                        {[ "day" := dayMeta ]}
     = Ok [("(" ++ (escapeColumnName "day" ++ " <= '2024-02-29'") ++ ")")%string].
Proof.
  assert (H : filterType (metaOf {[ "day" := dayMeta ]} "day") = Some "date")
    by reflexivity.
  split; [exact H |].
  etransitivity;
    [exact (proj1 (date_bounds_are_validated [] [] {[ "day" := dayMeta ]} "day"
                     "2024-1-31' OR '1'='1" "2024-02-29" "" H))
    | vm_compute; reflexivity].
Defined.

Lemma omap_keepClause_length (cs : list (option string)) :
  (length (omap keepClause cs) <= length cs)%nat.
Proof.
  induction cs as [|c cs IH]; [reflexivity |].
  cbn. destruct (keepClause c); cbn; lia.
Qed.

Lemma mapThrow_length {A B : Type} (f : A -> result B) (xs : list A) (ys : list B) :
  mapThrow f xs = Ok ys -> length ys = length xs.
Proof.
  revert ys. induction xs as [|x xs IH]; intros ys; cbn.
  - now intros [= <-].
  - destruct (f x); cbn; [| discriminate].
    destruct (mapThrow f xs); cbn; [| discriminate].
    intros [= <-]. cbn. f_equal. now apply IH.
Qed.

(** X11: the clauses of a filter map are those of its first part
    followed by those of the rest, so they come in the order of the
    entries and an entry's clause does not depend on the other
    entries; and there is at most one clause for each entry that has
    a value. *)
Theorem clauses_follow_the_entries
    (fm1 fm2 : list (string * FilterValue)) (cm : gmap string ColMeta) :
  buildFilterClauses (fm1 ++ fm2)%list cm =
    (let* a := buildFilterClauses fm1 cm in
     let* b := buildFilterClauses fm2 cm in
     Ok (a ++ b)%list)
  /\ forall cs,
      buildFilterClauses fm1 cm = Ok cs ->
      (length cs <= length (List.filter (fun e => hasValue (snd e)) fm1))%nat.
Proof.
  split; [apply buildFilterClauses_app |].
  unfold buildFilterClauses. intros cs.
  destruct (mapThrow _ _) as [ys|e] eqn:E; cbn; [| discriminate].
  intros [= <-]. rewrite <- (mapThrow_length _ _ _ E). apply omap_keepClause_length.
Qed.

Lemma clauses_follow_the_entries_witness :
  buildFilterClauses [("age", MinMax "18" ""); ("name", Scalar " ")]
                     {[ "age" := rangeMeta ]}
  = Ok [("(" ++ (escapeColumnName "age" ++ " >= 18") ++ ")")%string]
  /\ (length [("(" ++ (escapeColumnName "age" ++ " >= 18") ++ ")")%string]
      <= length (List.filter (fun e => hasValue (snd e))
                             [("age", MinMax "18" ""); ("name", Scalar " ")]))%nat.
Proof.
  assert (H : buildFilterClauses [("age", MinMax "18" ""); ("name", Scalar " ")]
                                 {[ "age" := rangeMeta ]}
              = Ok [("(" ++ (escapeColumnName "age" ++ " >= 18") ++ ")")%string])
    by (vm_compute; reflexivity).
  split; [exact H |].
  exact (proj2 (clauses_follow_the_entries
                  [("age", MinMax "18" ""); ("name", Scalar " ")] []
                  {[ "age" := rangeMeta ]}) _ H).
Defined.

(** X12: [getRows] and [getFilteredRowCount] filter by the same
    condition: both statements carry the same WHERE text, built from
    the same clauses, and when the clauses cannot be built both fail
    with the same error.  The ORDER BY clause is left out when there is
    no sort column or when its name is the empty string. *)
Theorem row_and_count_statements_agree
    (source : string) (cols : list Column) (sortCol : option string)
    (sortDir : option Direction) (fm : list (string * FilterValue))
    (cm : gmap string ColMeta) :
  match buildFilterClauses fm cm with
  | Ok clauses =>
      exists order,
        rowsSql source cols sortCol sortDir fm cm
        = Ok (("SELECT " ++ join ", " (List.map (fun c => escapeColumnName (name c)) cols)
               ++ " FROM read_parquet('" ++ escapeSource source ++ "')")
              ++ whereText clauses ++ order)
        /\ countSql source fm cm = Ok (rowCountSql source ++ whereText clauses)
        /\ order = match sortCol with
                   | Some c =>
                       if String.eqb c "" then ""
                       else " ORDER BY " ++ escapeColumnName c ++ " "
                            ++ directionText sortDir
                   | None => ""
                   end
  | Throw e =>
      rowsSql source cols sortCol sortDir fm cm = Throw e
      /\ countSql source fm cm = Throw e
  end.
Proof.
  unfold rowsSql, countSql, rowCountSql.
  destruct (buildFilterClauses fm cm) as [clauses|e]; cbn [bind]; [| now split].
  eexists. split; [| split; [reflexivity | reflexivity]].
  f_equal. destruct sortCol as [c|].
  - unfold truthy. destruct (String.eqb c ""); cbn [negb].
    + now rewrite !append_nil_r, ?append_assoc.
    + now rewrite !append_assoc.
  - now rewrite !append_nil_r, ?append_assoc.
Qed.

End FilterProps.

(** ** Further properties: filter edits *)

Module EditProps.
Import JsString Filter Query Errors Viewer.
Import StringFacts FilterFacts FilterClaims.

(** The entries of an object without the key [k]. *)
Fixpoint removeKey {V : Type} (k : string) (l : list (string * V)) : list (string * V) :=
  match l with
  | [] => []
  | (k', v') :: l' =>
      if String.eqb k' k then removeKey k l' else (k', v') :: removeKey k l'
  end.

Section Objects.
Context {V : Type}.
Implicit Type l : list (string * V).

Lemma jsGet_None l (k : string) : jsGet k l = None <-> ~ In k (List.map fst l).
Proof.
  induction l as [|[k' v'] l IH]; cbn; [tauto |].
  destruct (String.eqb_spec k' k); [split; [discriminate | tauto] |].
  rewrite IH. tauto.
Qed.








Lemma removeKey_absent l (k : string) :
  ~ In k (List.map fst l) -> removeKey k l = l.
Proof.
  induction l as [|[k0 v0] l IH]; cbn; [reflexivity |]. intros H.
  destruct (String.eqb_spec k0 k); [tauto |]. f_equal. apply IH. tauto.
Qed.

Lemma filter_replaceKey (P : string * V -> bool) l (k : string) (v : V) :
  List.NoDup (List.map fst l) ->
  P (k, v) = false ->
  List.filter P (replaceKey k v l) = List.filter P (removeKey k l).
Proof.
  intros Hnd HP. induction l as [|[k0 v0] l IH]; [reflexivity |].
  cbn [List.map fst] in Hnd. apply List.NoDup_cons_iff in Hnd as [Hk0 Hnd].
  cbn [replaceKey removeKey]. destruct (String.eqb_spec k0 k) as [->|Hne].
  - cbn [List.filter]. rewrite HP. now rewrite removeKey_absent.
  - cbn [List.filter]. now rewrite IH.
Qed.

Lemma filter_insertIndexKey (P : string * V -> bool) l (i : Z) (k : string) (v : V) :
  P (k, v) = false ->
  List.filter P (insertIndexKey i k v l) = List.filter P l.
Proof.
  intros HP. induction l as [|[k0 v0] l IH]; cbn [insertIndexKey List.filter].
  - now rewrite HP.
  - destruct (arrayIndex k0) as [j|]; [destruct (i <? j) |]; cbn [List.filter];
      rewrite ?HP; try reflexivity.
    now rewrite IH.
Qed.

(** Writing a value that a filter passes over is, for that filter,
    deleting the property. *)
Lemma filter_jsSet (P : string * V -> bool) l (k : string) (v : V) :
  List.NoDup (List.map fst l) ->
  P (k, v) = false ->
  List.filter P (jsSet k v l) = List.filter P (removeKey k l).
Proof.
  intros Hnd HP. unfold jsSet. destruct (jsGet k l) as [v0|] eqn:E.
  - now apply filter_replaceKey.
  - apply jsGet_None in E. rewrite (removeKey_absent _ _ E).
    destruct (arrayIndex k); [now apply filter_insertIndexKey |].
    rewrite List.filter_app. cbn [List.filter]. rewrite HP. apply app_nil_r.
Qed.

End Objects.

Lemma existsb_filter_self {A : Type} (P : A -> bool) (l : list A) :
  existsb P (List.filter P l) = existsb P l.
Proof.
  induction l as [|x l IH]; [reflexivity |].
  cbn. destruct (P x) eqn:E; cbn; [now rewrite E | exact IH].
Qed.

Section Edits.
Context {Row : Type}.
Implicit Type s : Session Row.

(** The filter entries have distinct column names, as the properties
    of an object do. *)
Definition distinctKeys s : Prop := List.NoDup (List.map fst (filters s)).



(** X15: clearing a text filter, or storing a blank value, takes the
    column out of the query: the clauses built from the filters
    after the edit are those built from the filters with the column
    removed, and whether a filter is active is decided by the other
    columns alone. *)
Theorem cleared_filter_is_dropped (colName value : string) (cm : gmap string ColMeta) s :
  distinctKeys s ->
  trim value = "" ->
  let s' := filterInput colName value s in
  buildFilterClauses (filters s') cm
  = buildFilterClauses (removeKey colName (filters s)) cm
  /\ hasFilters (filters s') = hasFilters (removeKey colName (filters s)).
Proof.
  intros Hnd Hblank. cbn zeta. unfold filterInput. cbn [filters setOffset setFilters].
  assert (Hf : List.filter (fun e => hasValue (snd e))
                 (jsSet colName (Scalar value) (filters s))
               = List.filter (fun e => hasValue (snd e))
                   (removeKey colName (filters s))).
  { apply filter_jsSet; [exact Hnd |]. cbn. rewrite Hblank. apply andb_false_r. }
  split.
  - unfold buildFilterClauses. now rewrite Hf.
  - unfold hasFilters.
    rewrite <- (existsb_filter_self _ (jsSet _ _ _)),
            <- (existsb_filter_self _ (removeKey _ _)).
    now rewrite Hf.
Qed.

End Edits.

(** A session with a text filter on [name] and a lower bound on
    [age]. *)
Definition editedSession : Session nat :=
  rangeInput "age" FieldMin "18" (filterInput "name" "ann" (initial nat)).

Lemma edited_distinct : distinctKeys editedSession.
Proof.
  unfold distinctKeys. cbn. repeat constructor; cbn; intuition discriminate.
Qed.



Lemma cleared_filter_is_dropped_witness :
  distinctKeys editedSession
  /\ trim " " = ""
  /\ buildFilterClauses (filters (filterInput "name" " " editedSession))
                        {[ "age" := rangeMeta ]}
     = buildFilterClauses [("age", MinMax "18" "")] {[ "age" := rangeMeta ]}.
Proof.
  assert (Hb : trim " " = "") by reflexivity.
  split; [exact edited_distinct |]. split; [exact Hb |].
  exact (proj1 (cleared_filter_is_dropped "name" " " {[ "age" := rangeMeta ]}
                  editedSession edited_distinct Hb)).
Defined.

End EditProps.

(** ** Further properties: loading, failures and overlapping clicks *)

Module LoadProps.
Import JsString Filter Query Errors Viewer.
Import StringFacts FilterFacts SessionFacts SessionClaims.

Ltac eval_session :=
  cbn -[rowsSql countSql describeSql rowCountSql hasFilters getColumnMeta handleError
        Z.add Z.sub Z.leb Z.ltb Z.eqb Z.of_nat Z.to_nat firstn skipn List.app].

Section Loading.
Context {Row : Type}.
Variable engine : Engine Row.
Variable chunk batch : Z.
Variable fileUrl : option string.
Implicit Type s : Session Row.

(** X16: however a load ends, with a first page, an empty file or an
    error at any query, the session is on the new source without a
    sort and without filters; and once the schema has been read the
    session has its first [MAX_COLS] columns, at most 100. *)
Theorem load_resets_sort_and_filters (source : string) s :
  let s' := fst (loadParquet engine chunk source s) in
  currentSource s' = source
  /\ sortColumn s' = None
  /\ sortDirection s' = None
  /\ filters s' = []
  /\ forall allCols,
      runDescribe engine (describeSql source) = Ok allCols ->
      columns s' = firstn MAX_COLS allCols /\ (length (columns s') <= 100)%nat.
Proof.
  cbn zeta.
  assert (Hgoal : forall (d : result (list Column)) (u : Session Row),
             currentSource u = source -> sortColumn u = None ->
             sortDirection u = None -> filters u = [] ->
             (forall allCols, d = Ok allCols -> columns u = firstn MAX_COLS allCols) ->
             currentSource u = source /\ sortColumn u = None
             /\ sortDirection u = None /\ filters u = []
             /\ forall allCols,
                 d = Ok allCols ->
                 columns u = firstn MAX_COLS allCols
                 /\ (length (columns u) <= 100)%nat).
  { intros d u H1 H2 H3 H4 H5.
    split; [exact H1 |]. split; [exact H2 |]. split; [exact H3 |].
    split; [exact H4 |]. intros allCols Hd. rewrite (H5 _ Hd).
    split; [reflexivity |]. rewrite length_take. unfold MAX_COLS. lia. }
  destruct (loadParquet engine chunk source s) as [t err] eqn:Hload. cbn [fst].
  destruct s as [src cols total meta off sc sd fs tbl lbl dis lad st iss].
  unfold loadParquet in Hload. eval_load Hload.
  destruct (runDescribe engine (describeSql source)) as [[|c allCols]|e];
    eval_load Hload.
  3:{ injection Hload as <- _. apply Hgoal; try reflexivity. intros ? [=]. }
  { injection Hload as <- _. apply Hgoal; try reflexivity.
    intros ? [= <-]. reflexivity. }
  destruct (runCount engine (rowCountSql source)) as [n|e]; eval_load Hload.
  2:{ injection Hload as <- _. apply Hgoal; try reflexivity.
      intros ? [= <-]. reflexivity. }
  destruct (n =? 0); eval_load Hload.
  { injection Hload as <- _. apply Hgoal; try reflexivity.
    intros ? [= <-]. reflexivity. }
  unfold currentRowsSql in Hload. eval_load Hload.
  destruct (rowsSql _ _ _ _ _ _) as [q|e]; eval_load Hload.
  2:{ injection Hload as <- _. apply Hgoal; try reflexivity.
      intros ? [= <-]. reflexivity. }
  destruct (runRows engine q chunk 0) as [page|e]; eval_load Hload;
    injection Hload as <- _; apply Hgoal; try reflexivity;
    intros ? [= <-]; reflexivity.
Qed.

(** X17: a file without columns ends the load after the schema
    probe: no row or count statement is issued and the table is
    left alone.  A file with columns and zero rows ends it after the
    row count: the table is emptied, only the count statement has
    been issued, the columns are not analysed, and [offset] and the
    load button keep what they had for the previous file. *)
Theorem load_of_empty_file (source : string) s :
  (runDescribe engine (describeSql source) = Ok [] ->
   let r := loadParquet engine chunk source s in
   snd r = None
   /\ status (fst r) = StatusNoColumns
   /\ columns (fst r) = []
   /\ issued (fst r) = issued s
   /\ tableRows (fst r) = tableRows s)
  /\ (forall c cols,
        runDescribe engine (describeSql source) = Ok (c :: cols) ->
        runCount engine (rowCountSql source) = Ok 0 ->
        let r := loadParquet engine chunk source s in
        snd r = None
        /\ status (fst r) = StatusEmptyFile
        /\ totalRows (fst r) = 0
        /\ tableRows (fst r) = []
        /\ issued (fst r) = (issued s ++ [IssuedCount (rowCountSql source)])%list
        /\ columnMeta (fst r) = columnMeta s
        /\ offset (fst r) = offset s
        /\ moreLabel (fst r) = moreLabel s
        /\ moreDisabled (fst r) = moreDisabled s).
Proof.
  split.
  - intros Hd. cbn zeta.
    destruct (loadParquet engine chunk source s) as [t err] eqn:Hload.
    destruct s as [src cols0 total meta off sc sd fs tbl lbl dis lad st iss].
    unfold loadParquet in Hload. eval_load Hload.
    rewrite Hd in Hload. eval_load Hload.
    injection Hload as <- <-. repeat split.
  - intros c cols Hd Hn. cbn zeta.
    destruct (loadParquet engine chunk source s) as [t err] eqn:Hload.
    destruct s as [src cols0 total meta off sc sd fs tbl lbl dis lad st iss].
    unfold loadParquet in Hload. eval_load Hload.
    rewrite Hd in Hload. eval_load Hload.
    rewrite Hn in Hload. unfold renderRows in Hload. eval_load Hload.
    injection Hload as <- <-. repeat split.
Qed.

(** X18: when the row query of [reloadData] fails, the error is
    shown and the table, [offset] and the load button are left as
    they were.  When the row query succeeds and the count query
    fails, the error is shown, [offset] is already the number of rows
    fetched, and the table still shows the old rows.  When the
    clauses cannot be built, no statement is issued. *)
Theorem reload_failure (sql : string) (e : exn) s :
  let s' := reloadData engine chunk fileUrl s in
  (currentRowsSql s = Throw e ->
   status s' = StatusError (handleError fileUrl e) /\ issued s' = issued s)
  /\ (currentRowsSql s = Ok sql ->
      runRows engine sql chunk 0 = Throw e ->
      status s' = StatusError (handleError fileUrl e)
      /\ tableRows s' = tableRows s
      /\ offset s' = offset s
      /\ moreLabel s' = moreLabel s
      /\ moreDisabled s' = moreDisabled s)
  /\ (forall rows csql,
        currentRowsSql s = Ok sql ->
        runRows engine sql chunk 0 = Ok rows ->
        hasFilters (filters s) = true ->
        currentCountSql s = Ok csql ->
        runCount engine csql = Throw e ->
        status s' = StatusError (handleError fileUrl e)
        /\ offset s' = Z.of_nat (length rows)
        /\ tableRows s' = tableRows s
        /\ moreLabel s' = moreLabel s).
Proof.
  cbn zeta. destruct s as [src cols total meta off sc sd fs tbl lbl dis lad st iss].
  unfold reloadData, settle, reloadStart, currentRowsSql, currentCountSql. eval_session.
  split; [| split].
  - intros ->. eval_session. now split.
  - intros -> . eval_session. intros ->. eval_session. repeat split.
  - intros rows csql -> . eval_session. intros ->.
    unfold reloadOnRows, currentCountSql. eval_session.
    intros -> ->. eval_session. intros ->. eval_session. repeat split.
Qed.

(** X19: when the row query of [loadMore] fails, the error is shown,
    the table and [offset] are unchanged, and the button stays
    disabled under its [Loading...] label, so that it takes no
    further click. *)
Theorem load_more_failure (sql : string) (e : exn) s :
  currentRowsSql s = Ok sql ->
  runRows engine sql chunk (offset s) = Throw e ->
  let s' := loadMore engine chunk fileUrl s in
  status s' = StatusError (handleError fileUrl e)
  /\ tableRows s' = tableRows s
  /\ offset s' = offset s
  /\ moreLabel s' = LoadingLabel
  /\ moreDisabled s' = true
  /\ forall pending,
      step engine chunk fileUrl (s', pending) MoreClick = (s', pending).
Proof.
  destruct s as [src cols total meta off sc sd fs tbl lbl dis lad st iss].
  unfold loadMore, settle, moreStart, currentRowsSql. eval_session.
  intros -> . eval_session. intros ->. eval_session. repeat split.
Qed.

(** X20: [loadAll] asks for confirmation only above
    [WARN_THRESHOLD] remaining rows: at or below it the answer makes
    no difference.  Above it a refusal leaves the session as the
    count left it, and so does a count with nothing remaining; a
    failing count ends the handler without an error display. *)
Theorem load_all_confirmation (fc : Z) (e : exn) s :
  (snd (currentCount engine s) = Ok fc ->
   fc - offset s <= WARN_THRESHOLD ->
   loadAll engine batch fileUrl false s = loadAll engine batch fileUrl true s)
  /\ (snd (currentCount engine s) = Ok fc ->
      WARN_THRESHOLD < fc - offset s ->
      loadAll engine batch fileUrl false s = fst (currentCount engine s))
  /\ (snd (currentCount engine s) = Ok fc ->
      fc - offset s <= 0 ->
      forall confirmed,
        loadAll engine batch fileUrl confirmed s = fst (currentCount engine s))
  /\ (snd (currentCount engine s) = Throw e ->
      forall confirmed,
        loadAll engine batch fileUrl confirmed s = fst (currentCount engine s)
        /\ status (loadAll engine batch fileUrl confirmed s) = status s).
Proof.
  assert (Hoff : offset (fst (currentCount engine s)) = offset s
                 /\ status (fst (currentCount engine s)) = status s).
  { unfold currentCount. destruct (hasFilters _); [| now split].
    destruct (currentCountSql s); now split. }
  destruct Hoff as [Hoff Hst].
  unfold loadAll. destruct (currentCount engine s) as [s1 [n|e']].
  all: cbn [fst snd] in *; rewrite ?Hoff.
  - repeat split; try discriminate; intros [= ->].
    + intros Hle. destruct (fc - offset s <=? 0); [reflexivity |].
      destruct (Z.ltb_spec WARN_THRESHOLD (fc - offset s)); [lia | reflexivity].
    + intros Hgt. destruct (Z.leb_spec (fc - offset s) 0);
        [unfold WARN_THRESHOLD in *; lia |].
      destruct (Z.ltb_spec WARN_THRESHOLD (fc - offset s)); [reflexivity | lia].
    + intros Hle confirmed.
      destruct (Z.leb_spec (fc - offset s) 0); [reflexivity | lia].
  - repeat split; try discriminate; auto.
Qed.

Definition isStart (ev : Event) : bool :=
  match ev with
  | Complete _ => false
  | _ => true
  end.

Lemma start_keeps_disabled (ev : Event) (st : Session Row * list (Task Row)) :
  isStart ev = true ->
  moreDisabled (fst st) = true ->
  moreDisabled (fst (step engine chunk fileUrl st ev)) = true.
Proof.
  destruct st as [s pending]. cbn [fst].
  destruct s as [src cols total meta off sc sd fs tbl lbl dis lad st iss].
  cbn [moreDisabled]. intros Hev ->.
  destruct ev as [c | c v | c f v | | i]; try discriminate Hev;
    try reflexivity; unfold step, reloadStart, currentRowsSql, sortClick,
      filterInput, rangeInput; eval_session.
  - destruct sc as [c0|]; [destruct (String.eqb c0 c) |]; eval_session;
      destruct (rowsSql _ _ _ _ _ _); reflexivity.
  - destruct (rowsSql _ _ _ _ _ _); reflexivity.
  - destruct (rowsSql _ _ _ _ _ _); reflexivity.
Qed.

(** X21: [loadMore] does not overlap itself: from a click on the
    load button until one of the pending queries completes, whatever
    else the user sorts or filters, the button is disabled and a
    further click changes nothing. *)
Theorem load_more_does_not_overlap
    (evs : list Event) (st : Session Row * list (Task Row)) :
  forallb isStart evs = true ->
  let st' := run engine chunk fileUrl (MoreClick :: evs) st in
  moreDisabled (fst st') = true
  /\ step engine chunk fileUrl st' MoreClick = st'.
Proof.
  intros Hevs. cbn zeta.
  assert (Hfirst : moreDisabled (fst (step engine chunk fileUrl st MoreClick)) = true).
  { destruct st as [s pending]. unfold step.
    destruct (moreDisabled s) eqn:Hd; [exact Hd |].
    unfold moreStart. destruct (currentRowsSql _); destruct s; reflexivity. }
  assert (Hall : forall l st0,
             forallb isStart l = true ->
             moreDisabled (fst st0) = true ->
             moreDisabled (fst (fold_left (step engine chunk fileUrl) l st0)) = true).
  { induction l as [|ev l IH]; intros st0 Hl Hd; [exact Hd |].
    cbn [forallb] in Hl. apply andb_true_iff in Hl as [Hev Hl].
    cbn [fold_left]. apply IH; [exact Hl |]. now apply start_keeps_disabled. }
  unfold run. cbn [fold_left].
  pose proof (Hall evs _ Hevs Hfirst) as Hd.
  split; [exact Hd |].
  destruct (fold_left _ evs _) as [s' pending']. cbn [fst] in Hd.
  unfold step. now rewrite Hd.
Qed.

End Loading.

(** An engine that has lost its file: every query fails. *)
Definition lostFile : exn := Exn "IO Error: Cannot open file".

Definition failingEngine : Engine nat :=
  {| runDescribe := fun _ => Throw lostFile;
     runCount := fun _ => Throw lostFile;
     runValues := fun _ => Throw lostFile;
     runRows := fun _ _ _ => Throw lostFile |}.

(** An engine for a file with one column and no rows. *)
Definition emptyFileEngine : Engine nat :=
  {| runDescribe := fun _ => Ok [ {| name := "id"; ctype := "INTEGER" |} ];
     runCount := fun _ => Ok 0;
     runValues := fun _ => Ok [];
     runRows := fun _ _ _ => Ok [] |}.

Lemma load_resets_sort_and_filters_witness :
  runDescribe demoEngine (describeSql "next.parquet") = Ok demoColumns
  /\ filters (fst (loadParquet demoEngine CHUNK "next.parquet"
                     (handleFilter demoEngine CHUNK None "name" "a" sortedOnce))) = []
  /\ columns (fst (loadParquet demoEngine CHUNK "next.parquet"
                     (handleFilter demoEngine CHUNK None "name" "a" sortedOnce)))
     = firstn MAX_COLS demoColumns.
Proof.
  assert (Hd : runDescribe demoEngine (describeSql "next.parquet") = Ok demoColumns)
    by reflexivity.
  destruct (load_resets_sort_and_filters demoEngine CHUNK "next.parquet"
              (handleFilter demoEngine CHUNK None "name" "a" sortedOnce))
    as (_ & _ & _ & Hf & Hcols).
  split; [exact Hd |]. split; [exact Hf |]. exact (proj1 (Hcols _ Hd)).
Defined.

Lemma load_of_empty_file_witness :
  runDescribe emptyFileEngine (describeSql "empty.parquet")
  = Ok [ {| name := "id"; ctype := "INTEGER" |} ]
  /\ runCount emptyFileEngine (rowCountSql "empty.parquet") = Ok 0
  /\ tableRows (fst (loadParquet emptyFileEngine CHUNK "empty.parquet" demoSession)) = []
  /\ offset (fst (loadParquet emptyFileEngine CHUNK "empty.parquet" demoSession)) = 100.
Proof.
  assert (Hd : runDescribe emptyFileEngine (describeSql "empty.parquet")
               = Ok [ {| name := "id"; ctype := "INTEGER" |} ]) by reflexivity.
  assert (Hn : runCount emptyFileEngine (rowCountSql "empty.parquet") = Ok 0)
    by reflexivity.
  destruct (proj2 (load_of_empty_file emptyFileEngine CHUNK "empty.parquet" demoSession)
              _ _ Hd Hn) as (_ & _ & _ & Ht & _ & _ & Ho & _).
  split; [exact Hd |]. split; [exact Hn |]. split; [exact Ht |].
  rewrite Ho. vm_compute. reflexivity.
Defined.

Lemma reload_failure_witness :
  exists sql,
    currentRowsSql demoSession = Ok sql
    /\ runRows failingEngine sql CHUNK 0 = Throw lostFile
    /\ status (reloadData failingEngine CHUNK None demoSession)
       = StatusError (handleError None lostFile)
    /\ tableRows (reloadData failingEngine CHUNK None demoSession)
       = tableRows demoSession.
Proof.
  assert (Hex : exists sql, currentRowsSql demoSession = Ok sql)
    by (eexists; vm_compute; reflexivity).
  destruct Hex as [sql Hsql]. exists sql.
  assert (Hrows : runRows failingEngine sql CHUNK 0 = Throw lostFile) by reflexivity.
  destruct (proj1 (proj2 (reload_failure failingEngine CHUNK None sql lostFile
                            demoSession)) Hsql Hrows) as (Hst & Ht & _).
  split; [exact Hsql |]. split; [exact Hrows |]. split; [exact Hst | exact Ht].
Defined.

Lemma load_more_failure_witness :
  exists sql,
    currentRowsSql demoSession = Ok sql
    /\ runRows failingEngine sql CHUNK (offset demoSession) = Throw lostFile
    /\ moreLabel (loadMore failingEngine CHUNK None demoSession) = LoadingLabel
    /\ moreDisabled (loadMore failingEngine CHUNK None demoSession) = true.
Proof.
  assert (Hex : exists sql, currentRowsSql demoSession = Ok sql)
    by (eexists; vm_compute; reflexivity).
  destruct Hex as [sql Hsql]. exists sql.
  assert (Hrows : runRows failingEngine sql CHUNK (offset demoSession) = Throw lostFile)
    by reflexivity.
  destruct (load_more_failure failingEngine CHUNK None sql lostFile demoSession
              Hsql Hrows) as (_ & _ & _ & Hl & Hd & _).
  split; [exact Hsql |]. split; [exact Hrows |]. split; [exact Hl | exact Hd].
Defined.

Lemma load_all_confirmation_witness :
  snd (currentCount demoEngine demoSession) = Ok 250
  /\ 250 - offset demoSession <= WARN_THRESHOLD
  /\ loadAll demoEngine BATCH None false demoSession
     = loadAll demoEngine BATCH None true demoSession.
Proof.
  assert (Hc : snd (currentCount demoEngine demoSession) = Ok 250)
    by (vm_compute; reflexivity).
  assert (Hle : 250 - offset demoSession <= WARN_THRESHOLD)
    by (vm_compute; discriminate).
  split; [exact Hc |]. split; [exact Hle |].
  exact (proj1 (load_all_confirmation demoEngine BATCH None 250 lostFile demoSession)
           Hc Hle).
Defined.

Lemma load_more_does_not_overlap_witness :
  forallb isStart [SortClick "id"; FilterInput "name" "a"] = true
  /\ moreDisabled
       (fst (run demoEngine CHUNK None
                 [MoreClick; SortClick "id"; FilterInput "name" "a"]
                 (demoSession, [])))
     = true.
Proof.
  assert (H : forallb isStart [SortClick "id"; FilterInput "name" "a"] = true)
    by reflexivity.
  split; [exact H |].
  exact (proj1 (load_more_does_not_overlap demoEngine CHUNK None _ (demoSession, []) H)).
Defined.

End LoadProps.
(** ** Further properties: [loadAll] and its button *)

Module LoadAllProps.
Import JsString Filter Query Errors Viewer.
Import StringFacts FilterFacts SessionFacts SessionClaims.

Ltac eval_fields :=
  cbn -[rowsSql countSql describeSql rowCountSql hasFilters getColumnMeta handleError
        Z.add Z.sub Z.leb Z.ltb Z.eqb Z.of_nat Z.to_nat firstn skipn List.app].

Ltac eval_fields_in H :=
  cbn -[rowsSql countSql describeSql rowCountSql hasFilters getColumnMeta handleError
        Z.add Z.sub Z.leb Z.ltb Z.eqb Z.of_nat Z.to_nat firstn skipn List.app] in H.

Section LoadAll.
Context {Row : Type}.
Variable engine : Engine Row.
Variable chunk batch : Z.
Variable fileUrl : option string.
Implicit Type s : Session Row.

(** What the batches of [loadAll] leave alone, and what they add. *)
Definition batchesAdded s s' : Prop :=
  moreDisabled s' = moreDisabled s
  /\ loadAllDisabled s' = loadAllDisabled s
  /\ moreLabel s' = moreLabel s
  /\ status s' = status s
  /\ columns s' = columns s
  /\ exists added,
      tableRows s' = (tableRows s ++ added)%list
      /\ offset s' = offset s + Z.of_nat (length added).

Lemma batchesAdded_refl s : batchesAdded s s.
Proof.
  repeat split. exists []. rewrite app_nil_r. split; [reflexivity | cbn; lia].
Qed.

Lemma loadAllLoop_adds (rounds : nat) (fc : Z) s :
  columns s <> [] ->
  batchesAdded s (fst (loadAllLoop engine batch rounds fc s)).
Proof.
  revert s. induction rounds as [|k IH]; intros s Hcols; [apply batchesAdded_refl |].
  cbn [loadAllLoop].
  destruct (offset s <? fc); [| apply batchesAdded_refl].
  destruct (currentRowsSql s) as [sql|e]; [| apply batchesAdded_refl].
  destruct (runRows engine sql batch (offset (logIssued _ s))) as [[|r rows]|e] eqn:Hr.
  - destruct s; repeat split. exists []. rewrite app_nil_r.
    split; [reflexivity | cbn; lia].
  - match goal with
    | |- batchesAdded _ (fst (loadAllLoop _ _ _ _ ?u)) =>
        assert (Hu : batchesAdded s u /\ columns u <> [])
    end.
    { destruct s as [src cols total meta off sc sd fs tbl lbl dis lad st iss].
      unfold renderRows. cbn [columns] in Hcols.
      destruct cols as [|c cols]; [contradiction |]. eval_fields.
      split; [| discriminate]. repeat split. exists (r :: rows).
      split; reflexivity. }
    destruct Hu as [(H1 & H2 & H3 & H4 & H5 & added & H6 & H7) Hc].
    destruct (IH _ Hc) as (K1 & K2 & K3 & K4 & K5 & more & K6 & K7).
    repeat split; try congruence.
    exists (added ++ more)%list. rewrite K6, H6, K7, H7, length_app, app_assoc.
    split; [reflexivity | lia].
  - destruct s; repeat split. exists []. rewrite app_nil_r.
    split; [reflexivity | cbn; lia].
Qed.

(** X27: once [loadAll] has counted rows remaining and gone past
    its confirmation, both buttons end disabled, whatever the engine
    answers.  The table has gained the rows of the batches fetched
    and [offset] their number.  Either no batch failed, the load
    button reads [All rows loaded] and the status is untouched (also
    when an empty batch ended the loop early), or the error of the
    failing batch is shown and the load button keeps its label. *)
Theorem load_all_outcome (confirmed : bool) (fc : Z) s :
  snd (currentCount engine s) = Ok fc ->
  0 < fc - offset s ->
  (WARN_THRESHOLD < fc - offset s -> confirmed = true) ->
  columns s <> [] ->
  let s' := loadAll engine batch fileUrl confirmed s in
  moreDisabled s' = true
  /\ loadAllDisabled s' = true
  /\ (exists added,
        tableRows s' = (tableRows s ++ added)%list
        /\ offset s' = offset s + Z.of_nat (length added))
  /\ ((moreLabel s' = AllRowsLoaded /\ status s' = status s)
      \/ (moreLabel s' = moreLabel s
          /\ exists e, status s' = StatusError (handleError fileUrl e))).
Proof.
  intros Hfc Hpos Hconf Hcols. cbn zeta.
  assert (Hcc : batchesAdded s (fst (currentCount engine s))
                /\ tableRows (fst (currentCount engine s)) = tableRows s
                /\ offset (fst (currentCount engine s)) = offset s).
  { unfold currentCount. destruct (hasFilters _);
      [| split; [apply batchesAdded_refl | now split]].
    destruct (currentCountSql s);
      [| split; [apply batchesAdded_refl | now split]].
    destruct s. cbn. split; [| now split].
    repeat split. exists []. rewrite app_nil_r. split; [reflexivity | cbn; lia]. }
  unfold loadAll. destruct (currentCount engine s) as [s1 r]. cbn [fst snd] in *.
  subst r. destruct Hcc as ((H1 & H2 & H3 & H4 & H5 & _) & Ht & Ho).
  rewrite Ho.
  destruct (Z.leb_spec (fc - offset s) 0) as [Hle | _]; [lia |].
  assert (Hgo : (WARN_THRESHOLD <? fc - offset s) && negb confirmed = false).
  { destruct (Z.ltb_spec WARN_THRESHOLD (fc - offset s)) as [Hgt | _];
      [rewrite (Hconf Hgt) |]; reflexivity. }
  rewrite Hgo.
  match goal with
  | |- context [loadAllLoop _ _ _ _ ?u] =>
      assert (Hu : moreDisabled u = true /\ loadAllDisabled u = true
                   /\ moreLabel u = moreLabel s /\ status u = status s
                   /\ columns u = columns s /\ tableRows u = tableRows s
                   /\ offset u = offset s);
      [ destruct s1; cbn in *; repeat split; assumption |];
      pose proof (loadAllLoop_adds (Z.to_nat (fc - offset s)) fc u) as Hloop;
      destruct (loadAllLoop engine batch (Z.to_nat (fc - offset s)) fc u)
        as [s2 err]
  end.
  destruct Hu as (U1 & U2 & U3 & U4 & U5 & U6 & U7).
  cbn [fst] in Hloop.
  destruct Hloop as (K1 & K2 & K3 & K4 & K5 & added & K6 & K7);
    [rewrite U5; exact Hcols |].
  rewrite U6 in K6. rewrite U7 in K7.
  destruct err as [e|].
  - unfold caught. destruct s2. cbn in *.
    split; [congruence |]. split; [congruence |].
    split; [exists added; split; assumption |].
    right. split; [congruence |]. exists e. reflexivity.
  - destruct s2. cbn in *.
    split; [reflexivity |]. split; [reflexivity |].
    split; [exists added; split; assumption |].
    left. split; [reflexivity | congruence].
Qed.

Lemma loadAllLoop_keeps_loadAll (rounds : nat) (fc : Z) s :
  loadAllDisabled (fst (loadAllLoop engine batch rounds fc s)) = loadAllDisabled s.
Proof.
  revert s. induction rounds as [|k IH]; intros s; [reflexivity |].
  cbn [loadAllLoop].
  destruct (offset s <? fc); [| reflexivity].
  destruct (currentRowsSql s) as [sql|e]; [| reflexivity].
  destruct (runRows engine sql batch (offset (logIssued _ s))) as [[|r rows]|e];
    try (destruct s; reflexivity).
  rewrite IH. unfold renderRows. destruct s as [? cols ? ? ? ? ? ? ? ? ? ? ? ?].
  destruct cols; reflexivity.
Qed.

Lemma resume_keeps_loadAll (t : Task Row) s :
  loadAllDisabled (fst (resume engine chunk fileUrl t s)) = loadAllDisabled s.
Proof.
  destruct s as [src cols total meta off sc sd fs tbl lbl dis lad st iss].
  destruct t as [sql | rows sql | sql off0 | sql]; cbn [resume fst].
  - unfold reloadOnRows, reloadFinish, currentCountSql, renderRows.
    destruct (runRows engine sql chunk 0) as [rows|e]; [| reflexivity].
    eval_fields. destruct (hasFilters fs); eval_fields.
    + destruct (countSql _ _ _); reflexivity.
    + destruct cols; reflexivity.
  - unfold reloadOnCount, reloadFinish, renderRows.
    destruct (runCount engine sql) as [n|e]; [| reflexivity].
    eval_fields. destruct cols; reflexivity.
  - unfold moreOnRows, currentCountSql, renderRows.
    destruct (runRows engine sql chunk off0) as [rows|e]; [| reflexivity].
    eval_fields. destruct cols; eval_fields;
      (destruct (hasFilters fs); eval_fields;
       [destruct (countSql _ _ _); reflexivity | reflexivity]).
  - unfold moreOnCount. destruct (runCount engine sql); reflexivity.
Qed.

Lemma step_keeps_loadAll (ev : Event) (st : Session Row * list (Task Row)) :
  loadAllDisabled (fst (step engine chunk fileUrl st ev)) = loadAllDisabled (fst st).
Proof.
  destruct st as [s pending]. cbn [fst].
  destruct ev as [c | c v | c f v | | i]; unfold step.
  - destruct s as [src cols total meta off sc sd fs tbl lbl dis lad st iss].
    unfold reloadStart, currentRowsSql, sortClick. eval_fields.
    destruct sc as [c0|]; [destruct (String.eqb c0 c) |]; eval_fields;
      destruct (rowsSql _ _ _ _ _ _); reflexivity.
  - destruct s as [src cols total meta off sc sd fs tbl lbl dis lad st iss].
    unfold reloadStart, currentRowsSql, filterInput. eval_fields.
    destruct (rowsSql _ _ _ _ _ _); reflexivity.
  - destruct s as [src cols total meta off sc sd fs tbl lbl dis lad st iss].
    unfold reloadStart, currentRowsSql, rangeInput. eval_fields.
    destruct (rowsSql _ _ _ _ _ _); reflexivity.
  - destruct (moreDisabled s); [reflexivity |].
    destruct s as [src cols total meta off sc sd fs tbl lbl dis lad st iss].
    unfold moreStart, currentRowsSql. eval_fields.
    destruct (rowsSql _ _ _ _ _ _); reflexivity.
  - destruct (pending !! i) as [t|]; [| reflexivity].
    pose proof (resume_keeps_loadAll t s) as H.
    destruct (resume engine chunk fileUrl t s) as [s' next]. exact H.
Qed.

(** X28: nothing enables the [Load all] button again.  Sorting,
    filtering, paging and the completion of their queries, in any
    interleaving, leave it as it is, and so does loading another
    file; [loadAll] itself only ever disables it. *)
Theorem load_all_button_is_never_enabled_again
    (evs : list Event) (st : Session Row * list (Task Row))
    (source : string) (confirmed : bool) s :
  loadAllDisabled (fst (run engine chunk fileUrl evs st)) = loadAllDisabled (fst st)
  /\ loadAllDisabled (fst (loadParquet engine chunk source s)) = loadAllDisabled s
  /\ (loadAllDisabled s = true ->
      loadAllDisabled (loadAll engine batch fileUrl confirmed s) = true).
Proof.
  split; [| split].
  - unfold run. revert st. induction evs as [|ev evs IH]; intros st; [reflexivity |].
    cbn [fold_left]. rewrite IH. apply step_keeps_loadAll.
  - destruct (loadParquet engine chunk source s) as [t err] eqn:Hload. cbn [fst].
    destruct s as [src cols total meta off sc sd fs tbl lbl dis lad st0 iss].
    unfold loadParquet in Hload. eval_load Hload.
    destruct (runDescribe engine (describeSql source)) as [[|c allCols]|e];
      eval_load Hload; try (injection Hload as <- _; reflexivity).
    destruct (runCount engine (rowCountSql source)) as [n|e]; eval_load Hload;
      try (injection Hload as <- _; reflexivity).
    destruct (n =? 0); eval_load Hload; try (injection Hload as <- _; reflexivity).
    unfold currentRowsSql in Hload. eval_load Hload.
    destruct (rowsSql _ _ _ _ _ _) as [q|e]; eval_load Hload;
      try (injection Hload as <- _; reflexivity).
    destruct (runRows engine q chunk 0) as [page|e]; eval_load Hload;
      injection Hload as <- _; reflexivity.
  - intros Hdis. unfold loadAll.
    assert (Hcc : loadAllDisabled (fst (currentCount engine s)) = true).
    { unfold currentCount. destruct (hasFilters _); [| exact Hdis].
      destruct (currentCountSql s); [| exact Hdis]. destruct s. exact Hdis. }
    destruct (currentCount engine s) as [s1 [fc|e]]; cbn [fst] in Hcc; [| exact Hcc].
    destruct (fc - offset s1 <=? 0); [exact Hcc |].
    destruct ((WARN_THRESHOLD <? fc - offset s1) && negb confirmed); [exact Hcc |].
    match goal with
    | |- context [loadAllLoop _ _ ?n _ ?u] =>
        pose proof (loadAllLoop_keeps_loadAll n fc u) as Hloop;
        destruct (loadAllLoop engine batch n fc u) as [s2 [e|]]
    end.
    + cbn [fst] in Hloop. destruct s2, s1. exact Hloop.
    + destruct s2; reflexivity.
Qed.

End LoadAll.

Lemma load_all_outcome_witness :
  snd (currentCount demoEngine demoSession) = Ok 250
  /\ 0 < 250 - offset demoSession
  /\ columns demoSession <> []
  /\ moreDisabled (loadAll demoEngine BATCH None false demoSession) = true
  /\ loadAllDisabled (loadAll demoEngine BATCH None false demoSession) = true.
Proof.
  assert (Hc : snd (currentCount demoEngine demoSession) = Ok 250)
    by (vm_compute; reflexivity).
  assert (Hpos : 0 < 250 - offset demoSession) by (vm_compute; reflexivity).
  assert (Hconf : WARN_THRESHOLD < 250 - offset demoSession -> false = true)
    by (vm_compute; discriminate).
  assert (Hcols : columns demoSession <> []) by (vm_compute; discriminate).
  split; [exact Hc |]. split; [exact Hpos |]. split; [exact Hcols |].
  destruct (load_all_outcome demoEngine BATCH None false 250 demoSession
              Hc Hpos Hconf Hcols) as (Hm & Hl & _).
  split; [exact Hm | exact Hl].
Defined.

(** The session after [loadAll] has fetched everything. *)
Definition allLoaded : Session nat := loadAll demoEngine BATCH None false demoSession.

Lemma load_all_button_is_never_enabled_again_witness :
  loadAllDisabled allLoaded = true
  /\ loadAllDisabled (fst (loadParquet demoEngine CHUNK "next.parquet" allLoaded)) = true
  /\ loadAllDisabled (loadAll demoEngine BATCH None true allLoaded) = true.
Proof.
  assert (H : loadAllDisabled allLoaded = true) by (vm_compute; reflexivity).
  destruct (load_all_button_is_never_enabled_again demoEngine CHUNK BATCH None []
              (allLoaded, []) "next.parquet" true allLoaded) as (_ & Hload & Hall).
  split; [exact H |]. split; [rewrite Hload; exact H | exact (Hall H)].
Defined.

End LoadAllProps.
(** ** Further properties: column classification and error kinds *)

Module MetaProps.
Import JsString Escape Filter Query Errors Viewer.
Import StringFacts FilterFacts FilterClaims SessionClaims.

(** Two patterns that match the start of the same string agree on
    their common length. *)
Definition compatible (p q : string) : bool :=
  startsWithIgnoreCase p q || startsWithIgnoreCase q p.

Lemma prefixes_compatible (p q t : string) :
  startsWithIgnoreCase p t = true -> startsWithIgnoreCase q t = true ->
  compatible p q = true.
Proof.
  unfold compatible. revert q t. induction p as [|a p IH]; intros q t Hp Hq.
  - reflexivity.
  - destruct q as [|b q]; [apply orb_true_r |].
    destruct t as [|c t]; [discriminate |].
    cbn [startsWithIgnoreCase] in *.
    apply andb_prop in Hp as [Ha Hp]. apply andb_prop in Hq as [Hb Hq].
    apply Ascii.eqb_eq in Ha, Hb.
    rewrite Ha, Hb, !Ascii.eqb_refl. cbn [andb]. exact (IH _ _ Hp Hq).
Qed.

Lemma timestamp_is_date (t : string) :
  startsWithIgnoreCase "TIMESTAMP" t = true ->
  isNumericType t = false /\ isDateType t = true.
Proof.
  intros H. split.
  - destruct (isNumericType t) eqn:E; [| reflexivity].
    unfold isNumericType in E. apply existsb_exists in E as (p & Hin & Hp).
    pose proof (prefixes_compatible _ _ _ Hp H) as Hc.
    cbn [In] in Hin.
    repeat (destruct Hin as [<- | Hin]; [vm_compute in Hc; discriminate |]).
    destruct Hin.
  - unfold isDateType. cbn [existsb]. rewrite H. apply orb_true_r.
Qed.

Lemma numeric_is_not_date (t : string) :
  isNumericType t = true -> isDateType t = false.
Proof.
  intros E. destruct (isDateType t) eqn:D; [| reflexivity].
  unfold isNumericType in E. apply existsb_exists in E as (p & Hin & Hp).
  unfold isDateType in D. apply existsb_exists in D as (q & Hq & Hqt).
  pose proof (prefixes_compatible _ _ _ Hp Hqt) as Hc.
  cbn [In] in Hin, Hq.
  repeat (destruct Hin as [<- | Hin];
          [repeat (destruct Hq as [<- | Hq]; [vm_compute in Hc; discriminate |]);
           destruct Hq |]).
  destruct Hin.
Qed.

Section Classification.
Context {Row : Type}.
Variable engine : Engine Row.
Variable source : string.

(** The distinct-value probe of a column says it is categorical. *)
Definition probedCategorical (col : Column) : Prop :=
  exists n vals,
    runCount engine (distinctCountSql source (name col)) = Ok n
    /\ 0 < n <= CATEGORICAL_THRESHOLD
    /\ runValues engine (distinctValuesSql source (name col) CATEGORICAL_THRESHOLD)
       = Ok vals.

Lemma getColumnMeta_snoc (cols : list Column) (col : Column) :
  getColumnMeta engine source (cols ++ [col])
  = <[name col := classify engine source col]> (getColumnMeta engine source cols).
Proof. unfold getColumnMeta. now rewrite fold_left_app. Qed.

Lemma getColumnMeta_lookup (cols : list Column) (k : string) :
  getColumnMeta engine source cols !! k
  = classify engine source
      <$> last (List.filter (fun c => String.eqb (name c) k) cols).
Proof.
  induction cols as [|col cols IH] using rev_ind.
  - reflexivity.
  - rewrite getColumnMeta_snoc, List.filter_app. cbn [List.filter].
    destruct (String.eqb (name col) k) eqn:E.
    + apply String.eqb_eq in E. subst k.
      rewrite lookup_insert_eq, last_snoc. reflexivity.
    + apply String.eqb_neq in E.
      rewrite lookup_insert_ne by exact E. rewrite app_nil_r. exact IH.
Qed.

(** X22: the filter a column gets.  Every column keeps its type tag;
    a numeric type gives [range] and a date or time type gives
    [date], both without a query, and no type is both; any other column gives [select]
    exactly when the distinct count succeeds with a count from 1 to
    20 and the values query succeeds too, and [text] otherwise, so
    a failing probe is never an error. *)
Theorem column_classification (col : Column) :
  type (classify engine source col) = Some (ctype col)
  /\ (filterType (classify engine source col) = Some "range"
      <-> isNumericType (ctype col) = true)
  /\ (filterType (classify engine source col) = Some "date"
      <-> isDateType (ctype col) = true)
  /\ (filterType (classify engine source col) = Some "select"
      <-> isNumericType (ctype col) = false /\ isDateType (ctype col) = false
          /\ probedCategorical col)
  /\ (filterType (classify engine source col) = Some "text"
      <-> isNumericType (ctype col) = false /\ isDateType (ctype col) = false
          /\ ~ probedCategorical col).
Proof.
  assert (Hdec : forall b : bool, b = true \/ b = false) by (intros []; auto).
  unfold classify.
  destruct (isNumericType (ctype col)) eqn:En; cbn [negb].
  { pose proof (numeric_is_not_date _ En) as Hnd.
    cbn [filterType type]. intuition (try discriminate; try congruence). }
  destruct (isDateType (ctype col)) eqn:Ed; cbn [negb].
  { cbn [filterType type]. intuition (try discriminate; try congruence). }
  destruct (runCount engine (distinctCountSql source (name col))) as [n|e] eqn:Ec.
  2:{ assert (Hno : ~ probedCategorical col).
      { intros (m & vals & Hm & _). rewrite Ec in Hm. discriminate. }
      cbn [filterType type]. intuition (try discriminate; try congruence). }
  destruct ((n <=? CATEGORICAL_THRESHOLD) && (0 <? n)) eqn:Eb.
  2:{ assert (Hno : ~ probedCategorical col).
      { intros (m & vals & Hm & [H1 H2] & _). rewrite Ec in Hm.
        injection Hm as <-. apply Z.leb_le in H2. apply Z.ltb_lt in H1.
        rewrite H1, H2 in Eb. discriminate. }
      cbn [filterType type]. intuition (try discriminate; try congruence). }
  apply andb_prop in Eb as [H2 H1]. apply Z.leb_le in H2. apply Z.ltb_lt in H1.
  destruct (runValues engine _) as [vals|e] eqn:Ev.
  - assert (Hyes : probedCategorical col).
    { exists n, vals. repeat split; assumption. }
    cbn [filterType type]. intuition (try discriminate; try congruence).
  - assert (Hno : ~ probedCategorical col).
    { intros (m & vals & _ & _ & Hv). rewrite Ev in Hv. discriminate. }
    cbn [filterType type]. intuition (try discriminate; try congruence).
Qed.

(** X23: the metadata is keyed by column name.  A name no column has
    is absent, and when several columns share a name the entry is
    the classification of the last of them. *)
Theorem metadata_is_keyed_by_name (cols : list Column) :
  (forall k, ~ In k (map name cols) -> getColumnMeta engine source cols !! k = None)
  /\ (forall before col after,
        cols = (before ++ col :: after)%list ->
        ~ In (name col) (map name after) ->
        getColumnMeta engine source cols !! name col
        = Some (classify engine source col)).
Proof.
  split.
  - intros k Hk. rewrite getColumnMeta_lookup.
    replace (List.filter (fun c => String.eqb (name c) k) cols) with (@nil Column);
      [reflexivity |].
    symmetry. induction cols as [|c cols IH]; [reflexivity |].
    cbn [List.filter]. cbn [map In] in Hk.
    destruct (String.eqb (name c) k) eqn:E.
    + apply String.eqb_eq in E. tauto.
    + apply IH. tauto.
  - intros before col after -> Hlast. rewrite getColumnMeta_lookup.
    rewrite List.filter_app. cbn [List.filter]. rewrite String.eqb_refl.
    replace (List.filter (fun c => String.eqb (name c) (name col)) after)
      with (@nil Column).
    + now rewrite last_snoc.
    + symmetry. induction after as [|c after IH]; [reflexivity |].
      cbn [List.filter]. cbn [map In] in Hlast.
      destruct (String.eqb (name c) (name col)) eqn:E.
      * apply String.eqb_eq in E. tauto.
      * apply IH. tauto.
Qed.

(** X24: a column whose type starts with TIMESTAMP, in any letter
    case, is filtered to the end of the day: with the metadata of
    [getColumnMeta], a date range on it with a [YYYY-MM-DD] upper
    bound gives one clause ending in
    [col < 'max'::DATE + INTERVAL '1 day'], whatever the engine
    answers to the probes of the other columns. *)
Theorem timestamp_column_is_filtered_to_end_of_day
    (before after : list Column) (col : Column) (min max : string) :
  ~ In (name col) (map name after) ->
  startsWithIgnoreCase "TIMESTAMP" (ctype col) = true ->
  isDateString max = true ->
  buildFilterClauses [(name col, MinMax min max)]
    (getColumnMeta engine source (before ++ col :: after)%list)
  = Ok ["(" ++ join " AND " (dateLower (name col) min
                             ++ [strictUpper (name col) max])%list ++ ")"].
Proof.
  intros Hlast Hts Hmax.
  destruct (timestamp_is_date _ Hts) as [Hn Hd].
  set (cm := getColumnMeta engine source (before ++ col :: after)%list).
  assert (Hm : metaOf cm (name col)
               = {| filterType := Some "date"; type := Some (ctype col) |}).
  { unfold metaOf, cm. rewrite getColumnMeta_lookup, List.filter_app.
    cbn [List.filter]. rewrite String.eqb_refl.
    replace (List.filter (fun c => String.eqb (name c) (name col)) after)
      with (@nil Column).
    - rewrite last_snoc. cbn [fmap option_fmap option_map default].
      unfold classify. rewrite Hn, Hd. reflexivity.
    - symmetry. clear -Hlast. induction after as [|c after IH]; [reflexivity |].
      cbn [List.filter]. cbn [map In] in Hlast.
      destruct (String.eqb (name c) (name col)) eqn:E.
      + apply String.eqb_eq in E. tauto.
      + apply IH. tauto. }
  assert (Hv : hasValue (MinMax min max) = true).
  { simpl. apply isDateString_nonempty in Hmax. unfold truthy in Hmax.
    rewrite Hmax. apply orb_true_r. }
  rewrite buildFilterClauses_one.
  rewrite Hv.
  assert (Hft : filterType (metaOf cm (name col)) = Some "date")
    by (rewrite Hm; reflexivity).
  rewrite (clauseOf_date _ _ _ Hft), (dateParts_upper _ _ _ _ Hmax).
  assert (Hit : isTimestamp (metaOf cm (name col)) = true)
    by (rewrite Hm; exact Hts).
  rewrite Hit, wrapParts_snoc. reflexivity.
Qed.

End Classification.

(** An engine whose probes find three distinct values. *)
Definition categoricalEngine : Engine nat :=
  {| runDescribe := fun _ => Ok demoColumns;
     runCount := fun _ => Ok 3;
     runValues := fun _ => Ok ["a"; "b"; "c"];
     runRows := fun _ _ _ => Ok [] |}.

Definition nameColumn : Column := {| name := "name"; ctype := "VARCHAR" |}.
Definition createdColumn : Column := {| name := "created"; ctype := "TIMESTAMP" |}.

Lemma column_classification_witness :
  probedCategorical categoricalEngine "data.parquet" nameColumn
  /\ filterType (classify categoricalEngine "data.parquet" nameColumn) = Some "select".
Proof.
  assert (Hp : probedCategorical categoricalEngine "data.parquet" nameColumn).
  { exists 3, ["a"; "b"; "c"]. split; [reflexivity |]. split; [| reflexivity].
    unfold CATEGORICAL_THRESHOLD. lia. }
  split; [exact Hp |].
  destruct (column_classification categoricalEngine "data.parquet" nameColumn)
    as (_ & _ & _ & Hsel & _).
  apply Hsel. split; [reflexivity |]. split; [reflexivity | exact Hp].
Defined.

Lemma metadata_is_keyed_by_name_witness :
  ~ In (name nameColumn) (map name [createdColumn])
  /\ getColumnMeta demoEngine "data.parquet" demoColumns !! "name"
     = Some (classify demoEngine "data.parquet" nameColumn).
Proof.
  assert (Hlast : ~ In (name nameColumn) (map name [createdColumn])).
  { cbn. intros [H | []]. discriminate. }
  split; [exact Hlast |].
  exact (proj2 (metadata_is_keyed_by_name demoEngine "data.parquet" demoColumns)
           [ {| name := "id"; ctype := "INTEGER" |} ] nameColumn [createdColumn]
           eq_refl Hlast).
Defined.

Lemma timestamp_column_is_filtered_to_end_of_day_witness :
  ~ In (name createdColumn) (map name [])
  /\ startsWithIgnoreCase "TIMESTAMP" (ctype createdColumn) = true
  /\ isDateString "2024-01-31" = true
  /\ buildFilterClauses [("created", MinMax "2024-01-01" "2024-01-31")]
       (getColumnMeta demoEngine "data.parquet" demoColumns)
     = Ok ["(" ++ escapeColumnName "created" ++ " >= '2024-01-01' AND "
           ++ escapeColumnName "created" ++ " < '2024-01-31'::DATE + INTERVAL '1 day')"].
Proof.
  assert (Hlast : ~ In (name createdColumn) (map name [])) by (cbn; tauto).
  assert (Hts : startsWithIgnoreCase "TIMESTAMP" (ctype createdColumn) = true)
    by reflexivity.
  assert (Hmax : isDateString "2024-01-31" = true) by reflexivity.
  split; [exact Hlast |]. split; [exact Hts |]. split; [exact Hmax |].
  exact (timestamp_column_is_filtered_to_end_of_day demoEngine "data.parquet"
           [ {| name := "id"; ctype := "INTEGER" |}; nameColumn ] [] createdColumn
           "2024-01-01" "2024-01-31" Hlast Hts Hmax).
Defined.

End MetaProps.

(** ** Further properties: error kinds *)

Module ErrorProps.
Import JsString Errors.
Import StringFacts LikeFacts.

Lemma startsWith_app (n h post : string) :
  startsWith n h = true -> startsWith n (h ++ post) = true.
Proof.
  revert h. induction n as [|a n IH]; intros h H; [reflexivity |].
  destruct h as [|b h]; [discriminate |]. simpl in *.
  apply andb_prop in H as [-> H]. now rewrite (IH _ H).
Qed.

Lemma includes_app_r (n h post : string) :
  includes n h = true -> includes n (h ++ post) = true.
Proof.
  induction h as [|b h IH]; intros H.
  - destruct n; [apply includes_nil | discriminate].
  - cbn [includes] in H. apply orb_prop in H as [H | H].
    + change (String b h ++ post) with (String b (h ++ post)).
      cbn [includes]. apply orb_true_intro. left. exact (startsWith_app _ _ post H).
    + change (String b h ++ post) with (String b (h ++ post)).
      cbn [includes]. rewrite (IH H). apply orb_true_r.
Qed.

Lemma includes_app_l (n pre h : string) :
  includes n h = true -> includes n (pre ++ h) = true.
Proof.
  intros H. induction pre as [|b pre IH]; [exact H |].
  change (String b pre ++ h) with (String b (pre ++ h)).
  cbn [includes]. rewrite IH. apply orb_true_r.
Qed.

(** A needle found in the lower-cased message is found in the
    lower-cased message with text around it. *)
Lemma includes_wrapped (n pre m post : string) :
  includes n (toLowerCase m) = true ->
  includes n (toLowerCase (pre ++ m ++ post)) = true.
Proof.
  intros H. rewrite !toLowerCase_app. now apply includes_app_l, includes_app_r.
Qed.

Lemma isCorsError_wrapped (fileUrl : option string) (pre m post : string) :
  isCorsError fileUrl (Exn m) = true ->
  isCorsError fileUrl (Exn (pre ++ m ++ post)) = true.
Proof.
  unfold isCorsError. cbn [message]. intros H.
  repeat (apply orb_prop in H as [H | H]).
  - now rewrite (includes_wrapped _ pre m post H).
  - rewrite (includes_wrapped _ pre m post H). now rewrite !orb_true_r.
  - rewrite (includes_wrapped _ pre m post H). now rewrite !orb_true_r.
  - apply andb_prop in H as [H ->].
    rewrite (includes_wrapped _ pre m post H). now rewrite !orb_true_r.
Qed.

Lemma isNetworkError_wrapped (pre m post : string) :
  isNetworkError (Exn m) = true -> isNetworkError (Exn (pre ++ m ++ post)) = true.
Proof.
  unfold isNetworkError. cbn [message]. intros H.
  repeat (apply orb_prop in H as [H | H]);
    rewrite (includes_wrapped _ pre m post H); now rewrite ?orb_true_r.
Qed.

Lemma isInvalidParquet_wrapped (pre m post : string) :
  isInvalidParquet (Exn m) = true -> isInvalidParquet (Exn (pre ++ m ++ post)) = true.
Proof.
  unfold isInvalidParquet. cbn [message]. intros H.
  repeat (apply orb_prop in H as [H | H]);
    rewrite (includes_wrapped _ pre m post H); now rewrite ?orb_true_r.
Qed.

(** X25: text added around a message never weakens the verdict.  A
    message shown as a CORS error is still one with any text before
    and after it, and a message that is not shown as an unexpected
    error is not shown as one either; the details shown are the
    message itself. *)
Theorem wrapping_keeps_error_kind (fileUrl : option string) (pre m post : string) :
  (kind (handleError fileUrl (Exn m)) = CorsKind ->
   kind (handleError fileUrl (Exn (pre ++ m ++ post))) = CorsKind)
  /\ (kind (handleError fileUrl (Exn m)) <> UnexpectedKind ->
      kind (handleError fileUrl (Exn (pre ++ m ++ post))) <> UnexpectedKind)
  /\ details (handleError fileUrl (Exn m)) = m.
Proof.
  pose proof (isCorsError_wrapped fileUrl pre m post) as Hc.
  pose proof (isNetworkError_wrapped pre m post) as Hn.
  pose proof (isInvalidParquet_wrapped pre m post) as Hi.
  unfold handleError.
  destruct (isCorsError fileUrl (Exn m)).
  { rewrite (Hc eq_refl). cbn. repeat split; discriminate. }
  destruct (isNetworkError (Exn m)).
  { rewrite (Hn eq_refl).
    destruct (isCorsError fileUrl (Exn (pre ++ m ++ post)));
      cbn; repeat split; discriminate. }
  destruct (isInvalidParquet (Exn m)).
  { rewrite (Hi eq_refl).
    destruct (isCorsError fileUrl (Exn (pre ++ m ++ post)));
      [| destruct (isNetworkError (Exn (pre ++ m ++ post)))];
      cbn; repeat split; discriminate. }
  cbn. split; [discriminate |]. split; [| reflexivity]. intros H. now elim H.
Qed.

Lemma wrapping_keeps_error_kind_witness :
  kind (handleError (Some "https://example.com/a.parquet") (Exn "Failed to fetch"))
  = CorsKind
  /\ kind (handleError (Some "https://example.com/a.parquet")
                       (Exn ("TypeError: " ++ "Failed to fetch" ++ " (HEAD)")))
     = CorsKind.
Proof.
  assert (H : kind (handleError (Some "https://example.com/a.parquet")
                                (Exn "Failed to fetch")) = CorsKind) by reflexivity.
  split; [exact H |].
  exact (proj1 (wrapping_keeps_error_kind (Some "https://example.com/a.parquet")
                  "TypeError: " "Failed to fetch" " (HEAD)") H).
Defined.

(** X26: which fetch failures count as CORS.  A message containing
    [network error] is shown as a CORS error even when no URL is
    involved; one containing [failed to fetch] is shown as a CORS
    error whenever the page has an http URL and as a CORS or network
    error otherwise; so with an http URL the network error display is
    never due to [failed to fetch]. *)
Theorem fetch_failures_shown_as_cors (fileUrl : option string) (m : string) :
  (includes "network error" (toLowerCase m) = true ->
   kind (handleError fileUrl (Exn m)) = CorsKind)
  /\ (includes "failed to fetch" (toLowerCase m) = true ->
      (urlIsHttp fileUrl = true -> kind (handleError fileUrl (Exn m)) = CorsKind)
      /\ (kind (handleError fileUrl (Exn m)) = CorsKind
          \/ kind (handleError fileUrl (Exn m)) = NetworkKind))
  /\ (kind (handleError fileUrl (Exn m)) = NetworkKind ->
      urlIsHttp fileUrl = true ->
      includes "failed to fetch" (toLowerCase m) = false).
Proof.
  unfold handleError, isCorsError, isNetworkError. cbn [message].
  split; [| split].
  - intros ->. now rewrite !orb_true_r.
  - intros ->. cbn [andb orb]. split.
    + intros ->. now rewrite !orb_true_r.
    + destruct (_ || _); [left | right]; reflexivity.
  - intros Hk Hu. rewrite Hu, andb_true_r in Hk.
    destruct (includes "failed to fetch" (toLowerCase m)); [| reflexivity].
    rewrite !orb_true_r in Hk. discriminate.
Qed.

Lemma fetch_failures_shown_as_cors_witness :
  includes "network error" (toLowerCase "Network Error") = true
  /\ kind (handleError None (Exn "Network Error")) = CorsKind.
Proof.
  assert (H : includes "network error" (toLowerCase "Network Error") = true)
    by reflexivity.
  split; [exact H |].
  exact (proj1 (fetch_failures_shown_as_cors None "Network Error") H).
Defined.

End ErrorProps.
(** ** Further properties: the file name and the file size shown *)

Module FileInfoProps.
Import JsString JsNumber FileInfo.
Import StringFacts NumberFacts.

(** *** The file name *)

Definition isNot (sep : ascii) (c : ascii) : bool := negb (Ascii.eqb c sep).

Lemma split_nonempty (sep : ascii) (s : string) : split sep s <> [].
Proof.
  destruct s as [|a s]; cbn [split]; [discriminate |].
  destruct (Ascii.eqb a sep); [discriminate |].
  destruct (split sep s); discriminate.
Qed.

Lemma split_join (sep : ascii) (s : string) :
  join (String sep "") (split sep s) = s.
Proof.
  induction s as [|a s IH]; [reflexivity |]. cbn [split].
  pose proof (split_nonempty sep s) as Hne.
  destruct (Ascii.eqb a sep) eqn:E.
  - apply Ascii.eqb_eq in E. subst a.
    destruct (split sep s) as [|seg rest]; [contradiction |].
    change (join (String sep "") ("" :: seg :: rest))
      with ("" ++ String sep "" ++ join (String sep "") (seg :: rest)).
    rewrite IH. reflexivity.
  - destruct (split sep s) as [|seg rest]; [contradiction |].
    rewrite <- IH. destruct rest; reflexivity.
Qed.

Lemma split_segments (sep : ascii) (s : string) :
  Forall (fun seg => allChars (isNot sep) seg = true) (split sep s).
Proof.
  induction s as [|a s IH]; [repeat constructor |]. cbn [split].
  destruct (Ascii.eqb a sep) eqn:E; [constructor; [reflexivity | exact IH] |].
  destruct (split sep s) as [|seg rest];
    [repeat constructor; cbn; unfold isNot; now rewrite E |].
  inversion IH as [|? ? Hseg Hrest]; subst. constructor; [| exact Hrest].
  cbn [allChars]. unfold isNot at 1. rewrite E. exact Hseg.
Qed.

Lemma split_whole (sep : ascii) (s : string) :
  allChars (isNot sep) s = true -> split sep s = [s].
Proof.
  induction s as [|a s IH]; [reflexivity |]. cbn [allChars split]. intros H.
  apply andb_prop in H as [Ha Hs]. unfold isNot in Ha.
  apply negb_true_iff in Ha. rewrite Ha, (IH Hs). reflexivity.
Qed.

(** The text is what comes before the last segment, which is empty
    or ends with the separator, and the last segment. *)
Lemma last_segment (sep : ascii) (s : string) :
  exists before,
    s = before ++ List.last (split sep s) ""
    /\ (before = "" \/ exists p, before = p ++ String sep "")
    /\ allChars (isNot sep) (List.last (split sep s) "") = true.
Proof.
  pose proof (split_join sep s) as Hj. pose proof (split_segments sep s) as Hf.
  pose proof (split_nonempty sep s) as Hne.
  destruct (exists_last Hne) as (init & l & Heq). rewrite Heq in *.
  rewrite last_last. apply Forall_app in Hf as [_ Hl].
  apply Forall_inv in Hl.
  assert (Hjoin : forall init0 : list string,
             exists before,
               join (String sep "") (init0 ++ [l]) = before ++ l
               /\ (before = "" \/ exists p, before = p ++ String sep "")).
  { induction init0 as [|x init0 IH0].
    - exists "". split; [reflexivity | now left].
    - destruct IH0 as (before & Hb & Hor).
      exists (x ++ String sep "" ++ before). split.
      + change ((x :: init0) ++ [l])%list with (x :: (init0 ++ [l]))%list.
        destruct (init0 ++ [l])%list as [|y rest] eqn:Ey;
          [destruct init0; discriminate |].
        change (join (String sep "") (x :: y :: rest))
          with (x ++ String sep "" ++ join (String sep "") (y :: rest)).
        rewrite Hb, !append_assoc. reflexivity.
      + right. destruct Hor as [-> | (p & ->)].
        * exists x. reflexivity.
        * exists (x ++ String sep "" ++ p). now rewrite !append_assoc. }
  destruct (Hjoin init) as (before & Hb & Hor).
  exists before. split; [rewrite <- Hj; exact Hb |]. split; assumption.
Qed.

Lemma first_segment (sep : ascii) (s : string) :
  exists after,
    s = hd "" (split sep s) ++ after
    /\ (after = "" \/ exists q, after = String sep q)
    /\ allChars (isNot sep) (hd "" (split sep s)) = true.
Proof.
  pose proof (split_join sep s) as Hj. pose proof (split_segments sep s) as Hf.
  pose proof (split_nonempty sep s) as Hne.
  destruct (split sep s) as [|h tail]; [contradiction |].
  apply Forall_inv in Hf. cbn [hd]. destruct tail as [|y rest].
  - exists "". cbn [join] in Hj. rewrite append_nil_r.
    split; [now symmetry |]. split; [now left | exact Hf].
  - exists (String sep "" ++ join (String sep "") (y :: rest)).
    split; [now symmetry |]. split; [| exact Hf].
    right. eexists. reflexivity.
Qed.

Definition isNameChar (c : ascii) : bool := isNot "/" c && isNot "?" c.

(** X29: the file name of the status line is the text between the
    last slash of the source and the first question mark after it:
    it has neither character, the source is some text that is empty
    or ends with a slash, then the name, then nothing or a question
    mark and text without a slash.  So for a source without slashes
    and question marks, as the name of a dropped file usually is,
    [reloadData] names the file as [loadParquet] did. *)
Theorem file_name_is_between_last_slash_and_query (source : string) :
  allChars isNameChar (fileName source) = true
  /\ (exists before after,
        source = before ++ fileName source ++ after
        /\ (before = "" \/ exists p, before = p ++ "/")
        /\ (after = "" \/ exists q, after = "?" ++ q)
        /\ allChars (isNot "/") after = true)
  /\ (allChars isNameChar source = true ->
      reloadedName source = loadedName false source).
Proof.
  unfold reloadedName, loadedName, fileName.
  destruct (last_segment "/" source) as (before & Hs & Hb & Hl).
  set (l := List.last (split "/" source) "") in *.
  destruct (first_segment "?" l) as (after & Hh & Ha & Hn).
  set (h := hd "" (split "?" l)) in *.
  assert (Hsl : allChars (isNot "/") h = true /\ allChars (isNot "/") after = true).
  { rewrite Hh, allChars_app in Hl. now apply andb_prop in Hl. }
  destruct Hsl as [Hh1 Ha1].
  split; [| split].
  - unfold isNameChar. clear - Hh1 Hn. induction h as [|c h IH]; [reflexivity |].
    cbn [allChars] in *. apply andb_prop in Hh1 as [-> H1].
    apply andb_prop in Hn as [-> H2]. cbn [andb]. exact (IH H2 H1).
  - exists before, after. split; [rewrite <- Hh; exact Hs |].
    split; [exact Hb |]. split; [exact Ha | exact Ha1].
  - intros Hsrc.
    assert (H1 : allChars (isNot "/") source = true)
      by (eapply allChars_weaken; [| exact Hsrc];
          intros c Hc; now apply andb_prop in Hc).
    assert (H2 : allChars (isNot "?") source = true)
      by (eapply allChars_weaken; [| exact Hsrc];
          intros c Hc; now apply andb_prop in Hc).
    subst h l. rewrite (split_whole _ _ H1). cbn [List.last].
    rewrite (split_whole _ _ H2). reflexivity.
Qed.

Lemma file_name_is_between_last_slash_and_query_witness :
  allChars isNameChar "data.parquet" = true
  /\ reloadedName "data.parquet" = loadedName false "data.parquet".
Proof.
  assert (H : allChars isNameChar "data.parquet" = true) by reflexivity.
  split; [exact H |].
  exact (proj2 (proj2 (file_name_is_between_last_slash_and_query "data.parquet")) H).
Defined.

(** *** The file size *)

Lemma digitsValue_acc (d : Decimal.uint) (p : positive) :
  digitsValue (Z.pos p) (NilEmpty.string_of_uint d) = Z.pos (Pos.of_uint_acc d p).
Proof.
  revert p.
  induction d; intros p; cbn [NilEmpty.string_of_uint digitsValue Pos.of_uint_acc];
    try reflexivity;
    match goal with
    | |- digitsValue (10 * Z.pos p + (Z.of_nat (nat_of_ascii ?c) - 48)) _
         = Z.pos (Pos.of_uint_acc _ ?q) =>
        let v := eval vm_compute in (Z.of_nat (nat_of_ascii c)) in
        change (Z.of_nat (nat_of_ascii c)) with v;
        replace (10 * Z.pos p + (v - 48)) with (Z.pos q) by lia;
        apply IHd
    end.
Qed.

Lemma digitsValue_of_uint (d : Decimal.uint) :
  digitsValue 0 (NilEmpty.string_of_uint d) = Z.of_N (Pos.of_uint d).
Proof.
  induction d; cbn [NilEmpty.string_of_uint digitsValue Pos.of_uint];
    try reflexivity; try exact IHd;
    match goal with
    | |- digitsValue ?z _ = Z.of_N (N.pos (Pos.of_uint_acc _ ?q)) =>
        change z with (Z.pos q); apply digitsValue_acc
    end.
Qed.

Lemma digitsValue_digitsOf (b : Z) : 0 <= b -> digitsValue 0 (digitsOf b) = b.
Proof.
  intros Hb. unfold digitsOf, NilZero.string_of_uint.
  pose proof (DecimalN.Unsigned.of_to (Z.to_N b)) as Hof. unfold N.of_uint in Hof.
  assert (Hv : digitsValue 0 (NilEmpty.string_of_uint (N.to_uint (Z.to_N b))) = b)
    by (rewrite digitsValue_of_uint, Hof; lia).
  destruct (N.to_uint (Z.to_N b)); exact Hv.
Qed.

Lemma spanDigits_all (s : string) :
  allChars isDigit s = true -> spanDigits s = (s, "").
Proof.
  induction s as [|a s IH]; [reflexivity |]. cbn [allChars spanDigits]. intros H.
  apply andb_prop in H as [-> Hs]. now rewrite (IH Hs).
Qed.

Lemma digit_is_no_sign (a : ascii) (s : string) :
  isDigit a = true ->
  trimStart (String a s) = String a s /\ splitSign (String a s) = (false, String a s).
Proof.
  destruct a as [[] [] [] [] [] [] [] []]; try discriminate; intros _; split; reflexivity.
Qed.

Lemma digitsOf_nonempty (b : Z) : 0 <= b -> digitsOf b <> "".
Proof.
  intros Hb E. pose proof (digitsValue_digitsOf b Hb) as Hv. rewrite E in Hv.
  cbn in Hv. subst b. discriminate E.
Qed.

(** The integer a header of plain digits is read as. *)
Lemma parseInt10_digitsOf (b : Z) :
  0 <= b -> parseInt10 (digitsOf b) = roundRatio false b 1.
Proof.
  intros Hb. unfold parseInt10.
  pose proof (digitsOf_digits b) as Hd. pose proof (digitsOf_nonempty b Hb) as Hne.
  pose proof (digitsValue_digitsOf b Hb) as Hv.
  destruct (digitsOf b) as [|a s] eqn:E; [contradiction |].
  cbn [allChars] in Hd. apply andb_prop in Hd as [Ha Hs].
  destruct (digit_is_no_sign a s Ha) as [-> ->].
  rewrite (spanDigits_all (String a s)) by (cbn [allChars]; now rewrite Ha, Hs).
  cbn [String.eqb]. now rewrite Hv.
Qed.

(** A positive integer below [2^53], over a power of two, is a
    binary64 value: its significand is the integer shifted to 53
    bits. *)
Lemma roundRatio_dyadic (b t : Z) :
  0 < b < 2 ^ 53 -> 0 <= t <= 1000 ->
  roundRatio false b (2 ^ t)
  = Fin false (b * 2 ^ (52 - Z.log2 b)) (Z.log2 b - 52 - t).
Proof.
  intros Hb Ht.
  pose proof (Z.log2_spec b (proj1 Hb)) as [Hlo Hhi].
  pose proof (Z.log2_nonneg b) as HL0.
  assert (HL : Z.log2 b <= 52).
  { destruct (Z.le_gt_cases (Z.log2 b) 52) as [H | H]; [exact H |].
    assert (2 ^ 53 <= 2 ^ Z.log2 b) by (apply Z.pow_le_mono_r; lia). lia. }
  set (L := Z.log2 b) in *.
  unfold roundRatio, floorLog2.
  destruct (Z.leb_spec b 0) as [H0 | _]; [lia |].
  rewrite Z.log2_pow2 by lia. fold L.
  assert (Hge : (if 0 <=? L - t then 2 ^ t * 2 ^ (L - t) <=? b
                 else 2 ^ t <=? b * 2 ^ (- (L - t))) = true).
  { destruct (Z.leb_spec 0 (L - t)) as [Hp | Hn].
    - rewrite <- Z.pow_add_r by lia. replace (t + (L - t)) with L by lia.
      apply Z.leb_le. exact Hlo.
    - apply Z.leb_le. replace (2 ^ t) with (2 ^ L * 2 ^ (- (L - t)))
        by (rewrite <- Z.pow_add_r by lia; f_equal; lia).
      apply Z.mul_le_mono_nonneg_r; [apply Z.pow_nonneg; lia | exact Hlo]. }
  rewrite Hge.
  replace (Z.max (L - t - 52) (-1074)) with (L - t - 52) by lia.
  assert (Hm : scaled b (2 ^ t) (L - t - 52) = b * 2 ^ (52 - L)).
  { unfold scaled. destruct (Z.leb_spec 0 (L - t - 52)) as [Hp | Hn].
    - assert (L = 52) by lia. assert (t = 0) by lia. subst t.
      replace (L - 0 - 52) with 0 by lia. replace (52 - L) with 0 by lia.
      change (2 ^ 0) with 1. rewrite !Z.mul_1_r. unfold divRoundEven.
      rewrite Z.div_1_r, Z.mod_1_r. reflexivity.
    - replace (- (L - t - 52)) with ((52 - L) + t) by lia.
      rewrite Z.pow_add_r by lia. unfold divRoundEven.
      assert (Hpos : 0 < 2 ^ t) by (apply Z.pow_pos_nonneg; lia).
      replace (b * (2 ^ (52 - L) * 2 ^ t)) with ((b * 2 ^ (52 - L)) * 2 ^ t) by ring.
      rewrite Z.div_mul by lia. rewrite Z.mod_mul by lia.
      replace (2 * 0) with 0 by lia.
      destruct (Z.compare_spec 0 (2 ^ t)); [lia | reflexivity | lia]. }
  rewrite Hm.
  assert (Hbound : 2 ^ 52 <= b * 2 ^ (52 - L) < 2 ^ 53).
  { split.
    - replace (2 ^ 52) with (2 ^ L * 2 ^ (52 - L))
        by (rewrite <- Z.pow_add_r by lia; f_equal; lia).
      apply Z.mul_le_mono_nonneg_r; [apply Z.pow_nonneg; lia | exact Hlo].
    - replace (2 ^ 53) with (2 ^ Z.succ L * 2 ^ (52 - L))
        by (rewrite <- Z.pow_add_r by lia; f_equal; lia).
      apply Z.mul_lt_mono_pos_r; [apply Z.pow_pos_nonneg; lia | exact Hhi]. }
  destruct (Z.eqb_spec (b * 2 ^ (52 - L)) (2 ^ 53)) as [He | _]; [lia |].
  destruct (Z.ltb_spec 971 (L - t - 52)) as [Hq | _]; [lia |].
  destruct (Z.eqb_spec (b * 2 ^ (52 - L)) 0) as [He | _]; [lia |].
  f_equal. lia.
Qed.

Lemma log2_shifted (b : Z) :
  0 < b < 2 ^ 53 -> Z.log2 (b * 2 ^ (52 - Z.log2 b)) = 52.
Proof.
  intros Hb.
  pose proof (Z.log2_spec b (proj1 Hb)) as [Hlo Hhi].
  pose proof (Z.log2_nonneg b) as HL0.
  assert (HL : Z.log2 b <= 52).
  { destruct (Z.le_gt_cases (Z.log2 b) 52) as [H | H]; [exact H |].
    assert (2 ^ 53 <= 2 ^ Z.log2 b) by (apply Z.pow_le_mono_r; lia). lia. }
  rewrite Z.log2_mul_pow2 by lia. lia.
Qed.

(** The label of a size given in plain digits: the comparisons and
    the divisions are exact. *)
Section Sizes.
Variable b : Z.
Hypothesis Hb : 0 < b < 2 ^ 53.

(** The size as a binary64 value: 53 bits and an exponent. *)
Definition sizeExponent : Z := Z.log2 b.
Definition sizeBits : Z := b * 2 ^ (52 - sizeExponent).

Lemma shifted_bounds : 0 <= sizeExponent <= 52 /\ 2 ^ 52 <= sizeBits < 2 ^ 53.
Proof.
  pose proof (Z.log2_spec b (proj1 Hb)) as [Hlo Hhi].
  pose proof (Z.log2_nonneg b) as HL0. fold sizeExponent in Hlo, Hhi, HL0.
  unfold sizeBits.
  assert (HL : sizeExponent <= 52).
  { destruct (Z.le_gt_cases sizeExponent 52) as [H | H]; [exact H |].
    assert (2 ^ 53 <= 2 ^ sizeExponent) by (apply Z.pow_le_mono_r; lia). lia. }
  split; [lia |]. split.
  - replace (2 ^ 52) with (2 ^ sizeExponent * 2 ^ (52 - sizeExponent))
      by (rewrite <- Z.pow_add_r by lia; f_equal; lia).
    apply Z.mul_le_mono_nonneg_r; [apply Z.pow_nonneg; lia | exact Hlo].
  - replace (2 ^ 53) with (2 ^ Z.succ sizeExponent * 2 ^ (52 - sizeExponent))
      by (rewrite <- Z.pow_add_r by lia; f_equal; lia).
    apply Z.mul_lt_mono_pos_r; [apply Z.pow_pos_nonneg; lia | exact Hhi].
Qed.

Lemma parsed_size :
  parseInt10 (digitsOf b) = Fin false sizeBits (sizeExponent - 52).
Proof.
  rewrite parseInt10_digitsOf by lia.
  change 1 with (2 ^ 0). rewrite roundRatio_dyadic by lia.
  unfold sizeBits, sizeExponent. f_equal. lia.
Qed.

Lemma lessThan_size (c : Z) :
  lessThan (Fin false sizeBits (sizeExponent - 52)) c = (b <? c).
Proof.
  destruct shifted_bounds as [HL HM]. cbn [lessThan].
  assert (Hp : 0 < 2 ^ (52 - sizeExponent)) by (apply Z.pow_pos_nonneg; lia).
  destruct (Z.leb_spec 0 (sizeExponent - 52)) as [H0 | H0].
  - replace (sizeExponent - 52) with 0 by lia. unfold sizeBits.
    replace (52 - sizeExponent) with 0 by lia.
    change (2 ^ 0) with 1. now rewrite !Z.mul_1_r.
  - replace (- (sizeExponent - 52)) with (52 - sizeExponent) by lia. unfold sizeBits.
    destruct (Z.ltb_spec b c) as [Hlt | Hge].
    + apply Z.ltb_lt. apply Z.mul_lt_mono_pos_r; assumption.
    + apply Z.ltb_ge. apply Z.mul_le_mono_nonneg_r; lia.
Qed.

Lemma divided_size (k : Z) :
  0 <= k <= 100 ->
  dividedBy (Fin false sizeBits (sizeExponent - 52)) (2 ^ k)
  = Fin false sizeBits (sizeExponent - 52 - k).
Proof.
  intros Hk. destruct shifted_bounds as [HL HM]. cbn [dividedBy].
  assert (HlogM : Z.log2 sizeBits = 52) by (apply log2_shifted; exact Hb).
  assert (HM' : 0 < sizeBits < 2 ^ 53) by lia.
  destruct (Z.leb_spec 0 (sizeExponent - 52)) as [H0 | H0].
  - replace (sizeExponent - 52) with 0 by lia. change (2 ^ 0) with 1.
    rewrite Z.mul_1_r.
    rewrite roundRatio_dyadic by lia. rewrite HlogM.
    change (2 ^ (52 - 52)) with 1. rewrite Z.mul_1_r. f_equal; lia.
  - replace (- (sizeExponent - 52)) with (52 - sizeExponent) by lia.
    rewrite <- Z.pow_add_r by lia.
    rewrite roundRatio_dyadic by lia. rewrite HlogM.
    change (2 ^ (52 - 52)) with 1. rewrite Z.mul_1_r. f_equal; lia.
Qed.

Lemma toFixed1_size (k : Z) :
  1 <= k <= 100 ->
  toFixed1 (Fin false sizeBits (sizeExponent - 52 - k))
  = pointBeforeLast (digitsOf ((10 * b + 2 ^ (k - 1)) / 2 ^ k)).
Proof.
  intros Hk. destruct shifted_bounds as [HL HM]. cbn [toFixed1].
  destruct (Z.leb_spec 0 (sizeExponent - 52 - k)) as [H0 | H0]; [lia |].
  replace (- (sizeExponent - 52 - k)) with ((52 - sizeExponent) + k) by lia.
  assert (Hp : 0 < 2 ^ (52 - sizeExponent + k)) by (apply Z.pow_pos_nonneg; lia).
  destruct (Z.leb_spec (10 ^ 21 * 2 ^ (52 - sizeExponent + k)) sizeBits)
    as [Hbig | _].
  { exfalso. assert (1 <= 2 ^ (52 - sizeExponent + k)) by lia.
    assert (10 ^ 21 <= 10 ^ 21 * 2 ^ (52 - sizeExponent + k)) by nia.
    assert (2 ^ 53 < 10 ^ 21) by reflexivity. lia. }
  cbn [String.append]. do 2 f_equal.
  rewrite Z.pow_add_r by lia. unfold sizeBits.
  assert (Hj : 0 < 2 ^ (52 - sizeExponent)) by (apply Z.pow_pos_nonneg; lia).
  assert (Hk1 : 0 < 2 ^ (k - 1)) by (apply Z.pow_pos_nonneg; lia).
  replace (2 ^ k) with (2 * 2 ^ (k - 1))
    by (rewrite <- Z.pow_succ_r by lia; f_equal; lia).
  replace (20 * (b * 2 ^ (52 - sizeExponent))
           + 2 ^ (52 - sizeExponent) * (2 * 2 ^ (k - 1)))
    with ((10 * b + 2 ^ (k - 1)) * (2 * 2 ^ (52 - sizeExponent))) by ring.
  replace (2 * (2 ^ (52 - sizeExponent) * (2 * 2 ^ (k - 1))))
    with ((2 * 2 ^ (k - 1)) * (2 * 2 ^ (52 - sizeExponent))) by ring.
  rewrite Z.div_mul_cancel_r by lia. reflexivity.
Qed.

End Sizes.

Lemma small_sizes (b : Z) :
  0 <= b < 1024 -> getFileSize (Ok (Some (digitsOf b))) = Some (digitsOf b ++ " B").
Proof.
  intros Hb.
  assert (Hall : forallb
                   (fun i => match getFileSize (Ok (Some (digitsOf (Z.of_nat i)))) with
                             | Some s => String.eqb s (digitsOf (Z.of_nat i) ++ " B")
                             | None => false
                             end) (seq 0 1024) = true) by (vm_compute; reflexivity).
  rewrite forallb_forall in Hall.
  specialize (Hall (Z.to_nat b)). rewrite Z2Nat.id in Hall by lia.
  destruct (getFileSize (Ok (Some (digitsOf b)))) as [s|].
  - f_equal. apply String.eqb_eq. apply Hall. apply in_seq. lia.
  - discriminate Hall. apply in_seq. lia.
Qed.

(** The characters a header can begin an integer with. *)
Definition beginsInteger (a : ascii) : bool :=
  isDigit a || isWhiteSpace a || Ascii.eqb a "+" || Ascii.eqb a "-".

(** X30: the size label.  [getFileSize] gives nothing exactly when
    the request failed or the header is absent or empty.  A header
    that begins with neither a digit, a sign nor white space gives
    [NaN MB].  For a header of the plain digits of [b] below [2^53]
    the floating-point result is the exact one: [b B] below 1024,
    and above it the number of tenths of a KB or MB nearest to the
    size, the larger of two equally near, with the point before the
    last digit. *)
Theorem file_size_label
    (response : result (option string)) (a : ascii) (rest : string) (b : Z) :
  (getFileSize response = None
   <-> (exists e, response = Throw e) \/ response = Ok None \/ response = Ok (Some ""))
  /\ (beginsInteger a = false ->
      getFileSize (Ok (Some (String a rest))) = Some "NaN MB")
  /\ (0 <= b < 2 ^ 53 ->
      getFileSize (Ok (Some (digitsOf b)))
      = Some (if b <? 1024 then digitsOf b ++ " B"
              else if b <? 1024 * 1024 then
                pointBeforeLast (digitsOf ((10 * b + 512) / 1024)) ++ " KB"
              else
                pointBeforeLast (digitsOf ((10 * b + 524288) / 1048576)) ++ " MB")).
Proof.
  split; [| split].
  - split.
    + destruct response as [[size|]|e]; [| now right; left | now left; exists e].
      destruct size as [|c size]; [now right; right |].
      unfold getFileSize. cbn [truthy String.eqb negb].
      destruct (lessThan _ 1024); [discriminate |].
      destruct (lessThan _ (1024 * 1024)); discriminate.
    + intros [(e & ->) | [-> | ->]]; reflexivity.
  - unfold beginsInteger.
    destruct a as [[] [] [] [] [] [] [] []]; try discriminate; intros _; reflexivity.
  - intros Hb. destruct (Z.ltb_spec b 1024) as [Hsmall | Hbig];
      [apply small_sizes; lia |].
    assert (Hpos : 0 < b < 2 ^ 53) by lia.
    unfold getFileSize.
    assert (Ht : truthy (digitsOf b) = true)
      by (apply truthy_true, digitsOf_nonempty; lia).
    rewrite Ht, (parsed_size b Hpos), !(lessThan_size b Hpos).
    destruct (Z.ltb_spec b 1024) as [Hlt | _]; [lia |].
    change (1024 * 1024) with (2 ^ 20). change 1024 with (2 ^ 10) at 1.
    rewrite !(divided_size b Hpos) by lia.
    rewrite !(toFixed1_size b Hpos) by lia.
    destruct (b <? 2 ^ 20); reflexivity.
Qed.

Lemma file_size_label_witness :
  0 <= 1048575 < 2 ^ 53
  /\ getFileSize (Ok (Some "1048575")) = Some "1024.0 KB".
Proof.
  assert (H : 0 <= 1048575 < 2 ^ 53) by (split; [discriminate | reflexivity]).
  split; [exact H |].
  exact (proj2 (proj2 (file_size_label (Ok None) "0" "" 1048575)) H).
Defined.

End FileInfoProps.
